(** * HyperLiquidWalletTracker: the event pipeline, embedded and verified

    A shallow embedding of the pipeline of [hyperliquidwallettracker]:
    - [Py]: the Python values the code passes around (decoded JSON, dicts,
      exceptions, truthiness, [float()], [str()]);
    - [Classifier]: [alerts/classifier.py];
    - [Rules]: [alerts/rules.py];
    - [Engine]: [alerts/engine.py] (deduplication, fingerprint, process_event);
    - [WebSocket]: [core/websocket_client.py] (routing of wallet events, the
      reconnect loop);
    - [RateLimiter]: [utils/rate_limiter.py];
    - [Dispatcher]: [notifications/dispatcher.py];
    - [NotificationFormatter]: [alerts/formatter.py];
    - [Config]: [core/config.py] (the wallet list).

    Conventions.
    - Monetary values and thresholds are Python floats: IEEE binary64, here
      Rocq's primitive floats, with the same rounding.
    - Clock readings are inputs of the functions that read the clock. The
      rules engine stores [time.time()] in the event and compares it with
      other floats, so its reading is a float. The deduplication window, the
      rate limiter and the dispatcher take a reading
      ([datetime.now()], [timedelta.total_seconds()], [time.time()]) by its
      value in seconds, a rational. The deduplication window, the window
      strategies and the retry queue only add and compare readings; the token
      bucket computes in binary64 on the floats of the readings
      ([Py.float_of_Q]), with Python's int or float token count.
    - A string is the UTF-8 text of a Python [str]; [Py.strip] removes the
      white space [str.strip] removes, in that encoding.
    - An int compared with a float goes through [Py.float_of_Z], which is
      exact below 2^53.
    - An [async] function is modelled as one atomic step; what an awaited
      collaborator answers (a channel send primitive, the socket) is an input.
    - Logging is left out. *)

From Stdlib Require Import ZArith QArith List String Ascii Bool Lia Lqa.
From Stdlib Require Import PrimFloat SpecFloat FloatOps FloatAxioms.
From stdpp Require Import base option list strings gmap.

Set Default Proof Using "Type".
Set Warnings "-register-all,-inexact-float".
Local Open Scope string_scope.
Local Open Scope list_scope.
Local Open Scope Z_scope.

(* ================================================================== *)
(** * Python values *)
(* ================================================================== *)

Module Py.

(** Exceptions the modelled code can raise. *)
Inductive exn : Type :=
| TypeError
| ValueError
| OverflowError
| IndexError
| ZeroDivisionError
| KeyError
| AttributeError.

(** A computation that returns or raises. *)
Inductive res (A : Type) : Type :=
| Ok (a : A)
| Raise (e : exn).
Arguments Ok {A} a.
Arguments Raise {A} e.

Definition bind {A B : Type} (m : res A) (f : A -> res B) : res B :=
  match m with
  | Ok a => f a
  | Raise e => Raise e
  end.

(** [try: m  except Exception: d] *)
Definition catch_all {A : Type} (m : res A) (d : A) : A :=
  match m with Ok a => a | Raise _ => d end.

(** A decoded JSON value, or any value an event dict holds. A dict keeps its
    insertion order; its keys are strings. *)
Inductive pyval : Type :=
| PNone
| PBool (b : bool)
| PInt (n : Z)
| PFloat (x : float)
| PStr (s : string)
| PList (l : list pyval)
| PDict (d : list (string * pyval)).

Definition pydict : Type := list (string * pyval).

(** [d[k]] when [k in d]. *)
Fixpoint lookup (k : string) (d : pydict) : option pyval :=
  match d with
  | [] => None
  | (k', v) :: d' => if String.eqb k k' then Some v else lookup k d'
  end.

(** [d.get(k, dflt)] *)
Definition get_default (k : string) (dflt : pyval) (d : pydict) : pyval :=
  match lookup k d with Some v => v | None => dflt end.

(** [d.get(k)] *)
Definition get (k : string) (d : pydict) : pyval := get_default k PNone d.

(** [d[k] = v]: in place when the key exists, appended otherwise. *)
Fixpoint set (k : string) (v : pyval) (d : pydict) : pydict :=
  match d with
  | [] => [(k, v)]
  | (k', v') :: d' =>
      if String.eqb k k' then (k', v) :: d' else (k', v') :: set k v d'
  end.

Definition is_none (v : pyval) : bool :=
  match v with PNone => true | _ => false end.

(** [k in d and d[k] is not None] *)
Definition present (k : string) (d : pydict) : option pyval :=
  match lookup k d with
  | Some v => if is_none v then None else Some v
  | None => None
  end.

(** [bool(v)] *)
Definition truthy (v : pyval) : bool :=
  match v with
  | PNone => false
  | PBool b => b
  | PInt n => negb (n =? 0)
  | PFloat x => negb (PrimFloat.eqb x 0%float)
  | PStr s => negb (String.eqb s "")
  | PList l => match l with [] => false | _ => true end
  | PDict d => match d with [] => false | _ => true end
  end.

(** [a or b] *)
Definition or (a b : pyval) : pyval := if truthy a then a else b.

(** [float(n)] for an int: the nearest binary64, ties to even. *)
Definition float_of_Z (n : Z) : float :=
  SF2Prim (binary_normalize prec emax n 0 false).

(** A Python number: an int or a float. *)
Inductive number : Type :=
| NInt (n : Z)
| NFloat (x : float).

(** [float(n)] where Python converts an int on its own, as in [n + x] for a
    float [x]: OverflowError when the int is beyond the floats. *)
Definition float_of_int (n : Z) : res float :=
  let x := float_of_Z n in
  if PrimFloat.is_infinity x then Raise OverflowError else Ok x.

(** The binary64 nearest to a rational, ties to even: the float a decimal
    literal denotes, and for a rational that is the value of a float, as a
    reading of [time.time()] is, that float. *)
Definition float_of_Q (q : Q) : float :=
  match Qnum q with
  | Z0 => 0%float
  | Zpos n =>
      SF2Prim (SFdiv prec emax (S754_finite false n 0)
                               (S754_finite false (Qden q) 0))
  | Zneg n =>
      SF2Prim (SFdiv prec emax (S754_finite true n 0)
                               (S754_finite false (Qden q) 0))
  end.

(** The value of a float as a rational, in lowest terms. An infinity has
    none: it is given as plus or minus 2^1024, the first power of two beyond
    every float, and a NaN as 0. *)
Definition Q_of_float (x : float) : Q :=
  match Prim2SF x with
  | S754_zero _ => 0%Q
  | S754_finite s m e =>
      let v := if s then Zneg m else Zpos m in
      if 0 <=? e then inject_Z (v * 2 ^ e)
      else Qred (Qmake v (Z.to_pos (2 ^ (- e))))
  | S754_infinity s => inject_Z (if s then - 2 ^ 1024 else 2 ^ 1024)
  | S754_nan => 0%Q
  end.

(** [x < n] for a float and an int: Python compares the two exactly, without
    converting the int. *)
Definition float_ltb_Z (x : float) (n : Z) : bool :=
  match Prim2SF x with
  | S754_nan => false
  | S754_infinity s => s
  | S754_zero _ => 0 <? n
  | S754_finite s m e =>
      let v := if s then Zneg m else Zpos m in
      if 0 <=? e then v * 2 ^ e <? n else v <? n * 2 ^ (- e)
  end.

(** The decimal digits of a natural number, most significant first. *)
Fixpoint digits_of_pos (fuel : nat) (n : Z) (acc : string) : string :=
  match fuel with
  | O => acc
  | S fuel' =>
      let d := String (ascii_of_nat (48 + Z.to_nat (n mod 10))) acc in
      if n <? 10 then d else digits_of_pos fuel' (n / 10) d
  end.

(** [str(n)] for an int. *)
Definition str_of_Z (n : Z) : string :=
  if n <? 0
  then String "-" (digits_of_pos (Z.to_nat (Z.log2 (- n)) + 1) (- n) "")
  else digits_of_pos (Z.to_nat (Z.log2 n) + 1) n "".

(** The builtins whose definition is Python's own: parsing a string as a float
    ([None]: ValueError), and [repr] of a float and of a container. *)
Class Builtins : Type := {
  float_of_str : string -> option float;
  repr_float : float -> string;
  repr_container : pyval -> string
}.

Section WithBuiltins.
Context `{Builtins}.

(** [float(v)] *)
Definition to_float (v : pyval) : res float :=
  match v with
  | PNone => Raise TypeError
  | PBool b => Ok (if b then 1%float else 0%float)
  | PInt n =>
      let x := float_of_Z n in
      if PrimFloat.is_infinity x then Raise OverflowError else Ok x
  | PFloat x => Ok x
  | PStr s =>
      match float_of_str s with
      | Some x => Ok x
      | None => Raise ValueError
      end
  | PList _ | PDict _ => Raise TypeError
  end.

(** [str(v)] *)
Definition str (v : pyval) : string :=
  match v with
  | PNone => "None"
  | PBool true => "True"
  | PBool false => "False"
  | PInt n => str_of_Z n
  | PFloat x => repr_float x
  | PStr s => s
  | PList _ | PDict _ => repr_container v
  end.

(** [try: float(v)  except (ValueError, TypeError): continue]: [None] says
    continue; any other exception propagates. *)
Definition float_or_continue (v : pyval) : res (option float) :=
  match to_float v with
  | Ok x => Ok (Some x)
  | Raise TypeError | Raise ValueError => Ok None
  | Raise e => Raise e
  end.

(** The loop shared by the extractors:
[[
for field in fields:
    if field in event and event[field] is not None:
        try: return float(event[field])
        except (ValueError, TypeError): continue
]]
    [Ok None] when the loop falls through. *)
Fixpoint first_float (fields : list string) (event : pydict)
  : res (option float) :=
  match fields with
  | [] => Ok None
  | f :: rest =>
      match present f event with
      | Some v =>
          match float_or_continue v with
          | Ok (Some x) => Ok (Some x)
          | Ok None => first_float rest event
          | Raise e => Raise e
          end
      | None => first_float rest event
      end
  end.

End WithBuiltins.

(** [v >= c] for a float [c]: numbers compare, anything else is a TypeError. *)
Definition ge_float (v : pyval) (c : float) : res bool :=
  match v with
  | PBool b => Ok (PrimFloat.leb c (if b then 1%float else 0%float))
  | PInt n => Ok (PrimFloat.leb c (float_of_Z n))
  | PFloat x => Ok (PrimFloat.leb c x)
  | _ => Raise TypeError
  end.

(** [a == b] *)
Fixpoint eqb (a b : pyval) {struct a} : bool :=
  match a, b with
  | PNone, PNone => true
  | PStr s, PStr t => String.eqb s t
  | PBool x, PBool y => Bool.eqb x y
  | PBool x, PInt n | PInt n, PBool x => (n =? (if x then 1 else 0))%Z
  | PBool x, PFloat y | PFloat y, PBool x =>
      PrimFloat.eqb y (if x then 1%float else 0%float)
  | PInt n, PInt m => (n =? m)%Z
  | PInt n, PFloat y | PFloat y, PInt n => PrimFloat.eqb (float_of_Z n) y
  | PFloat x, PFloat y => PrimFloat.eqb x y
  | PList l, PList m =>
      (fix all2 (l m : list pyval) {struct l} : bool :=
         match l, m with
         | [], [] => true
         | x :: l', y :: m' => eqb x y && all2 l' m'
         | _, _ => false
         end) l m
  | PDict d, PDict e =>
      (length d =? length e)%nat &&
      (fix sub (d : list (string * pyval)) {struct d} : bool :=
         match d with
         | [] => true
         | (k, v) :: d' =>
             match lookup k e with
             | Some w => eqb v w && sub d'
             | None => false
             end
         end) d
  | _, _ => false
  end.

(** Whether [hash(v)] succeeds: lists and dicts are unhashable. *)
Definition hashable (v : pyval) : bool :=
  match v with PList _ | PDict _ => false | _ => true end.

(** The white space [str.strip()] removes. A string holds a text as its
    UTF-8 bytes. The white-space characters of Python are U+0009..U+000D,
    U+001C..U+0020, U+0085, U+00A0, U+1680, U+2000..U+200A, U+2028, U+2029,
    U+202F, U+205F and U+3000: one byte for the first two ranges, two bytes
    (C2 85, C2 A0) for the next two characters, three bytes (E1 9A 80,
    E2 80 80..8A, E2 80 A8, E2 80 A9, E2 80 AF, E2 81 9F, E3 80 80) for the
    others. *)
Definition is_space (c : ascii) : bool :=
  let n := nat_of_ascii c in
  ((9 <=? n)%nat && (n <=? 13)%nat) || ((28 <=? n)%nat && (n <=? 32)%nat).

Definition is_space2 (c d : ascii) : bool :=
  let d := nat_of_ascii d in
  (nat_of_ascii c =? 194)%nat && ((d =? 133)%nat || (d =? 160)%nat).

Definition is_space3 (c d e : ascii) : bool :=
  let c := nat_of_ascii c in
  let d := nat_of_ascii d in
  let e := nat_of_ascii e in
  ((c =? 225)%nat && (d =? 154)%nat && (e =? 128)%nat)
  || ((c =? 226)%nat && (d =? 128)%nat
      && (((128 <=? e)%nat && (e <=? 138)%nat)
          || (e =? 168)%nat || (e =? 169)%nat || (e =? 175)%nat))
  || ((c =? 226)%nat && (d =? 129)%nat && (e =? 159)%nat)
  || ((c =? 227)%nat && (d =? 128)%nat && (e =? 128)%nat).

(** A string that is exactly one white-space character. *)
Definition is_space_char (s : string) : bool :=
  match s with
  | String c EmptyString => is_space c
  | String c (String d EmptyString) => is_space2 c d
  | String c (String d (String e EmptyString)) => is_space3 c d e
  | _ => false
  end.

(** [s.lstrip()]: the white-space characters at the start are dropped. *)
Fixpoint lstrip (s : string) : string :=
  match s with
  | EmptyString => EmptyString
  | String c s1 =>
      if is_space c then lstrip s1
      else
        match s1 with
        | EmptyString => s
        | String d s2 =>
            if is_space2 c d then lstrip s2
            else
              match s2 with
              | EmptyString => s
              | String e s3 => if is_space3 c d e then lstrip s3 else s
              end
        end
  end.

(** [s.rstrip()]: going from the end, what is left of the string once its
    tail is stripped is dropped too when it is one white-space character. *)
Fixpoint rstrip (s : string) : string :=
  match s with
  | EmptyString => EmptyString
  | String c s' =>
      let t := String c (rstrip s') in
      if is_space_char t then EmptyString else t
  end.

(** [s.strip()] *)
Definition strip (s : string) : string := rstrip (lstrip s).

(** The string starts with a white-space character. *)
Definition starts_with_space (s : string) : bool :=
  match s with
  | EmptyString => false
  | String c s1 =>
      is_space c
      || match s1 with
         | EmptyString => false
         | String d s2 =>
             is_space2 c d
             || match s2 with
                | EmptyString => false
                | String e _ => is_space3 c d e
                end
         end
  end.

(** [sep.join(parts)] *)
Fixpoint join (sep : string) (parts : list string) : string :=
  match parts with
  | [] => ""
  | [p] => p
  | p :: rest => (p ++ sep ++ join sep rest)%string
  end.

End Py.

(* ================================================================== *)
(** * alerts/classifier.py *)
(* ================================================================== *)

Module Classifier.
Import Py.

Inductive PositionSize : Type := WHALE | LARGE | MEDIUM | NOTABLE | SMALL.

(** [core/config.py], [PositionThresholds]. *)
Record PositionThresholds : Type := {
  notable_threshold : float;
  medium_threshold : float;
  large_threshold : float;
  whale_threshold : float
}.

Definition default_thresholds : PositionThresholds :=
  {| notable_threshold := 1000%float;
     medium_threshold := 10000%float;
     large_threshold := 100000%float;
     whale_threshold := 1000000%float |}.

Record PositionAnalysis : Type := {
  size_class : PositionSize;
  usd_value : float;
  confidence : float;
  factors : pydict
}.

Definition usd_fields : list string :=
  ["usd_value"; "usdValue"; "value_usd"; "valueUSD";
   "total_value"; "totalValue"; "amount_usd"; "amountUSD"].

Definition price_fields : list string :=
  ["price"; "limitPx"; "limit_px"; "execution_price"].

Definition size_fields : list string :=
  ["size"; "sz"; "quantity"; "amount"; "volume"].

(** [min(a, b)] and [max(a, b)] of Python: the first of the two unless the
    second is strictly smaller (larger). *)
Definition py_min (a b : float) : float := if PrimFloat.ltb b a then b else a.
Definition py_max (a b : float) : float := if PrimFloat.ltb a b then b else a.

Section WithBuiltins.
Context `{Builtins}.

Definition _extract_price (event : pydict) : res (option float) :=
  first_float price_fields event.

Definition _extract_size (event : pydict) : res (option float) :=
  first_float size_fields event.

Definition _extract_usd_value (event : pydict) : res (option float) :=
  bind (first_float usd_fields event) (fun direct =>
  match direct with
  | Some x => Ok (Some x)
  | None =>
      bind (_extract_price event) (fun price =>
      bind (_extract_size event) (fun size =>
      match price, size with
      | Some p, Some s => Ok (Some (p * s)%float)
      | _, _ => Ok None
      end))
  end).

(** The threshold ladder of [classify_position]. *)
Definition size_of (th : PositionThresholds) (usd : float) : PositionSize :=
  if PrimFloat.leb (whale_threshold th) usd then WHALE
  else if PrimFloat.leb (large_threshold th) usd then LARGE
  else if PrimFloat.leb (medium_threshold th) usd then MEDIUM
  else if PrimFloat.leb (notable_threshold th) usd then NOTABLE
  else SMALL.

Definition classify_position (th : PositionThresholds) (event : pydict)
  : option PositionSize :=
  catch_all
    (bind (_extract_usd_value event) (fun usd =>
     match usd with
     | None => Ok None
     | Some u =>
         if PrimFloat.leb u 0%float then Ok None else Ok (Some (size_of th u))
     end))
    None.

Definition _calculate_confidence (th : PositionThresholds) (event : pydict)
  (usd : float) : res float :=
  bind (_extract_price event) (fun price =>
  bind (match price with
        | None => Ok true
        | Some _ => bind (_extract_size event) (fun size =>
                    Ok (match size with None => true | Some _ => false end))
        end) (fun missing =>
  let c1 := if missing : bool then (1 * 0.8)%float else 1%float in
  let c2 := if PrimFloat.ltb usd 100%float then (c1 * 0.6)%float else c1 in
  let c3 := if PrimFloat.leb (whale_threshold th) usd
            then py_min 1%float (c2 * 1.2)%float else c2 in
  Ok (py_max 0%float (py_min 1%float c3)))).

(** [_analyze_factors]: [market_data.get] exists only on a dict. *)
Definition _analyze_factors (event : pydict) (usd : float) : res pydict :=
  bind (_extract_price event) (fun price =>
  bind (_extract_size event) (fun size =>
  let base : pydict :=
    [("usd_value", PFloat usd);
     ("coin", get_default "coin" (PStr "unknown") event);
     ("side", get_default "side" (PStr "unknown") event);
     ("order_type", get_default "orderType" (PStr "unknown") event);
     ("has_price", PBool (match price with Some _ => true | None => false end));
     ("has_size", PBool (match size with Some _ => true | None => false end))] in
  bind (match lookup "market_data" event with
        | None => Ok base
        | Some (PDict md) =>
            Ok (set "price_change_24h" (get "price_change_24h" md)
               (set "volume_24h" (get "volume_24h" md)
               (set "market_cap" (get "market_cap" md) base)))
        | Some _ => Raise AttributeError
        end) (fun f =>
  match lookup "timestamp" event with
  | Some t => Ok (set "timestamp" t f)
  | None => Ok f
  end))).

(** [analyze_position]; the recommendation text is left out. *)
Definition analyze_position (th : PositionThresholds) (event : pydict)
  : option PositionAnalysis :=
  catch_all
    (bind (_extract_usd_value event) (fun usd =>
     match usd with
     | None => Ok None
     | Some u =>
         if PrimFloat.leb u 0%float then Ok None
         else
           match classify_position th event with
           | None => Ok None
           | Some c =>
               bind (_calculate_confidence th event u) (fun conf =>
               bind (_analyze_factors event u) (fun f =>
               Ok (Some {| size_class := c; usd_value := u;
                           confidence := conf; factors := f |})))
           end
     end))
    None.

End WithBuiltins.

(** [classification_history]: per wallet key, the classes seen. A key is any
    hashable value, compared with [==]. *)
Definition history : Type := list (pyval * list PositionSize).

Fixpoint history_get (w : pyval) (h : history) : option (list PositionSize) :=
  match h with
  | [] => None
  | (w', l) :: h' => if Py.eqb w w' then Some l else history_get w h'
  end.

Fixpoint history_set (w : pyval) (l : list PositionSize) (h : history)
  : history :=
  match h with
  | [] => [(w, l)]
  | (w', l') :: h' =>
      if Py.eqb w w' then (w', l) :: h' else (w', l') :: history_set w l h'
  end.

(** [l[-n:]] for a positive [n] *)
Definition last_n {A : Type} (n : nat) (l : list A) : list A :=
  skipn (length l - n) l.

Definition track_classification (wallet : pyval) (c : PositionSize)
  (h : history) : res history :=
  if hashable wallet then
    let l := match history_get wallet h with Some l => l | None => [] end in
    let l' := l ++ [c] in
    let l'' := if (100 <? length l')%nat then last_n 100 l' else l' in
    Ok (history_set wallet l'' h)
  else Raise TypeError.

(** Thresholds whose ordering whale > large > medium > notable holds. *)
Definition ordered (th : PositionThresholds) : bool :=
  PrimFloat.ltb (notable_threshold th) (medium_threshold th)
  && PrimFloat.ltb (medium_threshold th) (large_threshold th)
  && PrimFloat.ltb (large_threshold th) (whale_threshold th).

(** The classes from the smallest to the largest. *)
Definition rank (c : PositionSize) : nat :=
  match c with
  | SMALL => 0 | NOTABLE => 1 | MEDIUM => 2 | LARGE => 3 | WHALE => 4
  end.

End Classifier.

(* ================================================================== *)
(** * alerts/rules.py *)
(* ================================================================== *)

Module Rules.
Import Py.

Inductive AlertCondition : Type :=
| POSITION_SIZE
| VOLUME_THRESHOLD
| PRICE_CHANGE
| FREQUENCY
| CUSTOM.

Inductive AlertSeverity : Type := CRITICAL | HIGH | SEV_MEDIUM | LOW | INFO.

Record AlertRule : Type := {
  name : string;
  condition : AlertCondition;
  severity : AlertSeverity;
  enabled : bool;
  threshold : option float;
  time_window : option Z;
  custom_condition : option (pydict -> res pyval)
}.

Definition position_rule (n : string) (sev : AlertSeverity) (th : float)
  : AlertRule :=
  {| name := n; condition := POSITION_SIZE; severity := sev; enabled := true;
     threshold := Some th; time_window := None; custom_condition := None |}.

Definition whale_position : AlertRule :=
  position_rule "whale_position" CRITICAL 1000000%float.
Definition large_position : AlertRule :=
  position_rule "large_position" HIGH 100000%float.
Definition medium_position : AlertRule :=
  position_rule "medium_position" SEV_MEDIUM 10000%float.
Definition notable_position : AlertRule :=
  position_rule "notable_position" LOW 1000%float.
Definition high_frequency_trading : AlertRule :=
  {| name := "high_frequency_trading"; condition := FREQUENCY;
     severity := SEV_MEDIUM; enabled := true; threshold := Some 10%float;
     time_window := Some 60; custom_condition := None |}.
Definition unusual_volume : AlertRule :=
  {| name := "unusual_volume"; condition := VOLUME_THRESHOLD;
     severity := HIGH; enabled := true; threshold := Some 50000%float;
     time_window := Some 300; custom_condition := None |}.

Definition DEFAULT_RULES : list AlertRule :=
  [whale_position; large_position; medium_position; notable_position;
   high_frequency_trading; unusual_volume].

Record RuleStats : Type := {
  triggered_count : Z;
  last_triggered : option float;
  total_events : Z;
  success_rate : float
}.

Definition fresh_stats : RuleStats :=
  {| triggered_count := 0; last_triggered := None; total_events := 0;
     success_rate := 0%float |}.

Record RulesEngine : Type := {
  rules : list AlertRule;
  rule_stats : gmap string RuleStats;
  event_history : list pydict
}.

Definition max_history_size : nat := 1000.

(** [RulesEngine(rules)]; an empty or missing list gives the default rules. *)
Definition init (rs : list AlertRule) : RulesEngine :=
  let rs' := match rs with [] => DEFAULT_RULES | _ => rs end in
  {| rules := rs';
     rule_stats :=
       fold_left (fun m r => <[name r := fresh_stats]> m) rs' ∅;
     event_history := [] |}.

Definition usd_fields : list string :=
  ["usd_value"; "usdValue"; "value_usd"; "valueUSD";
   "total_value"; "totalValue"; "amount_usd"; "amountUSD"].

Section WithBuiltins.
Context `{Builtins}.

(** The price and the size the rules engine reads:
    [event.get(a) or event.get(b) or event.get(c)]. *)
Definition event_price (event : pydict) : pyval :=
  Py.or (get "price" event) (Py.or (get "limitPx" event) (get "limit_px" event)).

Definition event_size (event : pydict) : pyval :=
  Py.or (get "size" event) (Py.or (get "sz" event) (get "quantity" event)).

Definition _extract_usd_value (event : pydict) : res (option float) :=
  bind (first_float usd_fields event) (fun direct =>
  match direct with
  | Some x => Ok (Some x)
  | None =>
      let price := event_price event in
      let size := event_size event in
      if is_none price || is_none size then Ok None
      else
        bind (float_or_continue price) (fun p =>
        match p with
        | None => Ok None
        | Some p =>
            bind (float_or_continue size) (fun s =>
            match s with
            | None => Ok None
            | Some s => Ok (Some (p * s)%float)
            end)
        end)
  end).

Definition _evaluate_position_size (rule : AlertRule) (event : pydict)
  : res bool :=
  match threshold rule with
  | None => Ok false
  | Some th =>
      bind (_extract_usd_value event) (fun usd =>
      match usd with
      | None => Ok false
      | Some u => Ok (PrimFloat.leb th u)
      end)
  end.

(** [[e for e in history if keep(e)]], where [keep] can raise. *)
Fixpoint filter_res {A : Type} (keep : A -> res bool) (l : list A)
  : res (list A) :=
  match l with
  | [] => Ok []
  | x :: l' =>
      bind (keep x) (fun b =>
      bind (filter_res keep l') (fun r =>
      Ok (if b : bool then x :: r else r)))
  end.

(** [sum(self._extract_usd_value(e) or 0 for e in events)] *)
Fixpoint total_volume (acc : float) (events : list pydict) : res float :=
  match events with
  | [] => Ok acc
  | e :: rest =>
      bind (_extract_usd_value e) (fun usd =>
      let v := match usd with
               | Some u => if PrimFloat.eqb u 0%float then 0%float else u
               | None => 0%float
               end in
      total_volume (acc + v)%float rest)
  end.

Definition _evaluate_volume_threshold (now : float) (history : list pydict)
  (rule : AlertRule) (event : pydict) : res bool :=
  match threshold rule, time_window rule with
  | Some th, Some w =>
      let cutoff := (now - float_of_Z w)%float in
      bind (filter_res (fun e => ge_float (get_default "timestamp" (PInt 0) e) cutoff)
                       history) (fun recent =>
      bind (total_volume 0%float recent) (fun total =>
      Ok (PrimFloat.leb th total)))
  | _, _ => Ok false
  end.

Definition _evaluate_price_change (rule : AlertRule) (event : pydict)
  : res bool := Ok false.

Definition _evaluate_frequency (now : float) (history : list pydict)
  (rule : AlertRule) (event : pydict) : res bool :=
  match threshold rule, time_window rule with
  | Some th, Some w =>
      let wallet := get "wallet" event in
      if truthy wallet then
        let cutoff := (now - float_of_Z w)%float in
        bind (filter_res
                (fun e =>
                   if Py.eqb (get "wallet" e) wallet
                   then ge_float (get_default "timestamp" (PInt 0) e) cutoff
                   else Ok false)
                history) (fun recent =>
        Ok (PrimFloat.leb th (float_of_Z (Z.of_nat (length recent)))))
      else Ok false
  | _, _ => Ok false
  end.

(** [_evaluate_custom]: the predicate's exceptions are caught; what it returns
    is handed back as it is, and the caller tests its truth. *)
Definition _evaluate_custom (rule : AlertRule) (event : pydict) : res bool :=
  match custom_condition rule with
  | None => Ok false
  | Some f => Ok (match f event with Ok v => truthy v | Raise _ => false end)
  end.

Definition _evaluate_rule (now : float) (history : list pydict)
  (rule : AlertRule) (event : pydict) : res bool :=
  match condition rule with
  | POSITION_SIZE => _evaluate_position_size rule event
  | VOLUME_THRESHOLD => _evaluate_volume_threshold now history rule event
  | PRICE_CHANGE => _evaluate_price_change rule event
  | FREQUENCY => _evaluate_frequency now history rule event
  | CUSTOM => _evaluate_custom rule event
  end.

End WithBuiltins.

(** [_add_to_history]: stamps the event when it has no timestamp (the dict is
    mutated, so the caller's event carries the stamp afterwards), appends it,
    and keeps the last [max_history_size] events. *)
Definition stamp (now : float) (event : pydict) : pydict :=
  match lookup "timestamp" event with
  | Some _ => event
  | None => set "timestamp" (PFloat now) event
  end.

Definition _add_to_history (now : float) (event : pydict)
  (history : list pydict) : list pydict :=
  let h := history ++ [stamp now event] in
  if (max_history_size <? length h)%nat
  then Classifier.last_n max_history_size h else h.

(** [_update_rule_stats]; [rule_stats[rule.name]] raises KeyError for a rule
    without statistics. *)
Definition _update_rule_stats (now : float) (rule : AlertRule)
  (triggered : bool) (stats : gmap string RuleStats)
  : res (gmap string RuleStats) :=
  match stats !! name rule with
  | None => Raise KeyError
  | Some s =>
      let total := total_events s + 1 in
      let count := if triggered then triggered_count s + 1
                   else triggered_count s in
      let s' :=
        {| triggered_count := count;
           last_triggered := if triggered then Some now else last_triggered s;
           total_events := total;
           success_rate :=
             if 0 <? total
             then (float_of_Z count / float_of_Z total)%float
             else success_rate s |} in
      Ok (<[name rule := s']> stats)
  end.

Section WithBuiltins.
Context `{Builtins}.

(** The loop of [evaluate_event] over the rules, on the history the event was
    added to: the rules that fired so far, and the statistics, which keep the
    updates made before an exception. *)
Fixpoint evaluate_rules (now : float) (history : list pydict)
  (event : pydict) (rs : list AlertRule) (stats : gmap string RuleStats)
  (fired : list AlertRule) : res (list AlertRule) * gmap string RuleStats :=
  match rs with
  | [] => (Ok fired, stats)
  | rule :: rest =>
      if enabled rule then
        let hit := match _evaluate_rule now history rule event with
                   | Ok b => b
                   | Raise _ => false
                   end in
        match _update_rule_stats now rule hit stats with
        | Ok stats' =>
            evaluate_rules now history event rest stats'
              (if hit then fired ++ [rule] else fired)
        | Raise e => (Raise e, stats)
        end
      else evaluate_rules now history event rest stats fired
  end.

(** [evaluate_event]: the engine after the call, the stamped event (the
    caller's dict is the one mutated) and the rules that fired. *)
Definition evaluate_event (now : float) (event : pydict) (eng : RulesEngine)
  : res (list AlertRule) * RulesEngine * pydict :=
  let event' := stamp now event in
  let history := _add_to_history now event (event_history eng) in
  let '(fired, stats) :=
    evaluate_rules now history event' (rules eng) (rule_stats eng) [] in
  (fired,
   {| rules := rules eng; rule_stats := stats; event_history := history |},
   event').

End WithBuiltins.

Definition add_rule (rule : AlertRule) (eng : RulesEngine) : RulesEngine :=
  {| rules := rules eng ++ [rule];
     rule_stats := <[name rule := fresh_stats]> (rule_stats eng);
     event_history := event_history eng |}.

Definition remove_rule (rule_name : string) (eng : RulesEngine)
  : RulesEngine :=
  {| rules := List.filter (fun r => negb (String.eqb (name r) rule_name))
                          (rules eng);
     rule_stats := delete rule_name (rule_stats eng);
     event_history := event_history eng |}.

Section Vocabulary.
Context `{Builtins}.

(** A field that gives the extractors no number: missing, null, or holding a
    value [float()] rejects with a ValueError or a TypeError. *)
Definition no_number (ev : pydict) (f : string) : Prop :=
  match present f ev with
  | None => True
  | Some w => to_float w = Raise TypeError \/ to_float w = Raise ValueError
  end.

(** The event carries the USD value [v], as the rules engine reads events:
    directly, in the first recognized usd field that holds a number; or, when
    no usd field holds one, as price times size, for the price and the size
    the engine reads. *)
Inductive carries_usd (ev : pydict) : float -> Prop :=
| carries_direct (before after : list string) (f : string) (w : pyval)
    (v : float) :
    usd_fields = before ++ f :: after ->
    Forall (no_number ev) before ->
    present f ev = Some w ->
    to_float w = Ok v ->
    carries_usd ev v
| carries_derived (p s : float) :
    Forall (no_number ev) usd_fields ->
    is_none (event_price ev) = false ->
    is_none (event_size ev) = false ->
    to_float (event_price ev) = Ok p ->
    to_float (event_size ev) = Ok s ->
    carries_usd ev (p * s)%float.

(** Whether a rule fires in [evaluate_event]: its evaluation returns True. *)
Definition hit (now : float) (history : list pydict) (ev : pydict)
  (r : AlertRule) : bool :=
  match _evaluate_rule now history r ev with Ok b => b | Raise _ => false end.

End Vocabulary.

(** [enable_rule] and [disable_rule]: the first rule of that name gets its
    [enabled] flag set; the loop stops there. *)
Definition with_enabled (b : bool) (r : AlertRule) : AlertRule :=
  {| name := name r; condition := condition r; severity := severity r;
     enabled := b; threshold := threshold r; time_window := time_window r;
     custom_condition := custom_condition r |}.

Fixpoint set_enabled (b : bool) (rule_name : string) (rs : list AlertRule)
  : list AlertRule :=
  match rs with
  | [] => []
  | r :: rest =>
      if String.eqb (name r) rule_name then with_enabled b r :: rest
      else r :: set_enabled b rule_name rest
  end.

Definition enable_rule (rule_name : string) (eng : RulesEngine)
  : RulesEngine :=
  {| rules := set_enabled true rule_name (rules eng);
     rule_stats := rule_stats eng;
     event_history := event_history eng |}.

Definition disable_rule (rule_name : string) (eng : RulesEngine)
  : RulesEngine :=
  {| rules := set_enabled false rule_name (rules eng);
     rule_stats := rule_stats eng;
     event_history := event_history eng |}.

Section Reachable.
Context `{Builtins}.

(** The engines a program gets by building one and calling its methods. *)
Inductive reachable : RulesEngine -> Prop :=
| reach_init (rs : list AlertRule) : reachable (init rs)
| reach_add (r : AlertRule) (eng : RulesEngine) :
    reachable eng -> reachable (add_rule r eng)
| reach_remove (n : string) (eng : RulesEngine) :
    reachable eng -> reachable (remove_rule n eng)
| reach_enable (n : string) (eng : RulesEngine) :
    reachable eng -> reachable (enable_rule n eng)
| reach_disable (n : string) (eng : RulesEngine) :
    reachable eng -> reachable (disable_rule n eng)
| reach_event (now : float) (ev : pydict) (eng : RulesEngine) :
    reachable eng -> reachable (snd (fst (evaluate_event now ev eng))).

End Reachable.

(** Every rule of the engine has its entry in [rule_stats]. *)
Definition covered (eng : RulesEngine) : Prop :=
  Forall (fun r => is_Some (rule_stats eng !! name r)) (rules eng).

(** How many of the rules carry the name. *)
Definition named (n : string) (rs : list AlertRule) : Z :=
  Z.of_nat (length (List.filter (fun r => String.eqb (name r) n) rs)).

End Rules.

(* ================================================================== *)
(** * alerts/engine.py *)
(* ================================================================== *)

(** Strict order on clock readings, as a test. *)
Definition Qltb (x y : Q) : bool := negb (Qle_bool y x).

Module Engine.
Import Py.

(** [alerts/formatter.py], [NotificationContext]. *)
Record NotificationContext : Type := {
  wallet : pyval;
  event_type : pyval;
  position_size : option Classifier.PositionSize;
  usd_value : option float;
  coin : pyval;
  side : pyval;
  timestamp : Q;
  additional_data : pydict
}.

(** The notification formatter is a collaborator: per channel, the content it
    builds for a context and an event, or the exception it raises. *)
Class Formatter : Type := {
  format_channel : string -> NotificationContext -> pydict -> res pyval
}.

Definition channel_names : list string :=
  ["discord"; "telegram"; "email"; "webhook"].

Record Notification : Type := {
  rule_name : string;
  rule_severity : Rules.AlertSeverity;
  context : NotificationContext;
  event : pydict;
  formatted : list (string * pyval)
}.

Record EngineStats : Type := {
  events_processed : Z;
  alerts_triggered : Z;
  notifications_sent : Z;
  errors : Z
}.

Record PositionClassifier : Type := {
  thresholds : Classifier.PositionThresholds;
  classification_history : Classifier.history
}.

(** The engine, with one ghost field: [evaluated] logs, oldest first, the
    events handed to [RulesEngine.evaluate_event]. *)
Record AlertEngine : Type := {
  rules_engine : Rules.RulesEngine;
  position_classifier : option PositionClassifier;
  stats : EngineStats;
  recent_events : gmap string Q;
  dedup_window_seconds : Q;
  evaluated : list pydict
}.

Definition init (rules : list Rules.AlertRule)
  (classifier : option Classifier.PositionThresholds) : AlertEngine :=
  {| rules_engine := Rules.init rules;
     position_classifier :=
       match classifier with
       | Some th => Some {| thresholds := th; classification_history := [] |}
       | None => None
       end;
     stats := {| events_processed := 0; alerts_triggered := 0;
                 notifications_sent := 0; errors := 0 |};
     recent_events := ∅;
     dedup_window_seconds := 30;
     evaluated := [] |}.

Section WithBuiltins.
Context `{Builtins}.

(** The seven entries of [key_fields]. *)
Definition key_fields (ev : pydict) : list pyval :=
  [get "type" ev; get "wallet" ev; get "coin" ev; get "side" ev;
   PStr (str (get_default "usd_value" (PStr "") ev));
   PStr (str (get_default "size" (PStr "") ev));
   PStr (str (get_default "price" (PStr "") ev))].

(** ["|".join(str(field) for field in key_fields if field is not None)] *)
Definition _create_event_fingerprint (ev : pydict) : string :=
  join "|" (map str (List.filter (fun v => negb (is_none v)) (key_fields ev))).

(** [_is_duplicate_event] at clock reading [now]: the answer and the table of
    recent events afterwards. *)
Definition _is_duplicate_event (now : Q) (ev : pydict) (window : Q)
  (recent : gmap string Q) : bool * gmap string Q :=
  let fingerprint := _create_event_fingerprint ev in
  let seen_recently :=
    match recent !! fingerprint with
    | Some last_seen => Qltb (now - last_seen) window
    | None => false
    end in
  if seen_recently then (true, recent)
  else
    let recent' := <[fingerprint := now]> recent in
    let cutoff := (now - window * 2)%Q in
    (false, filter (fun kv : string * Q => Qltb cutoff (snd kv) = true) recent').

Context `{Formatter}.

(** [_create_notification]: [None] when the formatter raises. *)
Definition _create_notification (now : Q) (ev : pydict)
  (rule : Rules.AlertRule) (analysis : option Classifier.PositionAnalysis)
  : option Notification :=
  let ctx :=
    {| wallet := get_default "wallet" (PStr "unknown") ev;
       event_type := get_default "type" (PStr "unknown") ev;
       position_size := option_map Classifier.size_class analysis;
       usd_value := option_map Classifier.usd_value analysis;
       coin := get "coin" ev;
       side := get "side" ev;
       timestamp := now;
       additional_data := ev |} in
  let fix build (chs : list string) : res (list (string * pyval)) :=
    match chs with
    | [] => Ok []
    | ch :: rest =>
        bind (format_channel ch ctx ev) (fun c =>
        bind (build rest) (fun r => Ok ((ch, c) :: r)))
    end in
  match build channel_names with
  | Ok f =>
      Some {| rule_name := Rules.name rule;
              rule_severity := Rules.severity rule;
              context := ctx; event := ev; formatted := f |}
  | Raise _ => None
  end.

(** [metrics_collector.record_event_processed] slices the wallet
    ([wallet[:8] + "..."]): a TypeError unless it is a string. *)
Definition record_event_processed (ev : pydict) : res unit :=
  match get_default "wallet" (PStr "unknown") ev with
  | PStr _ => Ok tt
  | _ => Raise TypeError
  end.

Definition bump_errors (s : EngineStats) : EngineStats :=
  {| events_processed := events_processed s;
     alerts_triggered := alerts_triggered s;
     notifications_sent := notifications_sent s;
     errors := errors s + 1 |}.

(** The [except Exception] clause of [process_event]: counts the error and
    records the metric, which can raise in its turn. *)
Definition on_error (ev : pydict) (eng : AlertEngine)
  : res (list Notification) * AlertEngine :=
  (bind (record_event_processed ev) (fun _ => Ok []),
   {| rules_engine := rules_engine eng;
      position_classifier := position_classifier eng;
      stats := bump_errors (stats eng);
      recent_events := recent_events eng;
      dedup_window_seconds := dedup_window_seconds eng;
      evaluated := evaluated eng |}).

(** [process_event] at clock readings [now] (the datetime) and [now_ts] (its
    float timestamp): the notifications returned, or the exception that
    escapes, and the engine afterwards. *)
Definition process_event (now : Q) (now_ts : float) (ev : pydict)
  (eng : AlertEngine) : res (list Notification) * AlertEngine :=
  let stats1 :=
    {| events_processed := events_processed (stats eng) + 1;
       alerts_triggered := alerts_triggered (stats eng);
       notifications_sent := notifications_sent (stats eng);
       errors := errors (stats eng) |} in
  let '(dup, recent) :=
    _is_duplicate_event now ev (dedup_window_seconds eng) (recent_events eng) in
  let eng1 :=
    {| rules_engine := rules_engine eng;
       position_classifier := position_classifier eng;
       stats := stats1;
       recent_events := recent;
       dedup_window_seconds := dedup_window_seconds eng;
       evaluated := evaluated eng |} in
  if dup then (Ok [], eng1)
  else
    let analysis :=
      match position_classifier eng with
      | Some pc => Classifier.analyze_position (thresholds pc) ev
      | None => None
      end in
    let tracked : res (option PositionClassifier) :=
      match position_classifier eng, analysis with
      | Some pc, Some a =>
          bind (Classifier.track_classification
                  (get_default "wallet" (PStr "unknown") ev)
                  (Classifier.size_class a) (classification_history pc))
               (fun h => Ok (Some {| thresholds := thresholds pc;
                                     classification_history := h |}))
      | pc, _ => Ok pc
      end in
    match tracked with
    | Raise _ => on_error ev eng1
    | Ok pc' =>
        let '(fired, rules', ev') :=
          Rules.evaluate_event now_ts ev (rules_engine eng) in
        let eng2 :=
          {| rules_engine := rules';
             position_classifier := pc';
             stats := stats1;
             recent_events := recent;
             dedup_window_seconds := dedup_window_seconds eng;
             evaluated := evaluated eng ++ [ev] |} in
        match fired with
        | Raise _ => on_error ev' eng2
        | Ok [] => (Ok [], eng2)
        | Ok triggered =>
            let notifications :=
              omap (fun rule => _create_notification now ev' rule analysis)
                   triggered in
            let eng3 :=
              {| rules_engine := rules';
                 position_classifier := pc';
                 stats :=
                   {| events_processed := events_processed stats1;
                      alerts_triggered :=
                        alerts_triggered stats1 + Z.of_nat (length triggered);
                      notifications_sent :=
                        notifications_sent stats1
                        + Z.of_nat (length notifications);
                      errors := errors stats1 |};
                 recent_events := recent;
                 dedup_window_seconds := dedup_window_seconds eng;
                 evaluated := evaluated eng ++ [ev] |} in
            match record_event_processed ev' with
            | Ok _ => (Ok notifications, eng3)
            | Raise _ => on_error ev' eng3
            end
        end
    end.

End WithBuiltins.

Section Vocabulary.
Context `{Builtins}.

(** How the fingerprint renders each of its seven fields. The first four
    (kind, account, coin, side) are left out when missing or null, and
    rendered by [str] otherwise; the last three (usd_value, size, price) are
    always rendered, a missing one as the empty string. *)
Definition rendered_key (k : string) (ev : pydict) : option string :=
  match present k ev with
  | Some v => Some (str v)
  | None => None
  end.

Definition rendered_number (k : string) (ev : pydict) : string :=
  str (get_default k (PStr "") ev).

Definition rendering (ev : pydict) : list (option string) :=
  [rendered_key "type" ev; rendered_key "wallet" ev; rendered_key "coin" ev;
   rendered_key "side" ev; Some (rendered_number "usd_value" ev);
   Some (rendered_number "size" ev); Some (rendered_number "price" ev)].

(** The entries that are rendered, in order. *)
Fixpoint somes {A : Type} (l : list (option A)) : list A :=
  match l with
  | [] => []
  | Some x :: l' => x :: somes l'
  | None :: l' => somes l'
  end.

(** What [str(field) for field in ... if field is not None] gives for one
    field. *)
Definition piece (v : pyval) : list string :=
  if is_none v then [] else [str v].

Context `{Formatter}.

(** The engine over a sequence of events, each with the clock readings of its
    processing: per event, what [process_event] returned and whether the
    event was handed to the rules engine; and the engine afterwards. *)
Fixpoint run_events (trace : list (Q * float * pydict)) (eng : AlertEngine)
  : list (res (list Notification) * bool) * AlertEngine :=
  match trace with
  | [] => ([], eng)
  | (now, now_ts, ev) :: rest =>
      let '(r, eng') := process_event now now_ts ev eng in
      let reached :=
        (length (evaluated eng) <? length (evaluated eng'))%nat in
      let '(rs, eng'') := run_events rest eng' in
      ((r, reached) :: rs, eng'')
  end.

End Vocabulary.

(** Clock readings that never go back. *)
Definition nondecreasing (times : list Q) : Prop :=
  forall (a b : nat) (x y : Q),
    (a <= b)%nat -> times !! a = Some x -> times !! b = Some y -> (x <= y)%Q.

(** The table of recent events remembers the fingerprint since a reading. *)
Definition remembers (eng : AlertEngine) (fp : string) (since : Q) : Prop :=
  exists last_seen : Q,
    recent_events eng !! fp = Some last_seen /\ (since <= last_seen)%Q.

End Engine.

(* ================================================================== *)
(** * core/websocket_client.py *)
(* ================================================================== *)

Module WebSocket.
Import Py.

Record ConnectionStats : Type := {
  connected : bool;
  total_messages : Z;
  successful_parses : Z;
  failed_parses : Z;
  reconnect_count : Z;
  wallet_events : gmap string Z;
  consecutive_failures : Z
}.

Record WebSocketClient : Type := {
  watched_wallets : list string;
  stats : ConnectionStats;
  is_shutting_down : bool;
  (** ghost: the events handed to the event handler, oldest first *)
  emitted : list pydict
}.

Definition init (watched : list string) : WebSocketClient :=
  {| watched_wallets := watched;
     stats := {| connected := false; total_messages := 0;
                 successful_parses := 0; failed_parses := 0;
                 reconnect_count := 0;
                 wallet_events :=
                   fold_left (fun m w => <[w := 0]> m) watched ∅;
                 consecutive_failures := 0 |};
     is_shutting_down := false;
     emitted := [] |}.

Definition with_stats (s : ConnectionStats) (c : WebSocketClient)
  : WebSocketClient :=
  {| watched_wallets := watched_wallets c; stats := s;
     is_shutting_down := is_shutting_down c; emitted := emitted c |}.

Definition set_failures (n : Z) (isconn : bool) (s : ConnectionStats)
  : ConnectionStats :=
  {| connected := isconn; total_messages := total_messages s;
     successful_parses := successful_parses s;
     failed_parses := failed_parses s;
     reconnect_count := reconnect_count s;
     wallet_events := wallet_events s;
     consecutive_failures := n |}.

(** [connect]; [ok] says whether [websockets.connect] returned. *)
Definition connect (ok : bool) (s : ConnectionStats) : bool * ConnectionStats :=
  if ok then
    (true,
     {| connected := true; total_messages := total_messages s;
        successful_parses := successful_parses s;
        failed_parses := failed_parses s;
        reconnect_count := reconnect_count s + 1;
        wallet_events := wallet_events s;
        consecutive_failures := 0 |})
  else
    (false, set_failures (consecutive_failures s + 1) false s).

Definition wallet_fields : list string :=
  ["user"; "wallet"; "address"; "account"; "from"; "to"; "owner"; "trader";
   "userAddress"].

Definition sentinels : list string :=
  ["unknown"; "multiple_wallets"; "0x0"; "null"].

Definition in_strings (s : string) (l : list string) : bool :=
  existsb (String.eqb s) l.

Section WithBuiltins.
Context `{Builtins}.

(** [check_dict_for_wallet] *)
Definition check_dict_for_wallet (data : pyval) : option string :=
  match data with
  | PDict d =>
      (fix scan (fields : list string) : option string :=
         match fields with
         | [] => None
         | f :: rest =>
             match lookup f d with
             | Some v =>
                 if truthy v then
                   let w := strip (str v) in
                   if negb (String.eqb w "") && negb (in_strings w sentinels)
                   then Some w else scan rest
                 else scan rest
             | None => scan rest
             end
         end) wallet_fields
  | _ => None
  end.

Definition nonempty (w : option string) : bool :=
  match w with Some s => negb (String.eqb s "") | None => false end.

Definition _extract_wallet_from_event (event_data : pyval) (raw_event : pydict)
  : option string :=
  let wallet := check_dict_for_wallet (PDict raw_event) in
  if nonempty wallet then wallet
  else
    match event_data with
    | PList (first :: _) => check_dict_for_wallet first
    | PDict d =>
        let wallet := check_dict_for_wallet event_data in
        if nonempty wallet then wallet
        else
          let nested := get "data" d in
          if truthy nested then check_dict_for_wallet nested else wallet
    | _ => wallet
    end.

(** The wallet [_handle_wallet_event] resolves:
    [raw.get("user") or raw.get("wallet") or self._extract_wallet_from_event(..)] *)
Definition resolve_wallet (raw_event : pydict) : pyval :=
  Py.or (get "user" raw_event)
    (Py.or (get "wallet" raw_event)
       (match _extract_wallet_from_event (get "data" raw_event) raw_event with
        | Some w => PStr w
        | None => PNone
        end)).

(** [wallet in self.config.watched_wallets], a list of strings. *)
Definition watched (wallet : pyval) (watched_wallets : list string) : bool :=
  match wallet with
  | PStr w => in_strings w watched_wallets
  | _ => false
  end.

(** The event dict [_process_single_event] builds. *)
Definition make_event (channel : string) (wallet : pyval) (now_iso : string)
  (event_data : pyval) : pydict :=
  [("type", PStr channel); ("wallet", wallet); ("data", event_data);
   ("timestamp", PStr now_iso); ("raw", event_data)].

(** [_process_single_event]; [handler_ok] says whether the event handler
    returned for this event. *)
Definition _process_single_event (handler_ok : pydict -> bool)
  (now_iso : string) (event_data : pyval) (channel : string) (wallet : pyval)
  (c : WebSocketClient) : WebSocketClient :=
  match event_data with
  | PDict _ =>
      let ev := make_event channel wallet now_iso event_data in
      let s := stats c in
      {| watched_wallets := watched_wallets c;
         stats :=
           {| connected := connected s; total_messages := total_messages s;
              successful_parses := successful_parses s + 1;
              failed_parses :=
                if handler_ok ev then failed_parses s else failed_parses s + 1;
              reconnect_count := reconnect_count s;
              wallet_events := wallet_events s;
              consecutive_failures := consecutive_failures s |};
         is_shutting_down := is_shutting_down c;
         emitted := emitted c ++ [ev] |}
  | _ => c
  end.

Definition count_wallet_event (wallet : pyval) (s : ConnectionStats)
  : ConnectionStats :=
  match wallet with
  | PStr w =>
      match wallet_events s !! w with
      | Some n =>
          {| connected := connected s; total_messages := total_messages s;
             successful_parses := successful_parses s;
             failed_parses := failed_parses s;
             reconnect_count := reconnect_count s;
             wallet_events := <[w := n + 1]> (wallet_events s);
             consecutive_failures := consecutive_failures s |}
      | None => s
      end
  | _ => s
  end.

(** [_handle_wallet_event] *)
Definition _handle_wallet_event (handler_ok : pydict -> bool)
  (now_iso : string) (raw_event : pydict) (channel : string)
  (c : WebSocketClient) : WebSocketClient :=
  let event_data := get "data" raw_event in
  let wallet := resolve_wallet raw_event in
  if negb (truthy wallet) || negb (watched wallet (watched_wallets c)) then c
  else
    let c1 := with_stats (count_wallet_event wallet (stats c)) c in
    match event_data with
    | PList l =>
        fold_left
          (fun acc single =>
             _process_single_event handler_ok now_iso single channel wallet acc)
          l c1
    | PDict _ =>
        _process_single_event handler_ok now_iso event_data channel wallet c1
    | _ => c1
    end.

Definition event_channels : list string :=
  ["userFills"; "userEvents"; "orderUpdates"].

(** [handle_message]; [parsed] is what [json.loads] returned, [None] when it
    raised. Every exception is caught and logged. *)
Definition handle_message (handler_ok : pydict -> bool) (now_iso : string)
  (parsed : option pyval) (c : WebSocketClient) : WebSocketClient :=
  let s := stats c in
  let c1 :=
    with_stats
      {| connected := connected s; total_messages := total_messages s + 1;
         successful_parses := successful_parses s;
         failed_parses := failed_parses s;
         reconnect_count := reconnect_count s;
         wallet_events := wallet_events s;
         consecutive_failures := consecutive_failures s |} c in
  match parsed with
  | Some (PDict raw_event) =>
      match get_default "channel" (PStr "unknown") raw_event with
      | PStr channel =>
          if in_strings channel event_channels
          then _handle_wallet_event handler_ok now_iso raw_event channel c1
          else c1
      | _ => c1
      end
  | _ => c1
  end.

End WithBuiltins.

(** [connection_monitor], from the results of the health checks made while
    the session lasted: the failure count it leaves. It stops after the
    check that brings the count to 2. *)
Fixpoint connection_monitor (checks : list bool) (failures : Z) : Z :=
  match checks with
  | [] => failures
  | true :: rest => connection_monitor rest 0
  | false :: rest =>
      let f := failures + 1 in
      if 2 <=? f then f else connection_monitor rest f
  end.

(** The progressive backoff at the end of an iteration of [run]. *)
Definition reconnect_delay (failures : Z) : Z :=
  if failures <=? 3 then 2
  else if failures <=? 10 then 5
  else Z.min 30 failures.

(** What happens in one iteration of the loop of [run]. *)
Inductive attempt : Type :=
| ConnectFailed
    (** [connect] returned False *)
| SubscribeFailed (checks : list bool)
    (** connected, no subscription succeeded: [continue] *)
| StreamEnded (frames : list (option pyval)) (checks : list bool)
    (** the message loop ended without an exception *)
| StreamError (frames : list (option pyval)) (checks : list bool).
    (** the message loop raised (ConnectionClosed or any other exception) *)

Section WithBuiltins.
Context `{Builtins}.

Definition handle_frames (handler_ok : pydict -> bool) (now_iso : string)
  (frames : list (option pyval)) (c : WebSocketClient) : WebSocketClient :=
  fold_left (fun acc m => handle_message handler_ok now_iso m acc) frames c.

(** One iteration of [while not self.is_shutting_down] in [run]: the client
    afterwards and the delay slept before the next iteration ([None]: the
    iteration ends in [continue], or the client is shutting down). *)
Definition run_iteration (handler_ok : pydict -> bool) (now_iso : string)
  (a : attempt) (c : WebSocketClient) : WebSocketClient * option Z :=
  let finish (skip : bool) (c' : WebSocketClient) :=
    let c'' := with_stats (set_failures (consecutive_failures (stats c'))
                                        false (stats c')) c' in
    (c'',
     if skip || is_shutting_down c'' then None
     else Some (reconnect_delay (consecutive_failures (stats c'')))) in
  let monitored (checks : list bool) (c' : WebSocketClient) :=
    with_stats
      (set_failures (connection_monitor checks (consecutive_failures (stats c')))
                    (connected (stats c')) (stats c')) c' in
  match a with
  | ConnectFailed => finish false (with_stats (snd (connect false (stats c))) c)
  | SubscribeFailed checks =>
      finish true (monitored checks (with_stats (snd (connect true (stats c))) c))
  | StreamEnded frames checks =>
      finish false
        (monitored checks
           (handle_frames handler_ok now_iso frames
              (with_stats (snd (connect true (stats c))) c)))
  | StreamError frames checks =>
      let c' := monitored checks
                  (handle_frames handler_ok now_iso frames
                     (with_stats (snd (connect true (stats c))) c)) in
      finish false
        (with_stats (set_failures (consecutive_failures (stats c') + 1)
                                  false (stats c')) c')
  end.

(** [run] over a sequence of attempts: the client and the delays slept. *)
Fixpoint run (handler_ok : pydict -> bool) (now_iso : string)
  (attempts : list attempt) (c : WebSocketClient)
  : WebSocketClient * list Z :=
  match attempts with
  | [] => (c, [])
  | a :: rest =>
      if is_shutting_down c then (c, [])
      else
        let '(c', d) := run_iteration handler_ok now_iso a c in
        let '(c'', ds) := run handler_ok now_iso rest c' in
        (c'', match d with Some x => x :: ds | None => ds end)
  end.

End WithBuiltins.

Section Vocabulary.
Context `{Builtins}.

(** What one call of [_process_single_event] adds to the emitted events. *)
Definition single_events (now_iso : string) (channel : string)
  (wallet : pyval) (event_data : pyval) : list pydict :=
  match event_data with
  | PDict _ => [make_event channel wallet now_iso event_data]
  | _ => []
  end.

(** The events a payload gives rise to: one per record. *)
Definition frame_events (now_iso : string) (channel : string) (wallet : pyval)
  (event_data : pyval) : list pydict :=
  match event_data with
  | PList l => flat_map (single_events now_iso channel wallet) l
  | PDict _ => single_events now_iso channel wallet event_data
  | _ => []
  end.

(** The events [handle_message] emits for a decoded frame. *)
Definition message_events (now_iso : string) (watched_wallets : list string)
  (parsed : option pyval) : list pydict :=
  match parsed with
  | Some (PDict raw_event) =>
      match get_default "channel" (PStr "unknown") raw_event with
      | PStr channel =>
          let wallet := resolve_wallet raw_event in
          if in_strings channel event_channels
             && truthy wallet && watched wallet watched_wallets
          then frame_events now_iso channel wallet (get "data" raw_event)
          else []
      | _ => []
      end
  | _ => []
  end.

End Vocabulary.

(** The failure count an attempt leaves, from the count before it. *)
Definition failures_after (a : attempt) (before : Z) : Z :=
  match a with
  | ConnectFailed => before + 1
  | SubscribeFailed checks => connection_monitor checks 0
  | StreamEnded _ checks => connection_monitor checks 0
  | StreamError _ checks => connection_monitor checks 0 + 1
  end.

Definition is_subscribe_failed (a : attempt) : bool :=
  match a with SubscribeFailed _ => true | _ => false end.

(** ** Subscriptions *)

(** What the socket does when [subscribe_to_wallet] reaches it. *)
Inductive socket : Type :=
| Closed      (** [not self.websocket or self.websocket.closed] *)
| SendRaises  (** open, [send] raises *)
| SendOk.     (** open, [send] returns *)

(** The subscription state of the client, with one ghost field: [send_calls]
    logs, oldest first, the (channel type, wallet) of every subscription
    message handed to [websocket.send]. *)
Record Subscriptions : Type := {
  subscribed_wallets : gset string;
  wallet_subscriptions : gmap string (gset string);
  subscription_count : Z;
  send_calls : list (string * string)
}.

Definition no_subscriptions : Subscriptions :=
  {| subscribed_wallets := ∅; wallet_subscriptions := ∅;
     subscription_count := 0; send_calls := [] |}.

Definition sub_key (channel_type wallet : string) : string :=
  (channel_type ++ ":" ++ wallet)%string.

(** [subscribe_to_wallet] *)
Definition subscribe_to_wallet (sock : socket) (wallet channel_type : string)
  (s : Subscriptions) : bool * Subscriptions :=
  match sock with
  | Closed => (false, s)
  | _ =>
      if decide (sub_key channel_type wallet ∈ subscribed_wallets s)
      then (true, s)
      else
        let called :=
          {| subscribed_wallets := subscribed_wallets s;
             wallet_subscriptions := wallet_subscriptions s;
             subscription_count := subscription_count s;
             send_calls := send_calls s ++ [(channel_type, wallet)] |} in
        match sock with
        | SendOk =>
            (true,
             {| subscribed_wallets :=
                  subscribed_wallets s ∪ {[sub_key channel_type wallet]};
                wallet_subscriptions :=
                  <[channel_type :=
                      default ∅ (wallet_subscriptions s !! channel_type)
                      ∪ {[wallet]}]> (wallet_subscriptions s);
                subscription_count := subscription_count s + 1;
                send_calls := send_calls called |})
        | _ => (false, called)
        end
  end.

Definition channel_types : list string :=
  ["userFills"; "userEvents"; "orderUpdates"].

(** The two nested loops of [subscribe_to_all_wallets], flattened: the
    successes counted and the state afterwards. [socks] says what the socket
    does at each call of [subscribe_to_wallet], numbered from [k]. *)
Fixpoint subscribe_each (socks : nat -> socket) (k : nat)
  (pairs : list (string * string)) (s : Subscriptions) : Z * Subscriptions :=
  match pairs with
  | [] => (0, s)
  | (wallet, channel_type) :: rest =>
      let '(ok, s1) := subscribe_to_wallet (socks k) wallet channel_type s in
      let '(n, s2) := subscribe_each socks (S k) rest s1 in
      ((if ok then 1 else 0) + n, s2)
  end.

(** [subscribe_to_all_wallets]; [is_open] is the test made before the
    loops. *)
Definition subscribe_to_all_wallets (is_open : bool) (socks : nat -> socket)
  (watched : list string) (s : Subscriptions) : bool * Subscriptions :=
  if is_open then
    let pairs :=
      flat_map (fun wallet => map (fun ct => (wallet, ct)) channel_types)
               watched in
    let '(success_count, s') := subscribe_each socks 0 pairs s in
    (0 <? success_count, s')
  else (false, s).

(** A decoded frame the router accepts for the wallet [w]. *)
Definition accepted `{Builtins} (w : string) (watched_wallets : list string)
  (parsed : option pyval) : bool :=
  match parsed with
  | Some (PDict raw_event) =>
      match get_default "channel" (PStr "unknown") raw_event with
      | PStr channel =>
          in_strings channel event_channels
          && match resolve_wallet raw_event with
             | PStr w' => String.eqb w' w && negb (String.eqb w "")
                          && in_strings w watched_wallets
             | _ => false
             end
      | _ => false
      end
  | _ => false
  end.

(** How many of the events the handler did not return for. *)
Definition handler_failures (handler_ok : pydict -> bool)
  (events : list pydict) : Z :=
  Z.of_nat (length (List.filter (fun e => negb (handler_ok e)) events)).

(** What a step of the router does to the parse counters, given the events
    it emits. *)
Definition parse_step (handler_ok : pydict -> bool) (c c' : WebSocketClient)
  (new : list pydict) : Prop :=
  emitted c' = emitted c ++ new
  /\ successful_parses (stats c')
     = successful_parses (stats c) + Z.of_nat (length new)
  /\ failed_parses (stats c')
     = failed_parses (stats c) + handler_failures handler_ok new
  /\ total_messages (stats c') = total_messages (stats c)
  /\ watched_wallets c' = watched_wallets c.

(** The subscription counter and the per-channel sets agree with the set of
    subscription keys. *)
Definition consistent (s : Subscriptions) : Prop :=
  subscription_count s = Z.of_nat (size (subscribed_wallets s))
  /\ (forall ct w,
        w ∈ default ∅ (wallet_subscriptions s !! ct) ->
        sub_key ct w ∈ subscribed_wallets s)
  /\ (size (subscribed_wallets s) <= length (send_calls s))%nat.

End WebSocket.

(* ================================================================== *)
(** * utils/rate_limiter.py *)
(* ================================================================== *)

Module RateLimiter.
Import Py.

Inductive RateLimitStrategy : Type :=
| FIXED_WINDOW
| SLIDING_WINDOW
| TOKEN_BUCKET
| LEAKY_BUCKET.

Record RateLimitConfig : Type := {
  strategy : RateLimitStrategy;
  max_requests : Z;
  window_seconds : Z;
  burst_capacity : Z;
  refill_rate : Q;
  cooldown_seconds : Z
}.

(** The defaults of the dataclass. *)
Definition default_config : RateLimitConfig :=
  {| strategy := SLIDING_WINDOW; max_requests := 10; window_seconds := 60;
     burst_capacity := 5; refill_rate := 1; cooldown_seconds := 30 |}.

(** One entry of [channel_stats]. The tokens are a Python number: the int
    [burst_capacity] at first, a float once a refill leaves the bucket short
    of full. *)
Record ChannelStats : Type := {
  requests : list Q;
  tokens : number;
  last_refill : Q
}.

(** The token arithmetic of the bucket, on Python numbers, in binary64:
    [tokens + x] for a float [x] (an int is converted first),
    [min(burst_capacity, x)] (the int unless the float is strictly smaller),
    [tokens >= 1] and [tokens - 1]. *)
Definition add_float (t : number) (x : float) : res float :=
  match t with
  | NInt n => bind (float_of_int n) (fun f => Ok (f + x)%float)
  | NFloat f => Ok (f + x)%float
  end.

Definition min_capacity (capacity : Z) (x : float) : number :=
  if float_ltb_Z x capacity then NFloat x else NInt capacity.

Definition at_least_one (t : number) : bool :=
  match t with
  | NInt n => 1 <=? n
  | NFloat x => PrimFloat.leb 1 x
  end.

Definition minus_one (t : number) : number :=
  match t with
  | NInt n => NInt (n - 1)
  | NFloat x => NFloat (x - 1)%float
  end.

(** The refill both [can_send_request] and the refill loop make, at clock
    reading [now]: the tokens afterwards, or the OverflowError of the
    conversion of an int beyond the floats. The readings and the refill rate
    are floats in the code; [float_of_Q] gives them. *)
Definition refilled (cfg : RateLimitConfig) (now : Q) (s : ChannelStats)
  : res number :=
  let elapsed := (float_of_Q now - float_of_Q (last_refill s))%float in
  let tokens_to_add := (elapsed * float_of_Q (refill_rate cfg))%float in
  bind (add_float (tokens s) tokens_to_add) (fun total =>
  Ok (min_capacity (burst_capacity cfg) total)).

(** [min(xs)] of a non-empty list. *)
Fixpoint list_min (x : Q) (xs : list Q) : Q :=
  match xs with
  | [] => x
  | y :: ys => list_min (if Qltb y x then y else x) ys
  end.

(** [max(a, b)] of Python. *)
Definition py_max (a b : Q) : Q := if Qltb a b then b else a.

(** [key.split(":", 1)] unpacked into two names: [None] when there is no
    colon (the unpacking raises ValueError). *)
Fixpoint split_colon (s : string) : option (string * string) :=
  match s with
  | EmptyString => None
  | String c s' =>
      if Ascii.eqb c ":" then Some (EmptyString, s')
      else match split_colon s' with
           | Some (a, b) => Some (String c a, b)
           | None => None
           end
  end.

(** Stable sort by decreasing priority: [l.sort(key=priority, reverse=True)]. *)
Section Sort.
Context {A : Type} (priority : A -> Z).

Fixpoint insert_desc (x : A) (l : list A) : list A :=
  match l with
  | [] => [x]
  | y :: l' =>
      if priority x <? priority y then y :: insert_desc x l'
      else x :: y :: l'
  end.

Definition sort_desc (l : list A) : list A :=
  fold_right insert_desc [] l.

End Sort.

Section Limiter.
(** The payload of a pending event (the dispatcher queues notifications). *)
Context {E : Type}.

Record PendingEvent : Type := {
  event : E;
  timestamp : Q;
  priority : Z;
  retry_count : Z;
  max_retries : Z
}.

(** The limiter's state: its configuration, [channel_stats], and
    [pending_events], which keeps the insertion order of its keys (the flush
    loop iterates in it). The fields [requests], [tokens] and [last_refill] of
    the limiter itself are never read by the modelled methods and are left
    out. *)
Record RateLimiter : Type := {
  config : RateLimitConfig;
  channel_stats : gmap string ChannelStats;
  pending_events : list (string * list PendingEvent)
}.

Definition init (cfg : RateLimitConfig) : RateLimiter :=
  {| config := cfg; channel_stats := ∅; pending_events := [] |}.

Fixpoint pending_get (key : string) (p : list (string * list PendingEvent))
  : option (list PendingEvent) :=
  match p with
  | [] => None
  | (k, evs) :: p' => if String.eqb key k then Some evs else pending_get key p'
  end.

Fixpoint pending_set (key : string) (evs : list PendingEvent)
  (p : list (string * list PendingEvent)) : list (string * list PendingEvent) :=
  match p with
  | [] => [(key, evs)]
  | (k, evs') :: p' =>
      if String.eqb key k then (k, evs) :: p'
      else (k, evs') :: pending_set key evs p'
  end.

Fixpoint pending_del (key : string) (p : list (string * list PendingEvent))
  : list (string * list PendingEvent) :=
  match p with
  | [] => []
  | (k, evs) :: p' =>
      if String.eqb key k then p' else (k, evs) :: pending_del key p'
  end.

Definition with_stats (key : string) (s : ChannelStats) (rl : RateLimiter)
  : RateLimiter :=
  {| config := config rl;
     channel_stats := <[key := s]> (channel_stats rl);
     pending_events := pending_events rl |}.

Definition with_pending (p : list (string * list PendingEvent))
  (rl : RateLimiter) : RateLimiter :=
  {| config := config rl; channel_stats := channel_stats rl;
     pending_events := p |}.

Context `{Builtins}.

(** [f"{channel}:{wallet[:8]}"]: a string is sliced, a list is sliced and
    printed, nothing else can be sliced. *)
Definition _get_key (channel : string) (wallet : pyval) : res string :=
  match wallet with
  | PStr w => Ok (channel ++ ":" ++ substring 0 8 w)%string
  | PList l => Ok (channel ++ ":" ++ repr_container (PList (firstn 8 l)))%string
  | _ => Raise TypeError
  end.

(** The admission test of one strategy on the entry of a key: the answer (or
    the exception) and the entry afterwards. The window strategies only
    subtract and compare clock readings; the token bucket is computed in
    binary64, as the code computes it, and its waiting time [1.0 / refill_rate]
    is reported by its value. *)
Definition admission (cfg : RateLimitConfig) (now : Q) (s : ChannelStats)
  : res (bool * Q) * ChannelStats :=
  match strategy cfg with
  | FIXED_WINDOW =>
      let cutoff := (now - inject_Z (window_seconds cfg))%Q in
      let reqs := List.filter (fun t => Qltb cutoff t) (requests s) in
      let s' := {| requests := reqs; tokens := tokens s;
                   last_refill := last_refill s |} in
      if max_requests cfg <=? Z.of_nat (length reqs) then
        match reqs with
        | first :: _ =>
            let wait_time := (inject_Z (window_seconds cfg) - (now - first))%Q in
            (Ok (false, py_max 0 wait_time), s')
        | [] => (Raise IndexError, s')
        end
      else (Ok (true, 0%Q), s')
  | SLIDING_WINDOW =>
      let cutoff := (now - inject_Z (window_seconds cfg))%Q in
      let reqs := List.filter (fun t => Qltb cutoff t) (requests s) in
      let s' := {| requests := reqs; tokens := tokens s;
                   last_refill := last_refill s |} in
      if max_requests cfg <=? Z.of_nat (length reqs) then
        match reqs with
        | first :: rest =>
            let oldest_request := list_min first rest in
            let wait_time :=
              ((oldest_request + inject_Z (window_seconds cfg)) - now)%Q in
            (Ok (false, py_max 0 wait_time), s')
        | [] => (Raise ValueError, s')
        end
      else (Ok (true, 0%Q), s')
  | TOKEN_BUCKET =>
      match refilled cfg now s with
      | Raise e => (Raise e, s)
      | Ok tk =>
          if at_least_one tk then
            (Ok (true, 0%Q),
             {| requests := requests s; tokens := minus_one tk;
                last_refill := now |})
          else
            let s' := {| requests := requests s; tokens := tk;
                         last_refill := now |} in
            let rate := float_of_Q (refill_rate cfg) in
            if PrimFloat.eqb rate 0 then (Raise ZeroDivisionError, s')
            else (Ok (false, Q_of_float (1 / rate)%float), s')
      end
  | LEAKY_BUCKET => (Ok (true, 0%Q), s)
  end.

(** [can_send_request] at clock reading [now]. *)
Definition can_send_request (now : Q) (channel : string) (wallet : pyval)
  (rl : RateLimiter) : res (bool * Q) * RateLimiter :=
  match _get_key channel wallet with
  | Raise e => (Raise e, rl)
  | Ok key =>
      let s :=
        match channel_stats rl !! key with
        | Some s => s
        | None => {| requests := [];
                     tokens := NInt (burst_capacity (config rl));
                     last_refill := now |}
        end in
      let '(r, s') := admission (config rl) now s in
      (r, with_stats key s' rl)
  end.

(** [add_pending_event] *)
Definition add_pending_event (now : Q) (channel : string) (wallet : pyval)
  (ev : E) (prio : Z) (rl : RateLimiter) : res unit * RateLimiter :=
  match _get_key channel wallet with
  | Raise e => (Raise e, rl)
  | Ok key =>
      let old := match pending_get key (pending_events rl) with
                 | Some evs => evs
                 | None => []
                 end in
      let pe := {| event := ev; timestamp := now; priority := prio;
                   retry_count := 0; max_retries := 3 |} in
      (Ok tt,
       with_pending
         (pending_set key (sort_desc priority (old ++ [pe])) (pending_events rl))
         rl)
  end.

(** [get_pending_events] *)
Definition get_pending_events (channel : string) (wallet : pyval)
  (rl : RateLimiter) : res (list E) :=
  bind (_get_key channel wallet) (fun key =>
  Ok (match pending_get key (pending_events rl) with
      | Some evs => map event evs
      | None => []
      end)).

(** [clear_pending_events]: the number of events cleared. *)
Definition clear_pending_events (channel : string) (wallet : pyval)
  (rl : RateLimiter) : res Z * RateLimiter :=
  match _get_key channel wallet with
  | Raise e => (Raise e, rl)
  | Ok key =>
      match pending_get key (pending_events rl) with
      | Some evs =>
          (Ok (Z.of_nat (length evs)),
           with_pending (pending_del key (pending_events rl)) rl)
      | None => (Ok 0, rl)
      end
  end.

(** The first loop of an iteration of [_flush_loop], over the items of
    [pending_events]: the keys to flush, or the exception that ends the
    iteration; the admission tests leave their mark on the limiter. *)
Fixpoint flush_scan (now : Q) (items : list (string * list PendingEvent))
  (rl : RateLimiter) : res (list string) * RateLimiter :=
  match items with
  | [] => (Ok [], rl)
  | (key, []) :: rest => flush_scan now rest rl
  | (key, _ :: _) :: rest =>
      match split_colon key with
      | None => (Raise ValueError, rl)
      | Some (channel, wallet) =>
          match can_send_request now channel (PStr wallet) rl with
          | (Raise e, rl') => (Raise e, rl')
          | (Ok (can_send, wait_time), rl') =>
              let '(r, rl'') := flush_scan now rest rl' in
              (bind r (fun keys =>
                 Ok (if can_send && Qle_bool wait_time 0
                     then key :: keys else keys)),
               rl'')
          end
      end
  end.

(** The second loop: the keys to flush are cleared, nothing is sent. *)
Fixpoint flush_clear (keys : list string) (rl : RateLimiter)
  : res unit * RateLimiter :=
  match keys with
  | [] => (Ok tt, rl)
  | key :: rest =>
      match split_colon key with
      | None => (Raise ValueError, rl)
      | Some (channel, wallet) =>
          match clear_pending_events channel (PStr wallet) rl with
          | (Raise e, rl') => (Raise e, rl')
          | (Ok _, rl') => flush_clear rest rl'
          end
      end
  end.

(** One iteration of [_flush_loop] after its sleep, at clock reading [now];
    an exception ends the iteration and is logged. *)
Definition flush_iteration (now : Q) (rl : RateLimiter)
  : res unit * RateLimiter :=
  match flush_scan now (pending_events rl) rl with
  | (Raise e, rl') => (Raise e, rl')
  | (Ok keys, rl') => flush_clear keys rl'
  end.

(** One iteration of [_refill_loop] after its sleep. (An int of tokens
    beyond the floats makes the loop raise at that entry and leave the
    entries that follow it in the dict as they are; the map keeps no order,
    and the model leaves that entry alone.) *)
Definition refill_iteration (now : Q) (rl : RateLimiter) : RateLimiter :=
  match strategy (config rl) with
  | TOKEN_BUCKET =>
      {| config := config rl;
         channel_stats :=
           (fun s =>
              match refilled (config rl) now s with
              | Ok tk => {| requests := requests s; tokens := tk;
                            last_refill := now |}
              | Raise _ => s
              end) <$> channel_stats rl;
         pending_events := pending_events rl |}
  | _ => rl
  end.

End Limiter.

Arguments PendingEvent : clear implicits.
Arguments RateLimiter : clear implicits.

(** [DEFAULT_RATE_LIMITS] *)
Definition discord_config : RateLimitConfig :=
  {| strategy := SLIDING_WINDOW; max_requests := 10; window_seconds := 60;
     burst_capacity := 5; refill_rate := 1; cooldown_seconds := 45 |}.
Definition telegram_config : RateLimitConfig :=
  {| strategy := SLIDING_WINDOW; max_requests := 20; window_seconds := 60;
     burst_capacity := 5; refill_rate := 1; cooldown_seconds := 30 |}.
Definition email_config : RateLimitConfig :=
  {| strategy := TOKEN_BUCKET; max_requests := 10; window_seconds := 60;
     burst_capacity := 5; refill_rate := 1 # 10; cooldown_seconds := 60 |}.
Definition webhook_config : RateLimitConfig :=
  {| strategy := SLIDING_WINDOW; max_requests := 30; window_seconds := 60;
     burst_capacity := 5; refill_rate := 1; cooldown_seconds := 15 |}.

Definition DEFAULT_RATE_LIMITS : list (string * RateLimitConfig) :=
  [("discord", discord_config); ("telegram", telegram_config);
   ("email", email_config); ("webhook", webhook_config)].

(** Priorities that never go up along the list. *)
Fixpoint sorted_desc {A : Type} (prio : A -> Z) (l : list A) : Prop :=
  match l with
  | [] => True
  | x :: l' =>
      match l' with
      | [] => True
      | y :: _ => prio y <= prio x
      end /\ sorted_desc prio l'
  end.

Section Limiter.
Context {E : Type} `{Builtins}.

(** [can_send_request] called for the same channel and wallet at each of the
    clock readings. *)
Fixpoint requests_at (times : list Q) (channel : string) (wallet : pyval)
  (rl : RateLimiter E) : list (res (bool * Q)) * RateLimiter E :=
  match times with
  | [] => ([], rl)
  | now :: rest =>
      let '(r, rl1) := can_send_request now channel wallet rl in
      let '(rs, rl2) := requests_at rest channel wallet rl1 in
      (r :: rs, rl2)
  end.

(** [get_pending_count] *)
Definition get_pending_count (channel : string) (wallet : pyval)
  (rl : RateLimiter E) : res Z :=
  bind (_get_key channel wallet) (fun key =>
  Ok (match pending_get key (pending_events rl) with
      | Some evs => Z.of_nat (length evs)
      | None => 0
      end)).

(** The limiters a program gets from [RateLimiter(config)] by calling its
    methods and letting its background loops run. *)
Inductive reachable (cfg : RateLimitConfig) : RateLimiter E -> Prop :=
| reach_init : reachable cfg (init cfg)
| reach_can_send (now : Q) (ch : string) (wallet : pyval) (rl : RateLimiter E) :
    reachable cfg rl ->
    reachable cfg (snd (can_send_request now ch wallet rl))
| reach_add (now : Q) (ch : string) (wallet : pyval) (ev : E) (prio : Z)
    (rl : RateLimiter E) :
    reachable cfg rl ->
    reachable cfg (snd (add_pending_event now ch wallet ev prio rl))
| reach_clear (ch : string) (wallet : pyval) (rl : RateLimiter E) :
    reachable cfg rl ->
    reachable cfg (snd (clear_pending_events ch wallet rl))
| reach_flush (now : Q) (rl : RateLimiter E) :
    reachable cfg rl -> reachable cfg (snd (flush_iteration now rl))
| reach_refill (now : Q) (rl : RateLimiter E) :
    reachable cfg rl -> reachable cfg (refill_iteration now rl).

(** No entry of [channel_stats] has a recorded request. *)
Definition nothing_recorded (rl : RateLimiter E) : Prop :=
  forall key s, channel_stats rl !! key = Some s -> requests s = [].

End Limiter.

End RateLimiter.

(* ================================================================== *)
(** * notifications/dispatcher.py *)
(* ================================================================== *)

Module Dispatcher.
Import Py.

Inductive failure : Type :=
| RateLimited (wait_time : Q)
| NotificationFailed
| Exception (e : exn).

(** [NotificationResult]: [error = None] on success. *)
Record NotificationResult : Type := {
  channel : string;
  success : bool;
  error : option failure
}.

Record RetryItem : Type := {
  item_channel : string;
  item_wallet : pyval;
  content : pyval;
  notification : Engine.Notification;
  retry_count : Z;
  next_retry : Q;
  created_at : Q
}.

Record DispatcherStats : Type := {
  notifications_sent : Z;
  notifications_failed : Z;
  retries_attempted : Z;
  rate_limited : Z
}.

Record NotificationDispatcher : Type := {
  channel_availability : list (string * bool);
  stats : DispatcherStats;
  retry_queue : list RetryItem;
  max_retries : Z;
  retry_delay_base : Z
}.

(** The dispatcher together with what it shares with the rest of the
    process: the module-level [rate_limiters], and a ghost log [sent] of the
    calls of the channel send primitives, oldest first. *)
Record World : Type := {
  dispatcher : NotificationDispatcher;
  rate_limiters : list (string * RateLimiter.RateLimiter Engine.Notification);
  sent : list (string * pyval)
}.

Definition init (discord telegram email webhook : bool)
  : NotificationDispatcher :=
  {| channel_availability :=
       [("discord", discord); ("telegram", telegram); ("email", email);
        ("webhook", webhook)];
     stats := {| notifications_sent := 0; notifications_failed := 0;
                 retries_attempted := 0; rate_limited := 0 |};
     retry_queue := [];
     max_retries := 3;
     retry_delay_base := 5 |}.

Definition init_world (d : NotificationDispatcher) : World :=
  {| dispatcher := d;
     rate_limiters :=
       map (fun kc => (fst kc, RateLimiter.init (snd kc)))
           RateLimiter.DEFAULT_RATE_LIMITS;
     sent := [] |}.

Fixpoint limiter_get (ch : string)
  (ls : list (string * RateLimiter.RateLimiter Engine.Notification))
  : option (RateLimiter.RateLimiter Engine.Notification) :=
  match ls with
  | [] => None
  | (k, rl) :: ls' => if String.eqb ch k then Some rl else limiter_get ch ls'
  end.

Fixpoint limiter_set (ch : string)
  (rl : RateLimiter.RateLimiter Engine.Notification)
  (ls : list (string * RateLimiter.RateLimiter Engine.Notification))
  : list (string * RateLimiter.RateLimiter Engine.Notification) :=
  match ls with
  | [] => []
  | (k, rl') :: ls' =>
      if String.eqb ch k then (k, rl) :: ls'
      else (k, rl') :: limiter_set ch rl ls'
  end.

Definition with_dispatcher (d : NotificationDispatcher) (w : World) : World :=
  {| dispatcher := d; rate_limiters := rate_limiters w; sent := sent w |}.

Definition with_limiter (ch : string)
  (rl : RateLimiter.RateLimiter Engine.Notification) (w : World) : World :=
  {| dispatcher := dispatcher w;
     rate_limiters := limiter_set ch rl (rate_limiters w);
     sent := sent w |}.

Definition with_dstats (s : DispatcherStats) (d : NotificationDispatcher)
  : NotificationDispatcher :=
  {| channel_availability := channel_availability d; stats := s;
     retry_queue := retry_queue d; max_retries := max_retries d;
     retry_delay_base := retry_delay_base d |}.

Definition with_queue (q : list RetryItem) (d : NotificationDispatcher)
  : NotificationDispatcher :=
  {| channel_availability := channel_availability d; stats := stats d;
     retry_queue := q; max_retries := max_retries d;
     retry_delay_base := retry_delay_base d |}.

Definition known_channel (ch : string) : bool :=
  WebSocket.in_strings ch Engine.channel_names.

(** [_send_notification_to_channel]: for one of the four channels the send
    primitive is called, and [env] says what the call numbered by the calls
    made before it answers (True, or False: also when it raises); any other
    channel is refused without a call. *)
Definition _send_notification_to_channel (env : nat -> bool) (ch : string)
  (c : pyval) (w : World) : bool * World :=
  if known_channel ch then
    (env (length (sent w)),
     {| dispatcher := dispatcher w; rate_limiters := rate_limiters w;
        sent := sent w ++ [(ch, c)] |})
  else (false, w).

(** [_add_to_retry_queue] at clock reading [now]. *)
Definition _add_to_retry_queue (now : Q) (ch : string) (wallet : pyval)
  (c : pyval) (n : Engine.Notification) (d : NotificationDispatcher)
  : NotificationDispatcher :=
  with_queue
    (retry_queue d ++
       [{| item_channel := ch; item_wallet := wallet; content := c;
           notification := n; retry_count := 0;
           next_retry := (now + inject_Z (retry_delay_base d))%Q;
           created_at := now |}])
    d.

Definition count_failed (d : NotificationDispatcher) : NotificationDispatcher :=
  with_dstats
    {| notifications_sent := notifications_sent (stats d);
       notifications_failed := notifications_failed (stats d) + 1;
       retries_attempted := retries_attempted (stats d);
       rate_limited := rate_limited (stats d) |} d.

Definition count_sent (d : NotificationDispatcher) : NotificationDispatcher :=
  with_dstats
    {| notifications_sent := notifications_sent (stats d) + 1;
       notifications_failed := notifications_failed (stats d);
       retries_attempted := retries_attempted (stats d);
       rate_limited := rate_limited (stats d) |} d.

Definition count_rate_limited (d : NotificationDispatcher)
  : NotificationDispatcher :=
  with_dstats
    {| notifications_sent := notifications_sent (stats d);
       notifications_failed := notifications_failed (stats d);
       retries_attempted := retries_attempted (stats d);
       rate_limited := rate_limited (stats d) + 1 |} d.

Definition count_retry (d : NotificationDispatcher) : NotificationDispatcher :=
  with_dstats
    {| notifications_sent := notifications_sent (stats d);
       notifications_failed := notifications_failed (stats d);
       retries_attempted := retries_attempted (stats d) + 1;
       rate_limited := rate_limited (stats d) |} d.

Section WithBuiltins.
Context `{Builtins}.

(** The tail of [_send_to_channel] after the rate limiter let it pass. *)
Definition send_now (env : nat -> bool) (now : Q) (ch : string)
  (wallet : pyval) (c : pyval) (n : Engine.Notification) (w : World)
  : NotificationResult * World :=
  let '(ok, w1) := _send_notification_to_channel env ch c w in
  if ok then
    ({| channel := ch; success := true; error := None |},
     with_dispatcher (count_sent (dispatcher w1)) w1)
  else
    ({| channel := ch; success := false; error := Some NotificationFailed |},
     with_dispatcher
       (_add_to_retry_queue now ch wallet c n (count_failed (dispatcher w1)))
       w1).

(** The [except Exception] clause of [_send_to_channel]. *)
Definition send_failed (now : Q) (ch : string) (wallet : pyval) (c : pyval)
  (n : Engine.Notification) (e : exn) (w : World)
  : NotificationResult * World :=
  ({| channel := ch; success := false; error := Some (Exception e) |},
   with_dispatcher
     (_add_to_retry_queue now ch wallet c n (count_failed (dispatcher w))) w).

(** [_send_to_channel] at clock reading [now]. *)
Definition _send_to_channel (env : nat -> bool) (now : Q) (ch : string)
  (wallet : pyval) (c : pyval) (n : Engine.Notification) (w : World)
  : NotificationResult * World :=
  match limiter_get ch (rate_limiters w) with
  | None => send_now env now ch wallet c n w
  | Some rl =>
      match RateLimiter.can_send_request now ch wallet rl with
      | (Raise e, rl') => send_failed now ch wallet c n e (with_limiter ch rl' w)
      | (Ok (true, _), rl') => send_now env now ch wallet c n (with_limiter ch rl' w)
      | (Ok (false, wait_time), rl') =>
          match RateLimiter.add_pending_event now ch wallet n 0 rl' with
          | (Raise e, rl'') =>
              send_failed now ch wallet c n e (with_limiter ch rl'' w)
          | (Ok _, rl'') =>
              let w' := with_limiter ch rl'' w in
              ({| channel := ch; success := false;
                  error := Some (RateLimited wait_time) |},
               with_dispatcher (count_rate_limited (dispatcher w')) w')
          end
      end
  end.

(** [dispatch_notification]: the loop over [channel_availability]. *)
Fixpoint dispatch_channels (env : nat -> bool) (now : Q)
  (n : Engine.Notification) (chs : list (string * bool)) (w : World)
  : list NotificationResult * World :=
  match chs with
  | [] => ([], w)
  | (ch, isenabled) :: rest =>
      if isenabled then
        match lookup ch (Engine.formatted n) with
        | Some c =>
            let '(r, w1) :=
              _send_to_channel env now ch
                (Engine.wallet (Engine.context n)) c n w in
            let '(rs, w2) := dispatch_channels env now n rest w1 in
            (r :: rs, w2)
        | None => dispatch_channels env now n rest w
        end
      else dispatch_channels env now n rest w
  end.

Definition dispatch_notification (env : nat -> bool) (now : Q)
  (n : Engine.Notification) (w : World) : list NotificationResult * World :=
  dispatch_channels env now n (channel_availability (dispatcher w)) w.

End WithBuiltins.

(** The test of [_process_retries] for an item ready to be retried. *)
Definition ready (max : Z) (now : Q) (item : RetryItem) : bool :=
  (retry_count item <? max) && Qle_bool (next_retry item) now.

(** The body of the loop of [_process_retries] over the items ready: the item
    has left the queue; its count goes up, its next retry is pushed back by
    [retry_delay_base * 2 ** retry_count], and it is sent again; on failure it
    goes back to the end of the queue while it has retries left. *)
Definition retry_one (env : nat -> bool) (now : Q) (w : World)
  (item : RetryItem) : World :=
  let d := count_retry (dispatcher w) in
  let count := retry_count item + 1 in
  let delay := retry_delay_base d * 2 ^ count in
  let item' :=
    {| item_channel := item_channel item; item_wallet := item_wallet item;
       content := content item; notification := notification item;
       retry_count := count;
       next_retry := (now + inject_Z delay)%Q;
       created_at := created_at item |} in
  let '(ok, w1) :=
    _send_notification_to_channel env (item_channel item) (content item)
      (with_dispatcher d w) in
  if ok then with_dispatcher (count_sent (dispatcher w1)) w1
  else if count <? max_retries d
  then with_dispatcher
         (with_queue (retry_queue (dispatcher w1) ++ [item']) (dispatcher w1)) w1
  else with_dispatcher (count_failed (dispatcher w1)) w1.

(** One iteration of [_process_retries] after its sleep, at clock reading
    [now]. The items ready are taken in queue order; each is removed from the
    queue before it is sent, so the queue ends as the items not ready followed
    by the items put back. *)
Definition process_retries (env : nat -> bool) (now : Q) (w : World) : World :=
  let d := dispatcher w in
  let retry_items := List.filter (ready (max_retries d) now) (retry_queue d) in
  let kept :=
    List.filter (fun i => negb (ready (max_retries d) now i)) (retry_queue d) in
  fold_left (retry_one env now) retry_items
    (with_dispatcher (with_queue kept d) w).

(** The limiter's flush loop, run in the world: it reaches no send
    primitive. *)
Definition flush_tick `{Builtins} (now : Q) (ch : string) (w : World) : World :=
  match limiter_get ch (rate_limiters w) with
  | Some rl => with_limiter ch (snd (RateLimiter.flush_iteration now rl)) w
  | None => w
  end.

Section Vocabulary.
Context `{Builtins}.

(** The same notification dispatched at each of the clock readings. *)
Fixpoint dispatch_at (env : nat -> bool) (times : list Q)
  (n : Engine.Notification) (w : World)
  : list (list NotificationResult) * World :=
  match times with
  | [] => ([], w)
  | now :: rest =>
      let '(rs, w1) := dispatch_notification env now n w in
      let '(rss, w2) := dispatch_at env rest n w1 in
      (rs :: rss, w2)
  end.

End Vocabulary.




(** What the running dispatcher does to the world: it dispatches a
    notification, or its retry worker makes an iteration. Nothing else in the
    repository reaches the rate limiters: [start_background_tasks], which
    starts their refill and flush loops, has no caller. *)
Inductive step : Type :=
| Dispatch (env : nat -> bool) (now : Q) (n : Engine.Notification)
| Retry (env : nat -> bool) (now : Q).

Definition run_step `{Builtins} (w : World) (s : step) : World :=
  match s with
  | Dispatch env now n => snd (dispatch_notification env now n w)
  | Retry env now => process_retries env now w
  end.

Definition run `{Builtins} (steps : list step) (w : World) : World :=
  fold_left run_step steps w.

(** The notification is among the pending events of the key, in the limiter
    of the channel. *)
Definition is_pending (ch key : string) (n : Engine.Notification) (w : World)
  : Prop :=
  exists rl evs,
    limiter_get ch (rate_limiters w) = Some rl
    /\ RateLimiter.pending_get key (RateLimiter.pending_events rl) = Some evs
    /\ In n (map RateLimiter.event evs).

(** Whatever is pending in the first world is pending in the second. *)
Definition keeps_pending (w w' : World) : Prop :=
  forall ch key n, is_pending ch key n w -> is_pending ch key n w'.

(** The attempts the dispatcher has accounted for: sent, failed or turned
    down by a rate limiter. *)
Definition accounted (d : NotificationDispatcher) : Z :=
  notifications_sent (stats d) + notifications_failed (stats d)
  + rate_limited (stats d).

(** The results that report a success. *)
Definition successes (rs : list NotificationResult) : Z :=
  Z.of_nat (length (List.filter success rs)).

(** What one or more sends did to the world: [k] results, [ok] of them
    successes, and the calls [new] of the send primitives. *)
Definition dispatched (w w' : World) (k ok : Z) (new : list (string * pyval))
  : Prop :=
  sent w' = sent w ++ new
  /\ accounted (dispatcher w') = accounted (dispatcher w) + k
  /\ notifications_sent (stats (dispatcher w'))
     = notifications_sent (stats (dispatcher w)) + ok
  /\ Z.of_nat (length (retry_queue (dispatcher w')))
     = Z.of_nat (length (retry_queue (dispatcher w)))
       + (notifications_failed (stats (dispatcher w'))
          - notifications_failed (stats (dispatcher w)))
  /\ retries_attempted (stats (dispatcher w'))
     = retries_attempted (stats (dispatcher w))
  /\ channel_availability (dispatcher w') = channel_availability (dispatcher w)
  /\ Z.of_nat (length new) <= k.

(** What retries did to the world: [k] items retried, with the calls [new]
    of the send primitives; each item retried is counted as sent, counted as
    failed, or back in the queue. *)
Definition retried (w w' : World) (k : Z) (new : list (string * pyval))
  : Prop :=
  sent w' = sent w ++ new
  /\ rate_limiters w' = rate_limiters w
  /\ retries_attempted (stats (dispatcher w'))
     = retries_attempted (stats (dispatcher w)) + k
  /\ rate_limited (stats (dispatcher w')) = rate_limited (stats (dispatcher w))
  /\ k = (notifications_sent (stats (dispatcher w'))
          - notifications_sent (stats (dispatcher w)))
         + (notifications_failed (stats (dispatcher w'))
            - notifications_failed (stats (dispatcher w)))
         + (Z.of_nat (length (retry_queue (dispatcher w')))
            - Z.of_nat (length (retry_queue (dispatcher w))))
  /\ max_retries (dispatcher w') = max_retries (dispatcher w).

(** The calls of the send primitives the retry of the items makes. *)
Definition retry_calls (items : list RetryItem) : list (string * pyval) :=
  map (fun i => (item_channel i, content i))
      (List.filter (fun i => known_channel (item_channel i)) items).

End Dispatcher.

(* ================================================================== *)
(** * alerts/formatter.py *)
(* ================================================================== *)

Module NotificationFormatter.
Import Py Engine.

(** The text builtins of Python the formatter uses, and the fixed markup of
    the HTML e-mail: [html_page] stands for the HTML text of
    [format_email_notification] around the eight values it interpolates,
    given in their order. *)
Class Text : Type := {
  format_money : float -> string;   (** f"{x:,.2f}" *)
  isoformat : Q -> string;          (** [datetime.isoformat()] *)
  strftime_utc : Q -> string;       (** [strftime('%Y-%m-%d %H:%M:%S UTC')] *)
  lower : string -> string;         (** [str.lower()] *)
  upper : string -> string;         (** [str.upper()] *)
  html_page : list string -> string
}.

Definition nl : string := String (ascii_of_nat 10) EmptyString.

(** [PositionSize.value] *)
Definition value (c : Classifier.PositionSize) : string :=
  match c with
  | Classifier.WHALE => "WHALE"
  | Classifier.LARGE => "LARGE"
  | Classifier.MEDIUM => "MEDIUM"
  | Classifier.NOTABLE => "NOTABLE"
  | Classifier.SMALL => "SMALL"
  end.

Definition emoji_map (c : Classifier.PositionSize) : string :=
  match c with
  | Classifier.WHALE => "🐋"
  | Classifier.LARGE => "🦈"
  | Classifier.MEDIUM => "🐟"
  | Classifier.NOTABLE => "🦐"
  | Classifier.SMALL => "🐠"
  end.

(** [self.emoji_map.get(context.position_size, "📊")] *)
Definition emoji_of (size : option Classifier.PositionSize) : string :=
  match size with Some c => emoji_map c | None => "📊" end.

(** [if context.usd_value:] *)
Definition usd_truthy (usd : option float) : option float :=
  match usd with
  | Some u => if PrimFloat.eqb u 0%float then None else Some u
  | None => None
  end.

Section WithText.
Context `{Builtins} `{Text}.

(** [wallet[:8]] inside an f-string. *)
Definition slice8 (wallet : pyval) : res string :=
  match wallet with
  | PStr w => Ok (substring 0 8 w)
  | PList l => Ok (repr_container (PList (firstn 8 l)))
  | _ => Raise TypeError
  end.

(** [v.lower()] and [v.upper()]: methods of strings only. *)
Definition str_lower (v : pyval) : res string :=
  match v with PStr s => Ok (lower s) | _ => Raise AttributeError end.

Definition str_upper (v : pyval) : res string :=
  match v with PStr s => Ok (upper s) | _ => Raise AttributeError end.

(** f"{x:,.2f}" for [context.usd_value]: None has no such format. *)
Definition money (usd : option float) : res string :=
  match usd with
  | Some u => Ok (format_money u)
  | None => Raise TypeError
  end.

Definition _get_title (ctx : NotificationContext) : string :=
  match position_size ctx with
  | Some c => (emoji_map c ++ " " ++ value c ++ " Position Alert")%string
  | None => "📊 HyperLiquid Activity Alert"
  end.

Definition _get_description (ctx : NotificationContext) (ev : pydict)
  : res string :=
  match position_size ctx, usd_truthy (usd_value ctx) with
  | Some c, Some u =>
      Ok ("Detected " ++ lower (value c) ++ " position worth $"
          ++ format_money u)%string
  | None, Some u => Ok ("Position detected worth $" ++ format_money u)%string
  | _, None =>
      bind (slice8 (wallet ctx)) (fun w =>
      Ok ("Activity detected on wallet " ++ w ++ "...")%string)
  end.

Definition _get_color (ctx : NotificationContext) : Z :=
  match position_size ctx with
  | Some Classifier.WHALE => 16711680
  | Some Classifier.LARGE => 16737792
  | Some Classifier.MEDIUM => 16763904
  | Some Classifier.NOTABLE => 52479
  | Some Classifier.SMALL => 65280
  | None => 6710886
  end.

Definition _get_severity (ctx : NotificationContext) : string :=
  match position_size ctx with
  | Some Classifier.WHALE => "critical"
  | Some Classifier.LARGE => "high"
  | Some Classifier.MEDIUM => "medium"
  | Some Classifier.NOTABLE => "low"
  | Some Classifier.SMALL => "info"
  | None => "info"
  end.

Definition field (name : string) (v : pyval) : pyval :=
  PDict [("name", PStr name); ("value", v); ("inline", PBool true)].

(** The emoji of a side: ["📈" if side.lower() in ["buy", "long"] else "📉"] *)
Definition side_emoji (side : pyval) : res string :=
  bind (str_lower side) (fun s =>
  Ok (if String.eqb s "buy" || String.eqb s "long" then "📈" else "📉")).

Definition _get_discord_fields (ctx : NotificationContext) (ev : pydict)
  : res (list pyval) :=
  let f1 := match usd_truthy (usd_value ctx) with
            | Some u => [field "💰 Value" (PStr ("$" ++ format_money u))]
            | None => []
            end in
  let f2 := if truthy (coin ctx) then [field "🪙 Coin" (coin ctx)] else [] in
  bind (if truthy (side ctx)
        then bind (side_emoji (side ctx)) (fun e =>
             bind (str_upper (side ctx)) (fun up =>
             Ok [field (e ++ " Side") (PStr up)]))
        else Ok []) (fun f3 =>
  bind (slice8 (wallet ctx)) (fun w =>
  let f4 := [field "🔗 Wallet" (PStr ("`" ++ w ++ "...`"))] in
  let f5 := match position_size ctx with
            | Some c => [field "📊 Classification" (PStr (value c))]
            | None => []
            end in
  Ok (f1 ++ f2 ++ f3 ++ f4 ++ f5))).

Definition format_discord_notification (ctx : NotificationContext)
  (ev : pydict) : res pyval :=
  bind (_get_description ctx ev) (fun description =>
  bind (_get_discord_fields ctx ev) (fun fields =>
  bind (slice8 (wallet ctx)) (fun w =>
  let embed : pydict :=
    [("title", PStr (_get_title ctx));
     ("description", PStr description);
     ("color", PInt (_get_color ctx));
     ("timestamp", PStr (isoformat (timestamp ctx)));
     ("fields", PList fields);
     ("footer",
      PDict [("text", PStr ("HyperLiquidWalletTracker • " ++ w ++ "..."))])] in
  bind (if truthy (coin ctx)
        then bind (str_lower (coin ctx)) (fun c =>
             Ok (set "thumbnail"
                   (PDict [("url",
                            PStr ("https://cryptoicons.org/api/color/"
                                  ++ c ++ "/200"))])
                   embed))
        else Ok embed) (fun embed' =>
  Ok (PDict [("username", PStr "HyperLiquid Tracker");
             ("avatar_url", PStr "https://hyperliquid.xyz/favicon.ico");
             ("embeds", PList [PDict embed'])]))))).

Definition format_telegram_notification (ctx : NotificationContext)
  (ev : pydict) : res pyval :=
  bind (_get_description ctx ev) (fun description =>
  let head :=
    [(emoji_of (position_size ctx) ++ " *" ++ _get_title ctx ++ "*")%string;
     ""; description; ""] in
  let l1 := match usd_truthy (usd_value ctx) with
            | Some u => ["💰 *Value:* $" ++ format_money u]%string
            | None => []
            end in
  let l2 := if truthy (coin ctx)
            then ["🪙 *Coin:* " ++ str (coin ctx)]%string else [] in
  bind (if truthy (side ctx)
        then bind (side_emoji (side ctx)) (fun e =>
             bind (str_upper (side ctx)) (fun up =>
             Ok [e ++ " *Side:* " ++ up]%string))
        else Ok []) (fun l3 =>
  bind (slice8 (wallet ctx)) (fun w =>
  let l4 := ["🔗 *Wallet:* `" ++ w ++ "...`";
             "⏰ *Time:* " ++ strftime_utc (timestamp ctx)]%string in
  Ok (PStr (join nl (head ++ l1 ++ l2 ++ l3 ++ l4)))))).

(** [format_email_notification]: the HTML body is formatted first, then the
    text body; both format [context.usd_value] with [:,.2f]. *)
Definition format_email_notification (ctx : NotificationContext)
  (ev : pydict) : res pyval :=
  let subject := ("HyperLiquid Alert: " ++ _get_title ctx)%string in
  let coin_text := str (Py.or (coin ctx) (PStr "N/A")) in
  let side_text := str (Py.or (side ctx) (PStr "N/A")) in
  let time := strftime_utc (timestamp ctx) in
  bind (_get_description ctx ev) (fun description =>
  bind (money (usd_value ctx)) (fun value_text =>
  bind (slice8 (wallet ctx)) (fun w =>
  let html_body :=
    html_page [emoji_of (position_size ctx); _get_title ctx; description;
               value_text; coin_text; side_text; w; time] in
  let text_body :=
    strip (nl ++ _get_title ctx ++ nl ++ nl ++ description ++ nl ++ nl
           ++ "Position Details:" ++ nl
           ++ "- Value: $" ++ value_text ++ nl
           ++ "- Coin: " ++ coin_text ++ nl
           ++ "- Side: " ++ side_text ++ nl
           ++ "- Wallet: " ++ w ++ "..." ++ nl
           ++ "- Time: " ++ time ++ nl ++ nl
           ++ "HyperLiquidWalletTracker - Advanced wallet monitoring system"
           ++ nl ++ "        ")%string in
  Ok (PDict [("subject", PStr subject); ("html_body", PStr html_body);
             ("text_body", PStr text_body)])))).

Definition format_webhook_notification (ctx : NotificationContext)
  (ev : pydict) : res pyval :=
  bind (_get_description ctx ev) (fun description =>
  Ok (PDict
        [("alert_type", PStr "hyperliquid_wallet_activity");
         ("severity", PStr (_get_severity ctx));
         ("title", PStr (_get_title ctx));
         ("description", PStr description);
         ("timestamp", PStr (isoformat (timestamp ctx)));
         ("data",
          PDict [("wallet", wallet ctx);
                 ("event_type", event_type ctx);
                 ("position_size",
                  match position_size ctx with
                  | Some c => PStr (value c)
                  | None => PNone
                  end);
                 ("usd_value",
                  match usd_value ctx with
                  | Some u => PFloat u
                  | None => PNone
                  end);
                 ("coin", coin ctx);
                 ("side", side ctx);
                 ("raw_event", PDict ev)]);
         ("metadata",
          PDict [("source", PStr "HyperLiquidWalletTracker");
                 ("version", PStr "2.0.0");
                 ("monitoring_system", PStr "hyperliquid")])])).

(** The formatter the engine builds by default, [NotificationFormatter()],
    as the engine calls it for each channel. *)
Definition formatter : Formatter :=
  {| format_channel := fun ch ctx ev =>
       if String.eqb ch "discord" then format_discord_notification ctx ev
       else if String.eqb ch "telegram" then format_telegram_notification ctx ev
       else if String.eqb ch "email" then format_email_notification ctx ev
       else if String.eqb ch "webhook" then format_webhook_notification ctx ev
       else Raise AttributeError |}.

End WithText.

(** A value [v[:8]] accepts: a string or a list. *)
Definition sliceable (v : pyval) : bool :=
  match v with PStr _ | PList _ => true | _ => false end.

(** A value that is falsy, or a string. *)
Definition text_or_falsy (v : pyval) : bool :=
  negb (truthy v) || match v with PStr _ => true | _ => false end.

(** The computation returns: it raises nothing. *)
Definition returns {A : Type} (r : res A) : Prop := exists a, r = Ok a.

End NotificationFormatter.

(* ================================================================== *)
(** * core/config.py *)
(* ================================================================== *)

Module Config.
Import Py.

(** [s.split(',')]: the pieces between the commas, at least one. *)
Fixpoint split_comma (s : string) : list string :=
  match s with
  | EmptyString => [EmptyString]
  | String c s' =>
      if Ascii.eqb c "," then EmptyString :: split_comma s'
      else match split_comma s' with
           | piece :: rest => String c piece :: rest
           | [] => [String c EmptyString]
           end
  end.

(** The validator [parse_wallets]: a string is cut at its commas, the pieces
    stripped and the empty ones left out; any other value is returned as it
    is. *)
Definition parse_wallets (v : pyval) : pyval :=
  match v with
  | PStr s =>
      PList (map (fun wallet => PStr (strip wallet))
                 (List.filter (fun wallet => negb (String.eqb (strip wallet) ""))
                              (split_comma s)))
  | _ => v
  end.

(** A string without a comma. *)
Fixpoint comma_free (s : string) : bool :=
  match s with
  | EmptyString => true
  | String c s' => negb (Ascii.eqb c ",") && comma_free s'
  end.

(** A wallet as [parse_wallets] leaves it: not empty, without a comma,
    without white space at its ends. *)
Definition clean (w : string) : Prop :=
  w <> "" /\ comma_free w = true /\ strip w = w.

End Config.

(* ================================================================== *)
(** * The scenarios' inputs *)
(* ================================================================== *)

Module Scenario.
Import Py.

(** Builtins and formatter for the concrete scenarios below. None of the
    scenarios converts a string to a float or prints a float or a container,
    so what these answer there is never looked at. *)
Definition builtins : Builtins :=
  {| float_of_str := fun _ => None;
     repr_float := fun _ => "<float>";
     repr_container := fun _ => "<container>" |}.

Definition formatter : Engine.Formatter :=
  {| Engine.format_channel := fun ch _ _ => Ok (PStr ch) |}.

(** The payload and the frame of scenario 1. *)
Definition payload : pydict :=
  [("coin", PStr "BTC"); ("side", PStr "buy");
   ("price", PInt 50000); ("size", PInt 25)].

Definition frame : pydict :=
  [("channel", PStr "userFills"); ("user", PStr "A"); ("data", PDict payload)].

(** A notification for the dispatcher scenarios. *)
Definition notification (w : string) : Engine.Notification :=
  {| Engine.rule_name := "large_position";
     Engine.rule_severity := Rules.HIGH;
     Engine.context :=
       {| Engine.wallet := PStr w; Engine.event_type := PStr "userFills";
          Engine.position_size := None; Engine.usd_value := None;
          Engine.coin := PNone; Engine.side := PNone;
          Engine.timestamp := 0; Engine.additional_data := [] |};
     Engine.event := [];
     Engine.formatted :=
       [("discord", PStr "d"); ("telegram", PStr "t");
        ("email", PStr "e"); ("webhook", PStr "w")] |}.

(** Thresholds in the wrong order. *)
Definition misordered : Classifier.PositionThresholds :=
  {| Classifier.notable_threshold := 10000%float;
     Classifier.medium_threshold := 1000%float;
     Classifier.large_threshold := 100%float;
     Classifier.whale_threshold := 10%float |}.

(** The clock reading the frames of the scenarios carry. *)
Definition iso : string := "2025-01-01T00:00:00+00:00".

(** The answers, let through or not, to requests of one wallet on the
    default e-mail limiter (a bucket of five tokens, refilled at 0.1 token
    per second) at the clock readings. *)
Definition answers (times : list Q) : list (res bool) :=
  map (fun r => match r with Ok (b, _) => Ok b | Raise e => Raise e end)
      (fst (RateLimiter.requests_at (E := unit) (H := builtins) times "email"
              (PStr "0xabc") (RateLimiter.init RateLimiter.email_config))).

End Scenario.

(* ================================================================== *)
(** * Facts about Python values, strings and clock readings *)
(* ================================================================== *)

Section PyFacts.
Import Py.

Lemma lookup_set_other (k k' : string) (v : pyval) (d : pydict) :
  k <> k' -> lookup k (set k' v d) = lookup k d.
Proof.
  intros Hne. induction d as [|[k0 v0] d IH]; simpl.
  - destruct (String.eqb_spec k k'); [contradiction | reflexivity].
  - destruct (String.eqb_spec k' k0) as [->|Hk0]; simpl.
    + destruct (String.eqb_spec k k0); [contradiction | reflexivity].
    + destruct (String.eqb_spec k k0); [reflexivity | exact IH].
Qed.

Lemma chars_app (a b : string) :
  list_ascii_of_string (a ++ b)%string
  = list_ascii_of_string a ++ list_ascii_of_string b.
Proof. induction a as [|c a IH]; simpl; [reflexivity | now rewrite IH]. Qed.

Lemma chars_inj (a b : string) :
  list_ascii_of_string a = list_ascii_of_string b -> a = b.
Proof.
  intros Heq. rewrite <- (string_of_list_ascii_of_string a),
                <- (string_of_list_ascii_of_string b). now rewrite Heq.
Qed.

Lemma string_app_inv_head (a b c : string) :
  (a ++ b = a ++ c)%string -> b = c.
Proof.
  intros Heq. apply chars_inj. apply (f_equal list_ascii_of_string) in Heq.
  rewrite !chars_app in Heq. now apply app_inv_head in Heq.
Qed.

Lemma string_app_inv_tail (a b c : string) :
  (a ++ c = b ++ c)%string -> a = b.
Proof.
  intros Heq. apply chars_inj. apply (f_equal list_ascii_of_string) in Heq.
  rewrite !chars_app in Heq. now apply app_inv_tail in Heq.
Qed.

Lemma string_length_app (a b : string) :
  String.length (a ++ b) = (String.length a + String.length b)%nat.
Proof. induction a as [|c a IH]; simpl; [reflexivity | now rewrite IH]. Qed.

Lemma join_cons (sep p : string) (rest : list string) :
  rest <> [] -> join sep (p :: rest) = (p ++ sep ++ join sep rest)%string.
Proof. destruct rest; [contradiction | reflexivity]. Qed.

(** Two joined lists that differ in one entry differ. *)
Lemma join_inj_middle (sep : string) (A B : list string) (s1 s2 : string) :
  join sep (A ++ s1 :: B) = join sep (A ++ s2 :: B) -> s1 = s2.
Proof.
  induction A as [|a A IH]; simpl app.
  - destruct B as [|b B].
    + simpl. auto.
    + rewrite !join_cons by discriminate. apply string_app_inv_tail.
  - rewrite !join_cons by (destruct A; discriminate).
    intros Heq. apply string_app_inv_head in Heq.
    apply string_app_inv_head in Heq. auto.
Qed.

(** Leaving an entry out of a joined list, other than its only entry,
    shortens the result by the entry and one separator. *)
Lemma join_length_skip (sep : string) (A B : list string) (s : string) :
  A ++ B <> [] ->
  String.length (join sep (A ++ s :: B))
  = (String.length (join sep (A ++ B)) + String.length s
     + String.length sep)%nat.
Proof.
  induction A as [|a A IH]; simpl app; intros Hne.
  - rewrite join_cons by assumption. rewrite !string_length_app. lia.
  - rewrite (join_cons sep a (A ++ s :: B)) by (destruct A; discriminate).
    destruct (A ++ B) as [|x l] eqn:HAB.
    + apply app_eq_nil in HAB as [-> ->]. simpl.
      rewrite !string_length_app. simpl. lia.
    + rewrite (join_cons sep a (x :: l)) by discriminate.
      rewrite !string_length_app. rewrite IH by discriminate. lia.
Qed.

Lemma Qltb_lt (x y : Q) : Qltb x y = true <-> (x < y)%Q.
Proof.
  unfold Qltb. rewrite negb_true_iff, <- not_true_iff_false, Qle_bool_iff.
  split; [apply Qnot_le_lt | apply Qlt_not_le].
Qed.

Lemma Qltb_ge (x y : Q) : Qltb x y = false <-> (y <= x)%Q.
Proof.
  unfold Qltb. rewrite negb_false_iff, Qle_bool_iff. reflexivity.
Qed.

End PyFacts.

(* ================================================================== *)
(** * Binary64 values that are not [<= 0] *)
(* ================================================================== *)

Section FloatSign.

Lemma is_nan_Prim2SF (u : float) :
  PrimFloat.is_nan u = true <-> Prim2SF u = S754_nan.
Proof.
  unfold PrimFloat.is_nan. rewrite FloatAxioms.eqb_spec.
  destruct (Prim2SF u) as [s|s| |s m e]; simpl.
  - split; discriminate.
  - destruct s; split; discriminate.
  - split; reflexivity.
  - unfold SFeqb, SFcompare. rewrite Z.compare_refl, Pos.compare_cont_refl.
    destruct s; simpl; split; discriminate.
Qed.

(** [u <= 0] is false exactly when [u] is above 0 or is NaN. *)
Lemma float_not_le_zero (u : float) :
  PrimFloat.leb u 0 = false
  <-> PrimFloat.ltb 0 u = true \/ PrimFloat.is_nan u = true.
Proof.
  rewrite is_nan_Prim2SF, FloatAxioms.leb_spec, FloatAxioms.ltb_spec.
  change (Prim2SF 0) with (S754_zero false).
  destruct (Prim2SF u) as [s|s| |s m e]; simpl.
  - split; [discriminate | intros [|]; discriminate].
  - destruct s; simpl; split; auto; try discriminate.
    intros [|]; discriminate.
  - split; auto.
  - destruct s; simpl; split; auto; try discriminate.
    intros [|]; discriminate.
Qed.

(** No comparison [t <= u] holds for a NaN. *)
Lemma float_leb_nan (t u : float) :
  PrimFloat.is_nan u = true -> PrimFloat.leb t u = false.
Proof.
  rewrite is_nan_Prim2SF, FloatAxioms.leb_spec. intros ->.
  destruct (Prim2SF t) as [s|s| |s m e]; reflexivity.
Qed.

End FloatSign.

(* ================================================================== *)
(** * The classifier *)
(* ================================================================== *)

Section ClassifierFacts.
Import Py Classifier.

Lemma classify_position_unfold `{Builtins} (th : PositionThresholds)
  (ev : pydict) :
  classify_position th ev =
  match _extract_usd_value ev with
  | Ok (Some u) => if PrimFloat.leb u 0%float then None else Some (size_of th u)
  | _ => None
  end.
Proof.
  unfold classify_position.
  destruct (_extract_usd_value ev) as [[u|]|e]; simpl; try reflexivity.
  destruct (PrimFloat.leb u 0); reflexivity.
Qed.

(** C10, counterexample: with the thresholds in the wrong order (whale 10,
    large 100, medium 1000, notable 10000) an event worth 50 USD is
    classified, as a whale; classification does not fail. *)
Lemma classify_misordered_assigns_class :
  ordered Scenario.misordered = false /\
  classify_position (H := Scenario.builtins) Scenario.misordered
    [("usd_value", PInt 50)] = Some WHALE.
Proof. split; vm_compute; reflexivity. Qed.

(** C10, amended: classification never looks at the order of the thresholds.
    Whether it fails does not depend on the thresholds at all: for any
    thresholds, ordered or not, it returns None exactly when the extraction
    of the USD value raises, finds no value, or finds a value [v] with
    [v <= 0]. Otherwise, that is for a value above 0 or a NaN, it assigns the
    first of whale, large, medium, notable whose threshold the value reaches,
    and small when it reaches none; a NaN reaches none. *)
Theorem classify_position_ignores_threshold_order `{Builtins}
  (th th' : PositionThresholds) (ev : pydict) :
  (classify_position th ev = None <-> classify_position th' ev = None) /\
  (forall u, _extract_usd_value ev = Ok (Some u) ->
             PrimFloat.leb u 0%float = false ->
             classify_position th ev = Some (size_of th u)) /\
  (classify_position th ev = None <->
   match _extract_usd_value ev with
   | Ok (Some u) => PrimFloat.leb u 0%float = true
   | Ok None | Raise _ => True
   end) /\
  (forall u, _extract_usd_value ev = Ok (Some u) ->
             (PrimFloat.leb u 0%float = false
              <-> PrimFloat.ltb 0 u = true \/ PrimFloat.is_nan u = true)
             /\ (PrimFloat.is_nan u = true ->
                 classify_position th ev = Some SMALL)).
Proof.
  rewrite !classify_position_unfold.
  destruct (_extract_usd_value ev) as [[u|]|e].
  - split; [|split; [|split]].
    + destruct (PrimFloat.leb u 0); split; (reflexivity || discriminate).
    + intros u' [= ->] ->. reflexivity.
    + destruct (PrimFloat.leb u 0); split; (reflexivity || discriminate).
    + intros u' [= <-]. split; [apply float_not_le_zero|].
      intros Hnan. unfold size_of.
      rewrite !(float_leb_nan _ u Hnan).
      rewrite (proj2 (float_not_le_zero u) (or_intror Hnan)). reflexivity.
  - split; [tauto|]. split; [discriminate|]. split; [tauto|discriminate].
  - split; [tauto|]. split; [discriminate|]. split; [tauto|discriminate].
Qed.

End ClassifierFacts.

(* ================================================================== *)
(** * The rules engine *)
(* ================================================================== *)

Section RulesFacts.
Import Py Rules.
Context `{Builtins}.

Lemma first_float_skip (ev : pydict) (before rest : list string) :
  Forall (no_number ev) before ->
  first_float (before ++ rest) ev = first_float rest ev.
Proof.
  induction 1 as [|f before Hf _ IH]; simpl; [reflexivity|].
  unfold no_number in Hf. destruct (present f ev) as [w|]; [|exact IH].
  unfold float_or_continue. destruct Hf as [-> | ->]; exact IH.
Qed.

Lemma first_float_none (ev : pydict) (fields : list string) :
  Forall (no_number ev) fields -> first_float fields ev = Ok None.
Proof.
  intros Hall. rewrite <- (app_nil_r fields). now rewrite first_float_skip.
Qed.

(** An event that carries a USD value gives it to the extractor. *)
Lemma carries_usd_extract (ev : pydict) (v : float) :
  carries_usd ev v -> _extract_usd_value ev = Ok (Some v).
Proof.
  intros [before after f w x Hfields Hbefore Hf Hw | p s Hall Hp Hs Hfp Hfs];
    unfold _extract_usd_value.
  - rewrite Hfields, first_float_skip by assumption. simpl.
    rewrite Hf. unfold float_or_continue. rewrite Hw. reflexivity.
  - rewrite first_float_none by assumption. simpl.
    rewrite Hp, Hs. simpl. unfold float_or_continue. rewrite Hfp, Hfs.
    reflexivity.
Qed.

Lemma stamp_lookup (now : float) (ev : pydict) (k : string) :
  k <> "timestamp" -> lookup k (stamp now ev) = lookup k ev.
Proof.
  intros Hk. unfold stamp. destruct (lookup "timestamp" ev); [reflexivity|].
  now apply lookup_set_other.
Qed.

Lemma no_number_stamp (now : float) (ev : pydict) (f : string) :
  f <> "timestamp" -> no_number ev f -> no_number (stamp now ev) f.
Proof.
  intros Hf. unfold no_number, present. now rewrite stamp_lookup.
Qed.

Lemma usd_fields_not_timestamp : Forall (fun f => f <> "timestamp") usd_fields.
Proof. repeat constructor; discriminate. Qed.

Lemma event_price_stamp (now : float) (ev : pydict) :
  event_price (stamp now ev) = event_price ev.
Proof.
  unfold event_price, get, get_default. now rewrite !stamp_lookup by discriminate.
Qed.

Lemma event_size_stamp (now : float) (ev : pydict) :
  event_size (stamp now ev) = event_size ev.
Proof.
  unfold event_size, get, get_default. now rewrite !stamp_lookup by discriminate.
Qed.

Lemma Forall_no_number_stamp (now : float) (ev : pydict) (l : list string) :
  Forall (fun f => f <> "timestamp") l ->
  Forall (no_number ev) l -> Forall (no_number (stamp now ev)) l.
Proof.
  induction 1 as [|f l Hf _ IH]; intros Hall; [constructor|].
  apply Forall_cons_iff in Hall as [Hf' Hl]. constructor; [|auto].
  now apply no_number_stamp.
Qed.

(** Stamping the event with the time of its evaluation leaves its USD value. *)
Lemma carries_usd_stamp (now : float) (ev : pydict) (v : float) :
  carries_usd ev v -> carries_usd (stamp now ev) v.
Proof.
  intros [before after f w x Hfields Hbefore Hf Hw | p s Hall Hp Hs Hfp Hfs].
  - pose proof usd_fields_not_timestamp as Hnt. rewrite Hfields in Hnt.
    apply Forall_app in Hnt as [Hnt1 Hnt2].
    apply Forall_cons_iff in Hnt2 as [Hnf _].
    eapply carries_direct; eauto.
    + now apply Forall_no_number_stamp.
    + unfold present. rewrite stamp_lookup by assumption. exact Hf.
  - apply carries_derived; rewrite ?event_price_stamp, ?event_size_stamp; auto.
    apply Forall_no_number_stamp; [apply usd_fields_not_timestamp | assumption].
Qed.

(** The rules [evaluate_event] returns are the enabled rules that fire, in
    declaration order. *)
Lemma evaluate_rules_fired (now : float) (history : list pydict) (ev : pydict)
  (rs : list AlertRule) :
  forall stats fired0 fired stats',
  evaluate_rules now history ev rs stats fired0 = (Ok fired, stats') ->
  fired = fired0 ++ List.filter (fun r => enabled r && hit now history ev r) rs.
Proof.
  induction rs as [|r rs IH]; intros stats fired0 fired stats' Hev; simpl in *.
  - injection Hev as <- _. now rewrite app_nil_r.
  - destruct (enabled r); simpl.
    + fold (hit now history ev r) in Hev.
      destruct (_update_rule_stats now r (hit now history ev r) stats)
        as [stats1|e]; [|injection Hev; discriminate].
      apply IH in Hev. rewrite Hev.
      destruct (hit now history ev r); [|reflexivity].
      now rewrite <- app_assoc.
    + eauto.
Qed.

End RulesFacts.

Section Claim4.
Import Py Rules.

(** Position-size rules on the events the rules engine reads a USD value
    from: for a rule [R] of the engine that is enabled, has the condition
    position-size and a numeric threshold [t], and an event that carries the
    USD value [v] as the engine reads it ([carries_usd]: directly in a
    recognized usd field, or as price times size for a size under size, sz
    or quantity), [R] is among the rules [evaluate_event] returns if and only
    if [v >= t]. *)
Theorem position_size_fires_iff `{Builtins} (now : float)
  (eng eng' : RulesEngine) (ev ev' : pydict) (R : AlertRule)
  (t v : float) (fired : list AlertRule) :
  In R (rules eng) ->
  enabled R = true ->
  condition R = POSITION_SIZE ->
  threshold R = Some t ->
  carries_usd ev v ->
  evaluate_event now ev eng = (Ok fired, eng', ev') ->
  (In R fired <-> PrimFloat.leb t v = true).
Proof.
  intros HR Hen Hcond Hth Hv Hev. unfold evaluate_event in Hev.
  destruct (evaluate_rules _ _ _ _ _ _) as [r stats] eqn:Hrs.
  injection Hev as -> _ _.
  apply evaluate_rules_fired in Hrs. simpl in Hrs. subst fired.
  rewrite filter_In.
  assert (Hhit : hit now (_add_to_history now ev (event_history eng))
                   (stamp now ev) R = PrimFloat.leb t v).
  { unfold hit, _evaluate_rule. rewrite Hcond.
    unfold _evaluate_position_size. rewrite Hth.
    rewrite (carries_usd_extract _ _ (carries_usd_stamp now _ _ Hv)).
    reflexivity. }
  rewrite Hhit, Hen. simpl. tauto.
Qed.

(** The default rule large_position on the payload of scenario 1, price
    50000 and size 25. *)
Lemma position_size_fires_iff_witness :
  In large_position
     [whale_position; large_position; medium_position; notable_position;
      unusual_volume]
  <-> PrimFloat.leb 100000%float (50000 * 25)%float = true.
Proof.
  eapply (position_size_fires_iff (H := Scenario.builtins) 1700000000%float
            (init []) _ Scenario.payload _ large_position).
  - simpl. auto.
  - reflexivity.
  - reflexivity.
  - reflexivity.
  - apply (carries_derived (H := Scenario.builtins)).
    + repeat constructor.
    + reflexivity.
    + reflexivity.
    + reflexivity.
    + reflexivity.
  - reflexivity.
Defined.

(** C4, the code at the failing input: an event that holds its size under
    amount, price 50000 and amount 25, met by the default rules. The
    classifier, which reads a size under size, sz, quantity, amount or
    volume, gives the event the USD value 1,250,000, at or above the
    threshold of each of the four position-size rules; the rules engine
    reads a size under size, sz or quantity only, finds no USD value, and
    fires no rule. The same event with the 25 under size fires the four
    rules (and the volume rule). *)
Theorem position_size_rule_misses_amount :
  let ev := [("wallet", PStr "A"); ("coin", PStr "BTC"); ("side", PStr "buy");
             ("price", PInt 50000); ("amount", PInt 25)] in
  let ev' := [("wallet", PStr "A"); ("coin", PStr "BTC"); ("side", PStr "buy");
              ("price", PInt 50000); ("size", PInt 25)] in
  let fired e :=
    fst (fst (evaluate_event (H := Scenario.builtins) 1700000000%float e
                (init []))) in
  Classifier._extract_usd_value (H := Scenario.builtins) ev
  = Ok (Some 1250000%float)
  /\ Classifier.classify_position (H := Scenario.builtins)
       Classifier.default_thresholds ev = Some Classifier.WHALE
  /\ Forall (fun R => exists t, threshold R = Some t
                                /\ PrimFloat.leb t 1250000 = true)
            [whale_position; large_position; medium_position;
             notable_position]
  /\ _extract_usd_value (H := Scenario.builtins) ev = Ok None
  /\ fired ev = Ok []
  /\ fired ev'
     = Ok [whale_position; large_position; medium_position; notable_position;
           unusual_volume].
Proof.
  cbv zeta. split; [vm_compute; reflexivity|]. split; [vm_compute; reflexivity|].
  split.
  - repeat (constructor; [eexists; split; [reflexivity | vm_compute; reflexivity]|]).
    constructor.
  - split; [vm_compute; reflexivity|]. split; vm_compute; reflexivity.
Qed.

End Claim4.

(* ================================================================== *)
(** * The router and the reconnect loop *)
(* ================================================================== *)

Section WebSocketFacts.
Import Py WebSocket.
Context `{Builtins}.

Lemma in_strings_In (s : string) (l : list string) :
  in_strings s l = true <-> In s l.
Proof.
  unfold in_strings. rewrite existsb_exists. split.
  - intros (x & Hx & Heq). apply String.eqb_eq in Heq. now subst.
  - intros Hin. exists s. split; [assumption | apply String.eqb_refl].
Qed.

Lemma process_single_emitted handler_ok now_iso event_data channel wallet c :
  let c' := _process_single_event handler_ok now_iso event_data channel wallet c in
  emitted c' = emitted c ++ single_events now_iso channel wallet event_data
  /\ watched_wallets c' = watched_wallets c
  /\ is_shutting_down c' = is_shutting_down c
  /\ consecutive_failures (stats c') = consecutive_failures (stats c).
Proof.
  unfold _process_single_event, single_events.
  destruct event_data; simpl; rewrite ?app_nil_r; auto.
Qed.

Lemma process_list_emitted handler_ok now_iso channel wallet (l : list pyval) :
  forall c,
  let c' := fold_left
              (fun acc single =>
                 _process_single_event handler_ok now_iso single channel wallet acc)
              l c in
  emitted c' = emitted c ++ flat_map (single_events now_iso channel wallet) l
  /\ watched_wallets c' = watched_wallets c
  /\ is_shutting_down c' = is_shutting_down c
  /\ consecutive_failures (stats c') = consecutive_failures (stats c).
Proof.
  induction l as [|x l IH]; intros c; simpl.
  - rewrite app_nil_r. auto.
  - destruct (IH (_process_single_event handler_ok now_iso x channel wallet c))
      as (He & Hw & Hs & Hf).
    destruct (process_single_emitted handler_ok now_iso x channel wallet c)
      as (He' & Hw' & Hs' & Hf').
    cbv zeta in *. rewrite He, He', <- app_assoc.
    repeat split; congruence.
Qed.

Lemma count_wallet_event_failures wallet s :
  consecutive_failures (count_wallet_event wallet s) = consecutive_failures s.
Proof.
  unfold count_wallet_event. destruct wallet; try reflexivity.
  destruct (wallet_events s !! s0); reflexivity.
Qed.

Lemma handle_wallet_event_emitted handler_ok now_iso raw_event channel c :
  let c' := _handle_wallet_event handler_ok now_iso raw_event channel c in
  let wallet := resolve_wallet raw_event in
  emitted c' =
    emitted c ++
    (if truthy wallet && watched wallet (watched_wallets c)
     then frame_events now_iso channel wallet (get "data" raw_event) else [])
  /\ watched_wallets c' = watched_wallets c
  /\ is_shutting_down c' = is_shutting_down c
  /\ consecutive_failures (stats c') = consecutive_failures (stats c).
Proof.
  unfold _handle_wallet_event.
  destruct (truthy (resolve_wallet raw_event)); simpl;
    [|rewrite app_nil_r; auto].
  destruct (watched (resolve_wallet raw_event) (watched_wallets c)); simpl;
    [|rewrite app_nil_r; auto].
  set (c1 := with_stats _ c).
  assert (Hc1 : emitted c1 = emitted c /\ watched_wallets c1 = watched_wallets c
                /\ is_shutting_down c1 = is_shutting_down c
                /\ consecutive_failures (stats c1) = consecutive_failures (stats c)).
  { subst c1. simpl. rewrite count_wallet_event_failures. auto. }
  destruct Hc1 as (He & Hw & Hs & Hf).
  unfold frame_events. destruct (get "data" raw_event) eqn:Hd;
    try (rewrite app_nil_r; auto; fail).
  - destruct (process_list_emitted handler_ok now_iso channel
                (resolve_wallet raw_event) l c1) as (He' & Hw' & Hs' & Hf').
    cbv zeta in *. rewrite He', He. repeat split; congruence.
  - destruct (process_single_emitted handler_ok now_iso (PDict d) channel
                (resolve_wallet raw_event) c1) as (He' & Hw' & Hs' & Hf').
    cbv zeta in *. rewrite He', He. repeat split; congruence.
Qed.

Lemma handle_message_emitted handler_ok now_iso parsed c :
  let c' := handle_message handler_ok now_iso parsed c in
  emitted c' = emitted c ++ message_events now_iso (watched_wallets c) parsed
  /\ watched_wallets c' = watched_wallets c
  /\ is_shutting_down c' = is_shutting_down c
  /\ consecutive_failures (stats c') = consecutive_failures (stats c).
Proof.
  cbv zeta. unfold handle_message, message_events.
  set (c1 := with_stats _ c).
  assert (Hc1 : emitted c1 = emitted c /\ watched_wallets c1 = watched_wallets c
                /\ is_shutting_down c1 = is_shutting_down c
                /\ consecutive_failures (stats c1) = consecutive_failures (stats c))
    by (subst c1; simpl; auto).
  destruct Hc1 as (He & Hw & Hs & Hf).
  destruct parsed as [[| | | | | |raw]|]; rewrite ?app_nil_r; auto.
  destruct (get_default "channel" (PStr "unknown") raw); rewrite ?app_nil_r; auto.
  destruct (in_strings s event_channels); simpl; rewrite ?app_nil_r; auto.
  destruct (handle_wallet_event_emitted handler_ok now_iso raw s c1)
    as (He' & Hw' & Hs' & Hf').
  cbv zeta in *. rewrite He', He, Hw. repeat split; congruence.
Qed.

Lemma frame_events_wallet now_iso channel wallet event_data e :
  In e (frame_events now_iso channel wallet event_data) ->
  get "wallet" e = wallet /\ get "type" e = PStr channel.
Proof.
  assert (Hs : forall x, In e (single_events now_iso channel wallet x) ->
                         get "wallet" e = wallet /\ get "type" e = PStr channel).
  { intros x. unfold single_events. destruct x; simpl; try tauto.
    intros [<-|[]]. split; reflexivity. }
  unfold frame_events. destruct event_data; simpl; try tauto.
  - rewrite in_flat_map. intros (x & _ & Hx). eauto.
  - intros [<-|[]]. split; reflexivity.
Qed.

Lemma check_dict_for_wallet_sound (data : pyval) (w : string) :
  check_dict_for_wallet data = Some w ->
  w <> "" /\ in_strings w sentinels = false.
Proof.
  unfold check_dict_for_wallet. destruct data; try discriminate.
  induction wallet_fields as [|f fields IH]; [discriminate|].
  destruct (lookup f d) as [v|]; [|exact IH].
  destruct (truthy v); [|exact IH].
  destruct (negb (strip (str v) =? "")%string) eqn:He; cbn [andb];
    [|exact IH].
  destruct (negb (in_strings (strip (str v)) sentinels)) eqn:Hs; cbn [andb];
    [|exact IH].
  intros [= <-]. apply negb_true_iff in He, Hs. split; [|exact Hs].
  now apply String.eqb_neq.
Qed.

Lemma extract_wallet_sound (event_data : pyval) (raw_event : pydict)
  (w : string) :
  _extract_wallet_from_event event_data raw_event = Some w ->
  w <> "" /\ in_strings w sentinels = false.
Proof.
  unfold _extract_wallet_from_event.
  destruct (nonempty (check_dict_for_wallet (PDict raw_event)));
    [apply check_dict_for_wallet_sound|].
  destruct event_data as [| | | | |[|first l]|d];
    try apply check_dict_for_wallet_sound.
  destruct (nonempty (check_dict_for_wallet (PDict d)));
    [apply check_dict_for_wallet_sound|].
  destruct (truthy (get "data" d)); apply check_dict_for_wallet_sound.
Qed.

Lemma resolve_wallet_fallback (raw : pydict) (w : string) :
  resolve_wallet raw = PStr w ->
  truthy (get "user" raw) = false ->
  truthy (get "wallet" raw) = false ->
  in_strings w sentinels = false.
Proof.
  unfold resolve_wallet, Py.or. intros Hr Hu Hw. rewrite Hu, Hw in Hr.
  destruct (_extract_wallet_from_event (get "data" raw) raw) eqn:He;
    [|discriminate].
  injection Hr as ->. now apply extract_wallet_sound in He.
Qed.

End WebSocketFacts.

Section Claim6.
Import Py WebSocket.

(** C6, counterexample: with the account "unknown" (a sentinel) in the
    watched set, a frame whose [user] is "unknown" is routed: one normalized
    event is emitted for the sentinel account. *)
Lemma sentinel_account_is_emitted :
  let c := init ["unknown"] in
  let raw := PDict [("channel", PStr "userFills"); ("user", PStr "unknown");
                    ("data", PDict [])] in
  emitted (handle_message (H := Scenario.builtins) (fun _ => true)
             Scenario.iso (Some raw) c)
  = [make_event "userFills" (PStr "unknown") Scenario.iso (PDict [])]
  /\ in_strings "unknown" sentinels = true.
Proof. split; vm_compute; reflexivity. Qed.

(** C6, amended: for every raw frame the router processes, each normalized
    event it emits carries the account resolved for the frame, which is a
    non-empty string of the watched set (and not a sentinel when it was found
    by the search of the frame and its payload, the frame's own [user] and
    [wallet] entries being taken as they are); a frame whose account is
    missing or not watched emits nothing. *)
Theorem emitted_events_are_watched `{Builtins}
  (handler_ok : pydict -> bool) (now_iso : string)
  (parsed : option pyval) (c : WebSocketClient) :
  exists new : list pydict,
    emitted (handle_message handler_ok now_iso parsed c) = emitted c ++ new
    /\ (forall e, In e new ->
          exists (raw : pydict) (w : string),
            parsed = Some (PDict raw)
            /\ resolve_wallet raw = PStr w
            /\ get "wallet" e = PStr w
            /\ w <> ""
            /\ In w (watched_wallets c)
            /\ (truthy (get "user" raw) = false ->
                truthy (get "wallet" raw) = false ->
                in_strings w sentinels = false))
    /\ (forall raw, parsed = Some (PDict raw) ->
          truthy (resolve_wallet raw) = false
          \/ watched (resolve_wallet raw) (watched_wallets c) = false ->
          new = []).
Proof.
  exists (message_events now_iso (watched_wallets c) parsed).
  split; [apply handle_message_emitted|]. split.
  - intros e He. unfold message_events in He.
    destruct parsed as [[| | | | | |raw]|]; try contradiction.
    destruct (get_default "channel" (PStr "unknown") raw); try contradiction.
    destruct (in_strings s event_channels); [|contradiction].
    destruct (truthy (resolve_wallet raw)) eqn:Ht; [|contradiction].
    destruct (watched (resolve_wallet raw) (watched_wallets c)) eqn:Hw;
      [|contradiction].
    cbn [andb] in He.
    apply frame_events_wallet in He as [Hwal _].
    unfold watched in Hw.
    destruct (resolve_wallet raw) eqn:Hr; try discriminate.
    exists raw, s0. repeat split; auto.
    + intros ->. discriminate.
    + now apply in_strings_In.
    + now apply resolve_wallet_fallback.
  - intros raw -> Hdrop. unfold message_events.
    destruct (get_default "channel" (PStr "unknown") raw); try reflexivity.
    destruct (in_strings s event_channels); try reflexivity.
    simpl. destruct Hdrop as [-> | ->]; [reflexivity|].
    now rewrite andb_false_r.
Qed.

End Claim6.

Section RunFacts.
Import Py WebSocket.
Context `{Builtins}.

Lemma handle_frames_failures handler_ok now_iso frames :
  forall c,
  consecutive_failures (stats (handle_frames handler_ok now_iso frames c))
  = consecutive_failures (stats c)
  /\ is_shutting_down (handle_frames handler_ok now_iso frames c)
     = is_shutting_down c.
Proof.
  unfold handle_frames. induction frames as [|m frames IH]; intros c; simpl.
  - auto.
  - destruct (IH (handle_message handler_ok now_iso m c)) as [Hf Hs].
    destruct (handle_message_emitted handler_ok now_iso m c)
      as (_ & _ & Hs' & Hf').
    cbv zeta in *. split; congruence.
Qed.

Lemma run_iteration_spec handler_ok now_iso a c :
  let '(c', d) := run_iteration handler_ok now_iso a c in
  consecutive_failures (stats c')
  = failures_after a (consecutive_failures (stats c))
  /\ is_shutting_down c' = is_shutting_down c
  /\ d = if is_subscribe_failed a || is_shutting_down c then None
         else Some (reconnect_delay (consecutive_failures (stats c'))).
Proof.
  destruct a as [|checks|frames checks|frames checks]; simpl.
  - auto.
  - auto.
  - destruct (handle_frames_failures handler_ok now_iso frames
                (with_stats (snd (connect true (stats c))) c)) as [Hf Hs].
    simpl in Hf, Hs. rewrite Hf, Hs. auto.
  - destruct (handle_frames_failures handler_ok now_iso frames
                (with_stats (snd (connect true (stats c))) c)) as [Hf Hs].
    simpl in Hf, Hs. rewrite Hf, Hs. auto.
Qed.

End RunFacts.

Section Claim7.
Import Py WebSocket.

(** C7, counterexample: (1) after three failed connects, a session that
    connects and ends without delivering any frame leaves the count at 0, not
    at 3; (2) a session that received one frame and then drops with an error,
    followed by 4 failed connects, leaves the count at 5 with delays
    2,2,2,5,5, not 4 and 2,2,2,2,5. *)
Lemma failures_do_not_follow_frames :
  let run := run (H := Scenario.builtins) (fun _ => true) Scenario.iso in
  let one_frame := Some (PDict Scenario.frame) in
  consecutive_failures
    (stats (fst (run [ConnectFailed; ConnectFailed; ConnectFailed;
                      StreamEnded [] []] (init ["A"])))) = 0
  /\ (let '(c, delays) :=
        run [StreamError [one_frame] []; ConnectFailed; ConnectFailed;
             ConnectFailed; ConnectFailed] (init ["A"]) in
      total_messages (stats c) = 1
      /\ consecutive_failures (stats c) = 5
      /\ delays = [2; 2; 2; 5; 5]).
Proof. vm_compute. auto. Qed.

(** C7, amended: consecutive_failures is reset to 0 by every successful
    connect, whether or not the session then delivers a frame; a failed
    connect adds one to it, and so does a session that ends with an exception
    (failed health checks during the session count too). Unless the client is
    shutting down or no subscription succeeded (no delay then), the delay
    before the next attempt is 2 seconds when the count is at most 3, 5
    seconds when it is at most 10, and min(30, count) otherwise. *)
Theorem failures_and_reconnect_delay `{Builtins}
  (handler_ok : pydict -> bool) (now_iso : string)
  (a : attempt) (c : WebSocketClient) :
  let c' := fst (run_iteration handler_ok now_iso a c) in
  let delay := snd (run_iteration handler_ok now_iso a c) in
  let before := consecutive_failures (stats c) in
  let after := consecutive_failures (stats c') in
  after = match a with
          | ConnectFailed => before + 1
          | SubscribeFailed checks
          | StreamEnded _ checks => connection_monitor checks 0
          | StreamError _ checks => connection_monitor checks 0 + 1
          end
  /\ (delay = None <->
      is_shutting_down c = true \/ exists checks, a = SubscribeFailed checks)
  /\ (forall d, delay = Some d ->
        (after <= 3 -> d = 2)
        /\ (3 < after <= 10 -> d = 5)
        /\ (10 < after -> d = Z.min 30 after)).
Proof.
  cbv zeta. pose proof (run_iteration_spec handler_ok now_iso a c) as Hspec.
  destruct (run_iteration handler_ok now_iso a c) as [c' d].
  destruct Hspec as (Hf & Hs & Hd). simpl. split; [|split].
  - rewrite Hf. destruct a; reflexivity.
  - rewrite Hd. destruct a; simpl; destruct (is_shutting_down c);
      split; try discriminate; eauto;
      intros [Hsd|[checks' Ha]]; discriminate.
  - intros x Hx. rewrite Hd in Hx.
    destruct (is_subscribe_failed a || is_shutting_down c);
      [discriminate|]. injection Hx as <-.
    unfold reconnect_delay.
    destruct (Z.leb_spec (consecutive_failures (stats c')) 3);
      [repeat split; intros; lia|].
    destruct (Z.leb_spec (consecutive_failures (stats c')) 10);
      repeat split; intros; lia.
Qed.

End Claim7.

(* ================================================================== *)
(** * The fingerprint and deduplication *)
(* ================================================================== *)

Section FingerprintFacts.
Import Py Engine.
Context `{Builtins}.

Lemma somes_app {A : Type} (l1 l2 : list (option A)) :
  somes (l1 ++ l2) = somes l1 ++ somes l2.
Proof.
  induction l1 as [|[x|] l1 IH]; simpl; [reflexivity| |assumption].
  now rewrite IH.
Qed.

Lemma rendered_fields (l : list pyval) :
  map str (List.filter (fun v => negb (is_none v)) l) = flat_map piece l.
Proof.
  induction l as [|v l IH]; simpl; [reflexivity|].
  unfold piece at 1. destruct (is_none v); simpl; [assumption|].
  now rewrite IH.
Qed.

Lemma piece_get (k : string) (ev : pydict) :
  piece (get k ev) = somes [rendered_key k ev].
Proof.
  unfold piece, get, get_default, rendered_key, present.
  destruct (lookup k ev) as [v|]; simpl; [|reflexivity].
  destruct (is_none v); reflexivity.
Qed.

(** The fingerprint is the fields rendered, joined by pipes. *)
Lemma fingerprint_rendering (ev : pydict) :
  _create_event_fingerprint ev = join "|" (somes (rendering ev)).
Proof.
  unfold _create_event_fingerprint. rewrite rendered_fields.
  unfold key_fields, rendering. cbn [flat_map].
  rewrite !piece_get. unfold piece, rendered_number. cbn [is_none str].
  destruct (rendered_key "type" ev), (rendered_key "wallet" ev),
    (rendered_key "coin" ev), (rendered_key "side" ev); reflexivity.
Qed.

Lemma join_somes_differ (A B : list (option string)) (x1 x2 : option string) :
  x1 <> x2 -> somes B <> [] ->
  join "|" (somes (A ++ x1 :: B)) <> join "|" (somes (A ++ x2 :: B)).
Proof.
  intros Hne HB Heq. rewrite !somes_app in Heq.
  destruct x1 as [s1|], x2 as [s2|]; simpl in Heq.
  - apply join_inj_middle in Heq. congruence.
  - apply (f_equal String.length) in Heq.
    rewrite join_length_skip in Heq; [simpl in Heq; lia|].
    intros Hnil. apply app_eq_nil in Hnil as [_ Hnil]. contradiction.
  - apply (f_equal String.length) in Heq.
    rewrite join_length_skip in Heq; [simpl in Heq; lia|].
    intros Hnil. apply app_eq_nil in Hnil as [_ Hnil]. contradiction.
  - contradiction.
Qed.

Lemma join_somes_differ_last (A : list (option string)) (s1 s2 : string) :
  s1 <> s2 ->
  join "|" (somes (A ++ [Some s1])) <> join "|" (somes (A ++ [Some s2])).
Proof.
  intros Hne Heq. rewrite !somes_app in Heq. simpl in Heq.
  apply join_inj_middle in Heq. contradiction.
Qed.

End FingerprintFacts.

Ltac somes_nonempty :=
  simpl;
  repeat match goal with
         | |- context [match ?x with _ => _ end] => destruct x
         end;
  discriminate.

Section Claim8.
Import Py Engine.

(** C8, counterexample: the events {type: userFills, wallet: A, price: 1}
    and {type: userFills, wallet: A, price: "1"} differ in the price field
    only and have the same fingerprint, "userFills|A|||1"; the fingerprint
    has five parts, not seven: the missing coin and side are left out, not
    rendered as empty. *)
Lemma fingerprint_collisions :
  let fp := _create_event_fingerprint (H := Scenario.builtins) in
  let ev1 := [("type", PStr "userFills"); ("wallet", PStr "A");
              ("price", PInt 1)] in
  let ev2 := [("type", PStr "userFills"); ("wallet", PStr "A");
              ("price", PStr "1")] in
  lookup "price" ev1 <> lookup "price" ev2
  /\ fp ev1 = fp ev2
  /\ fp ev1 = "userFills|A|||1".
Proof. repeat split; [discriminate | vm_compute; reflexivity ..]. Qed.

(** C8, amended: the fingerprint is the pipe-joined renderings of kind,
    account, coin, side (each left out when missing or null, [str] of the
    value otherwise) and of usd_value, size, price ([str] of the value, the
    empty string when missing). It is stable: events with the same
    renderings have the same fingerprint. It is distinct under a change of
    one field that changes the rendering of that field (another [str], or
    present against left out): two events whose renderings differ in exactly
    one of the seven places have different fingerprints. *)
Theorem fingerprint_stable_and_distinct `{Builtins} (ev1 ev2 : pydict) :
  (rendering ev1 = rendering ev2 ->
   _create_event_fingerprint ev1 = _create_event_fingerprint ev2)
  /\ (forall i : nat,
        (forall j : nat, j <> i -> rendering ev1 !! j = rendering ev2 !! j) ->
        rendering ev1 !! i <> rendering ev2 !! i ->
        _create_event_fingerprint ev1 <> _create_event_fingerprint ev2).
Proof.
  rewrite !fingerprint_rendering. split; [now intros ->|].
  intros i Hsame Hdiff. unfold rendering in *.
  set (a0 := rendered_key "type" ev1) in *.
  set (a1 := rendered_key "wallet" ev1) in *.
  set (a2 := rendered_key "coin" ev1) in *.
  set (a3 := rendered_key "side" ev1) in *.
  set (n4 := rendered_number "usd_value" ev1) in *.
  set (n5 := rendered_number "size" ev1) in *.
  set (n6 := rendered_number "price" ev1) in *.
  set (b0 := rendered_key "type" ev2) in *.
  set (b1 := rendered_key "wallet" ev2) in *.
  set (b2 := rendered_key "coin" ev2) in *.
  set (b3 := rendered_key "side" ev2) in *.
  set (m4 := rendered_number "usd_value" ev2) in *.
  set (m5 := rendered_number "size" ev2) in *.
  set (m6 := rendered_number "price" ev2) in *.
  clearbody a0 a1 a2 a3 n4 n5 n6 b0 b1 b2 b3 m4 m5 m6.
  pose proof (Hsame 0%nat) as H0. pose proof (Hsame 1%nat) as H1.
  pose proof (Hsame 2%nat) as H2. pose proof (Hsame 3%nat) as H3.
  pose proof (Hsame 4%nat) as H4. pose proof (Hsame 5%nat) as H5.
  pose proof (Hsame 6%nat) as H6. simpl in H0, H1, H2, H3, H4, H5, H6.
  destruct i as [|[|[|[|[|[|[|i]]]]]]]; simpl in Hdiff;
    try (exfalso; apply Hdiff; reflexivity).
  - specialize (H1 ltac:(lia)); specialize (H2 ltac:(lia));
    specialize (H3 ltac:(lia)); specialize (H4 ltac:(lia));
    specialize (H5 ltac:(lia)); specialize (H6 ltac:(lia)).
    simplify_eq.
    apply (join_somes_differ [] _ a0 b0); [congruence|].
    somes_nonempty.
  - specialize (H0 ltac:(lia)); specialize (H2 ltac:(lia));
    specialize (H3 ltac:(lia)); specialize (H4 ltac:(lia));
    specialize (H5 ltac:(lia)); specialize (H6 ltac:(lia)).
    simplify_eq.
    apply (join_somes_differ [_] _ a1 b1); [congruence|].
    somes_nonempty.
  - specialize (H0 ltac:(lia)); specialize (H1 ltac:(lia));
    specialize (H3 ltac:(lia)); specialize (H4 ltac:(lia));
    specialize (H5 ltac:(lia)); specialize (H6 ltac:(lia)).
    simplify_eq.
    apply (join_somes_differ [_; _] _ a2 b2); [congruence|].
    somes_nonempty.
  - specialize (H0 ltac:(lia)); specialize (H1 ltac:(lia));
    specialize (H2 ltac:(lia)); specialize (H4 ltac:(lia));
    specialize (H5 ltac:(lia)); specialize (H6 ltac:(lia)).
    simplify_eq.
    apply (join_somes_differ [_; _; _] _ a3 b3); [congruence|]. somes_nonempty.
  - specialize (H0 ltac:(lia)); specialize (H1 ltac:(lia));
    specialize (H2 ltac:(lia)); specialize (H3 ltac:(lia));
    specialize (H5 ltac:(lia)); specialize (H6 ltac:(lia)).
    simplify_eq.
    apply (join_somes_differ [_; _; _; _] _ (Some n4) (Some m4));
      [congruence | somes_nonempty].
  - specialize (H0 ltac:(lia)); specialize (H1 ltac:(lia));
    specialize (H2 ltac:(lia)); specialize (H3 ltac:(lia));
    specialize (H4 ltac:(lia)); specialize (H6 ltac:(lia)).
    simplify_eq.
    apply (join_somes_differ [_; _; _; _; _] _ (Some n5) (Some m5));
      [congruence | somes_nonempty].
  - specialize (H0 ltac:(lia)); specialize (H1 ltac:(lia));
    specialize (H2 ltac:(lia)); specialize (H3 ltac:(lia));
    specialize (H4 ltac:(lia)); specialize (H5 ltac:(lia)).
    simplify_eq.
    apply (join_somes_differ_last [_; _; _; _; _; _] n6 m6). congruence.
Qed.

End Claim8.

Section DedupFacts.
Import Py Engine.
Context `{Builtins} `{Formatter}.

(** What [process_event] does to the fields deduplication rests on. *)
Lemma process_event_dedup (now : Q) (now_ts : float) (ev : pydict)
  (eng : AlertEngine) :
  let dup := fst (_is_duplicate_event now ev (dedup_window_seconds eng)
                    (recent_events eng)) in
  let recent := snd (_is_duplicate_event now ev (dedup_window_seconds eng)
                       (recent_events eng)) in
  let r := fst (process_event now now_ts ev eng) in
  let eng' := snd (process_event now now_ts ev eng) in
  recent_events eng' = recent
  /\ dedup_window_seconds eng' = dedup_window_seconds eng
  /\ (dup = true -> r = Ok [] /\ evaluated eng' = evaluated eng)
  /\ (evaluated eng' = evaluated eng \/ evaluated eng' = evaluated eng ++ [ev]).
Proof.
  cbv zeta. unfold process_event.
  destruct (_is_duplicate_event now ev (dedup_window_seconds eng)
              (recent_events eng)) as [dup recent].
  destruct dup; simpl; [auto|].
  match goal with |- context [match ?t with Ok _ => _ | Raise _ => _ end] =>
    destruct t as [pc'|e] end; simpl.
  2: { repeat split; auto; discriminate. }
  destruct (Rules.evaluate_event now_ts ev (rules_engine eng))
    as [[fired rules'] ev'].
  destruct fired as [[|rule triggered]|e]; simpl;
    try (repeat split; auto; discriminate).
  destruct (record_event_processed ev'); simpl;
    repeat split; auto; discriminate.
Qed.

Lemma accepted_is_remembered (now : Q) (now_ts : float) (ev : pydict)
  (eng : AlertEngine) :
  (0 < dedup_window_seconds eng)%Q ->
  evaluated (snd (process_event now now_ts ev eng)) <> evaluated eng ->
  remembers (snd (process_event now now_ts ev eng))
            (_create_event_fingerprint ev) now.
Proof.
  intros Hw Hev.
  destruct (process_event_dedup now now_ts ev eng) as (Hrec & _ & Hdup & _).
  unfold remembers. rewrite Hrec. unfold _is_duplicate_event in *.
  destruct (match recent_events eng !! _create_event_fingerprint ev with
            | Some last_seen => Qltb (now - last_seen) (dedup_window_seconds eng)
            | None => false
            end) eqn:Hseen; simpl in *.
  - destruct Hdup as [_ Hsame]; [reflexivity | contradiction].
  - exists now. split; [|lra].
    apply map_lookup_filter_Some. split; [apply lookup_insert_eq|].
    simpl. apply Qltb_lt. lra.
Qed.

Lemma remembered_stays (now : Q) (now_ts : float) (ev : pydict)
  (eng : AlertEngine) (fp : string) (since : Q) :
  (0 <= dedup_window_seconds eng)%Q ->
  (now - since < dedup_window_seconds eng)%Q ->
  remembers eng fp since ->
  remembers (snd (process_event now now_ts ev eng)) fp since.
Proof.
  intros Hw Hclose (last_seen & Hlook & Hsince).
  destruct (process_event_dedup now now_ts ev eng) as (Hrec & _ & _ & _).
  unfold remembers. rewrite Hrec. clear Hrec.
  unfold _is_duplicate_event.
  destruct (String.eqb_spec (_create_event_fingerprint ev) fp) as [->|Hne].
  - rewrite Hlook.
    assert (Hdup : Qltb (now - last_seen) (dedup_window_seconds eng) = true)
      by (apply Qltb_lt; lra).
    rewrite Hdup. simpl. eauto.
  - destruct (match recent_events eng !! _create_event_fingerprint ev with
              | Some last => Qltb (now - last) (dedup_window_seconds eng)
              | None => false
              end); simpl; [eauto|].
    exists last_seen. split; [|assumption].
    apply map_lookup_filter_Some. split.
    + rewrite lookup_insert_ne by assumption. exact Hlook.
    + simpl. apply Qltb_lt. lra.
Qed.

Lemma remembered_is_duplicate (now : Q) (now_ts : float) (ev : pydict)
  (eng : AlertEngine) (since : Q) :
  (now - since < dedup_window_seconds eng)%Q ->
  remembers eng (_create_event_fingerprint ev) since ->
  fst (process_event now now_ts ev eng) = Ok []
  /\ evaluated (snd (process_event now now_ts ev eng)) = evaluated eng.
Proof.
  intros Hclose (last_seen & Hlook & Hsince).
  destruct (process_event_dedup now now_ts ev eng) as (_ & _ & Hdup & _).
  apply Hdup. unfold _is_duplicate_event. rewrite Hlook.
  assert (Hd : Qltb (now - last_seen) (dedup_window_seconds eng) = true)
    by (apply Qltb_lt; lra).
  now rewrite Hd.
Qed.

Lemma run_events_cons now now_ts ev rest eng :
  run_events ((now, now_ts, ev) :: rest) eng
  = ((fst (process_event now now_ts ev eng),
      (length (evaluated eng)
       <? length (evaluated (snd (process_event now now_ts ev eng))))%nat)
     :: fst (run_events rest (snd (process_event now now_ts ev eng))),
     snd (run_events rest (snd (process_event now now_ts ev eng)))).
Proof.
  simpl. destruct (process_event now now_ts ev eng) as [r eng']. simpl.
  destruct (run_events rest eng') as [rs eng'']. reflexivity.
Qed.

(** While a fingerprint is remembered, an event with it is a duplicate. *)
Lemma remembered_rejects (w : Q) (fp : string) (since : Q) :
  (0 <= w)%Q ->
  forall (rest : list (Q * float * pydict)) (eng : AlertEngine) (j : nat)
         (tj : Q) (tsj : float) (ej : pydict),
  dedup_window_seconds eng = w ->
  remembers eng fp since ->
  rest !! j = Some (tj, tsj, ej) ->
  _create_event_fingerprint ej = fp ->
  (tj - since < w)%Q ->
  (forall k tk tsk ek, (k < j)%nat -> rest !! k = Some (tk, tsk, ek) ->
                       (tk <= tj)%Q) ->
  fst (run_events rest eng) !! j = Some (Ok [], false).
Proof.
  intros Hw. induction rest as [|[[tk tsk] ek] rest IH];
    intros eng j tj tsj ej Hwin Hrem Hj Hfp Hclose Hbefore; [discriminate|].
  rewrite run_events_cons. destruct j as [|j]; simpl in Hj |- *.
  - injection Hj as -> -> ->. subst fp.
    destruct (remembered_is_duplicate tj tsj ej eng since) as [-> ->];
      [rewrite Hwin; lra | assumption |].
    now rewrite Nat.ltb_irrefl.
  - destruct (process_event_dedup tk tsk ek eng) as (_ & Hwin' & _ & _).
    cbv zeta in Hwin'.
    assert (Htk : (tk <= tj)%Q) by (apply (Hbefore 0%nat tk tsk ek); [lia|reflexivity]).
    eapply IH; eauto.
    + congruence.
    + apply remembered_stays; [rewrite Hwin; lra | rewrite Hwin; lra | assumption].
    + intros k tk' tsk' ek' Hk Hlook.
      apply (Hbefore (S k) tk' tsk' ek'); [lia | exact Hlook].
Qed.

End DedupFacts.

Section Claim3.
Import Py Engine.

(** C3: the engine processes a sequence of events whose clock readings never
    go back, with the deduplication window at 30 seconds. If two of the
    events have the same fingerprint, the later is processed less than 30
    seconds after the earlier, and the earlier was handed to the rules
    engine, then the later is not: [process_event] returns the empty list
    for it and does not call the rules engine. *)
Theorem duplicate_never_reaches_rules `{Builtins} `{Formatter}
  (trace : list (Q * float * pydict)) (eng : AlertEngine)
  (i j : nat) (ti tj : Q) (tsi tsj : float) (ei ej : pydict)
  (ri : res (list Notification)) :
  dedup_window_seconds eng = 30%Q ->
  nondecreasing (map (fun x => fst (fst x)) trace) ->
  (i < j)%nat ->
  trace !! i = Some (ti, tsi, ei) ->
  trace !! j = Some (tj, tsj, ej) ->
  _create_event_fingerprint ei = _create_event_fingerprint ej ->
  (tj - ti < 30)%Q ->
  fst (run_events trace eng) !! i = Some (ri, true) ->
  fst (run_events trace eng) !! j = Some (Ok [], false).
Proof.
  revert eng i j.
  induction trace as [|[[tk tsk] ek] rest IH];
    intros eng i j Hwin Hmono Hij Hi Hj Hfp Hclose Hreached; [discriminate|].
  rewrite run_events_cons in Hreached |- *.
  destruct (process_event_dedup tk tsk ek eng) as (_ & Hwin' & _ & Hev).
  cbv zeta in Hwin', Hev.
  destruct j as [|j]; [lia|]. simpl in Hj |- *.
  destruct i as [|i]; simpl in Hi, Hreached.
  - injection Hi as -> -> ->. injection Hreached as Hri Hgrew.
    apply Nat.ltb_lt in Hgrew.
    assert (Hpos : (0 <= 30)%Q) by lra.
    apply (remembered_rejects 30%Q (_create_event_fingerprint ei) ti
             Hpos rest _ j tj tsj ej).
    + congruence.
    + apply accepted_is_remembered; [rewrite Hwin; lra|].
      intros Hsame. rewrite Hsame in Hgrew. lia.
    + exact Hj.
    + now symmetry.
    + exact Hclose.
    + intros k tk' tsk' ek' Hk Hlook.
      apply (Hmono (S k) (S j)); [lia | |]; simpl;
        rewrite list_lookup_fmap; [rewrite Hlook | rewrite Hj]; reflexivity.
  - eapply (IH _ i j); eauto.
    + congruence.
    + intros a b x y Hab Ha Hb. apply (Hmono (S a) (S b)); [lia | |]; assumption.
    + lia.
Qed.

(** C3, witness: the payload of scenario 1 processed twice, 10 seconds
    apart. *)
Lemma duplicate_never_reaches_rules_witness :
  let eng := init [] (Some Classifier.default_thresholds) in
  let trace := [(0%Q, 1700000000%float, Scenario.payload);
                (10%Q, 1700000010%float, Scenario.payload)] in
  fst (run_events (H := Scenario.builtins) (H0 := Scenario.formatter)
         trace eng) !! 1%nat
  = Some (Ok [], false).
Proof.
  cbv zeta.
  apply (duplicate_never_reaches_rules (H := Scenario.builtins)
           (H0 := Scenario.formatter) _ _ 0%nat 1%nat 0%Q 10%Q
           1700000000%float 1700000010%float Scenario.payload Scenario.payload
           (fst (process_event (H := Scenario.builtins)
                   (H0 := Scenario.formatter) 0%Q 1700000000%float
                   Scenario.payload
                   (init [] (Some Classifier.default_thresholds))))).
  - reflexivity.
  - intros a b x y Hab Ha Hb.
    destruct a as [|[|a]], b as [|[|b]]; simpl in Ha, Hb;
      try discriminate; try lia;
      injection Ha as <-; injection Hb as <-; lra.
  - lia.
  - reflexivity.
  - reflexivity.
  - reflexivity.
  - lra.
  - vm_compute. reflexivity.
Defined.

End Claim3.

(* ================================================================== *)
(** * The rate limiter *)
(* ================================================================== *)

Section LimiterFacts.
Import Py RateLimiter.

(** The window strategies never record a request: an entry without requests
    stays without, and passes the admission test. *)
Lemma window_admission_never_denies (cfg : RateLimitConfig) (now : Q)
  (s : ChannelStats) :
  strategy cfg = SLIDING_WINDOW \/ strategy cfg = FIXED_WINDOW ->
  0 < max_requests cfg ->
  requests s = [] ->
  admission cfg now s = (Ok (true, 0%Q), s).
Proof.
  intros Hs Hmax Hreq. unfold admission. destruct s as [reqs tk lr].
  simpl in Hreq. subst reqs.
  destruct Hs as [-> | ->]; simpl; change (Z.of_nat 0) with 0;
    destruct (Z.leb_spec (max_requests cfg) 0); (lia || reflexivity).
Qed.

End LimiterFacts.

Section PendingFacts.
Import Py RateLimiter.
Context {E : Type}.
Abbreviation pending := (list (string * list (PendingEvent E))).

Lemma pending_get_In (key : string) (p : pending) :
  pending_get key p = None <-> ~ In key (map fst p).
Proof.
  induction p as [|[k evs] p IH]; simpl; [tauto|].
  destruct (String.eqb_spec key k) as [->|Hne].
  - split; [discriminate | intros Hn; exfalso; apply Hn; auto].
  - rewrite IH. split; [intros Hn [Heq|Hin]; congruence | tauto].
Qed.

Lemma pending_del_absent (key : string) (p : pending) :
  pending_get key p = None -> pending_del key p = p.
Proof.
  induction p as [|[k evs] p IH]; simpl; [reflexivity|].
  destruct (String.eqb key k); [discriminate|]. intros Hn. now rewrite IH.
Qed.

Lemma pending_del_keys (key : string) (p : pending) (k : string) :
  In k (map fst (pending_del key p)) -> In k (map fst p).
Proof.
  induction p as [|[k0 evs] p IH]; simpl; [tauto|].
  destruct (String.eqb key k0); simpl; tauto.
Qed.

Lemma pending_del_NoDup (key : string) (p : pending) :
  NoDup (map fst p) -> NoDup (map fst (pending_del key p)).
Proof.
  induction p as [|[k evs] p IH]; simpl; [auto|].
  intros Hnd. apply NoDup_cons in Hnd as [Hk Hnd].
  destruct (String.eqb key k); simpl; [assumption|].
  apply NoDup_cons. split; [|auto].
  intros Hin. apply Hk. apply list_elem_of_In. apply list_elem_of_In in Hin.
  eapply pending_del_keys; eauto.
Qed.

Lemma pending_get_del_same (key : string) (p : pending) :
  NoDup (map fst p) -> pending_get key (pending_del key p) = None.
Proof.
  induction p as [|[k evs] p IH]; simpl; [reflexivity|].
  intros Hnd. apply NoDup_cons in Hnd as [Hk Hnd].
  destruct (String.eqb_spec key k) as [->|Hne].
  - apply pending_get_In. intros Hin. apply Hk. now apply list_elem_of_In.
  - simpl. destruct (String.eqb_spec key k); [contradiction | auto].
Qed.

Lemma pending_get_del_other (key k : string) (p : pending) :
  k <> key -> pending_get k (pending_del key p) = pending_get k p.
Proof.
  intros Hne. induction p as [|[k0 evs] p IH]; simpl; [reflexivity|].
  destruct (String.eqb_spec key k0) as [->|Hk0]; simpl.
  - destruct (String.eqb_spec k k0); [contradiction | reflexivity].
  - destruct (String.eqb k k0); [reflexivity | assumption].
Qed.

Lemma pending_get_set_same (key : string) (evs : list (PendingEvent E))
  (p : pending) :
  pending_get key (pending_set key evs p) = Some evs.
Proof.
  induction p as [|[k0 evs0] p IH]; simpl.
  - now rewrite String.eqb_refl.
  - destruct (String.eqb_spec key k0) as [->|Hne]; simpl.
    + now rewrite String.eqb_refl.
    + destruct (String.eqb_spec key k0); [contradiction | assumption].
Qed.

Lemma pending_set_keys (key : string) (evs : list (PendingEvent E))
  (p : pending) :
  map fst (pending_set key evs p)
  = match pending_get key p with
    | Some _ => map fst p
    | None => map fst p ++ [key]
    end.
Proof.
  induction p as [|[k0 evs0] p IH]; simpl; [reflexivity|].
  destruct (String.eqb_spec key k0) as [->|Hne]; simpl; [reflexivity|].
  rewrite IH. destruct (pending_get key p); reflexivity.
Qed.

End PendingFacts.

Section SortFacts.
Context {A : Type} (prio : A -> Z).
Import RateLimiter.

Lemma insert_desc_In (x y : A) (l : list A) :
  In x (insert_desc prio y l) <-> x = y \/ In x l.
Proof.
  induction l as [|z l IH]; simpl; [intuition|].
  destruct (prio y <? prio z); simpl; [rewrite IH|]; intuition.
Qed.

Lemma sort_desc_In (x : A) (l : list A) :
  In x (sort_desc prio l) <-> In x l.
Proof.
  induction l as [|z l IH]; simpl; [tauto|].
  rewrite insert_desc_In, IH. intuition.
Qed.

End SortFacts.

(* ================================================================== *)
(** * The dispatcher *)
(* ================================================================== *)

Section RetryFacts.
Import Py Dispatcher.




End RetryFacts.

Section DeferFacts.
Import Py Dispatcher.
Context `{Builtins}.

Lemma limiter_get_set ch rl ls :
  limiter_get ch (limiter_set ch rl ls)
  = match limiter_get ch ls with Some _ => Some rl | None => None end.
Proof.
  induction ls as [|[k rl0] ls IH]; simpl; [reflexivity|].
  destruct (String.eqb_spec ch k) as [->|Hne]; simpl.
  - now rewrite String.eqb_refl.
  - destruct (String.eqb_spec ch k); [contradiction | assumption].
Qed.

End DeferFacts.

Section DispatchFacts.
Import Py Dispatcher.
Context `{Builtins}.

Lemma send_to_channel_names env now ch wallet c n w :
  channel (fst (_send_to_channel env now ch wallet c n w)) = ch.
Proof.
  unfold _send_to_channel, send_now, send_failed.
  destruct (limiter_get ch (rate_limiters w)) as [rl|].
  - destruct (RateLimiter.can_send_request now ch wallet rl)
      as [[[[|] wt]|e] rl']; simpl.
    + destruct (_send_notification_to_channel _ _ _ _) as [[|] w1]; reflexivity.
    + destruct (RateLimiter.add_pending_event _ _ _ _ _ _) as [[[]|e] rl''];
        reflexivity.
    + reflexivity.
  - destruct (_send_notification_to_channel _ _ _ _) as [[|] w1]; reflexivity.
Qed.

(** [dispatch_notification] answers with one result per enabled channel that
    has formatted content, in the order of [channel_availability]. *)
Lemma dispatch_channels_names env now n (chs : list (string * bool)) :
  forall w,
  map channel (fst (dispatch_channels env now n chs w))
  = map fst
      (List.filter
         (fun kv => snd kv
                    && match lookup (fst kv) (Engine.formatted n) with
                       | Some _ => true
                       | None => false
                       end)
         chs).
Proof.
  induction chs as [|[ch en] chs IH]; intros w; simpl; [reflexivity|].
  destruct en; simpl; [|apply IH].
  destruct (lookup ch (Engine.formatted n)) as [c|]; [|apply IH].
  pose proof (send_to_channel_names env now ch
                (Engine.wallet (Engine.context n)) c n w) as Hch.
  destruct (_send_to_channel env now ch (Engine.wallet (Engine.context n)) c n w)
    as [r w1].
  specialize (IH w1). destruct (dispatch_channels env now n chs w1) as [rs w2].
  simpl in *. now rewrite Hch, IH.
Qed.

End DispatchFacts.

(* ================================================================== *)
(** * The dispatcher's claims *)
(* ================================================================== *)

Section Claim1.
Import Py Dispatcher.

(** C1, the code at the failing input: 11 sends of one notification to
    Discord, one per second, with the default sliding window of 10 requests
    per 60 seconds. The claim has at most 10 of them sent and the 11th
    deferred; the code sends all 11 and defers none, because the window
    strategies never record a request ([window_admission_never_denies]). *)
Theorem eleven_discord_sends_all_sent :
  let w0 := init_world (init true false false false) in
  let times := [0; 1; 2; 3; 4; 5; 6; 7; 8; 9; 10]%Q in
  let '(results, w) :=
    dispatch_at (H := Scenario.builtins) (fun _ => true) times
      (Scenario.notification "0x1234567890abcdef") w0 in
  length (sent w) = 11%nat
  /\ notifications_sent (stats (dispatcher w)) = 11
  /\ rate_limited (stats (dispatcher w)) = 0
  /\ Forall (fun rs => map success rs = [true]) results.
Proof.
  vm_compute. split; [reflexivity|]. split; [reflexivity|].
  split; [reflexivity|]. repeat constructor.
Qed.

End Claim1.

Section Claim5.
Import Py Dispatcher.




End Claim5.

Section Claim9.
Import Py.

(** C9, counterexample: for the payload of the frame, price 50000 and size
    25, the classifier with the default thresholds assigns whale, not large:
    the value is 1,250,000 USD. (For the event the router emits, which holds
    the payload under [data], it assigns no class at all.) *)
Lemma scenario_one_is_not_large :
  let c := WebSocket.handle_message (H := Scenario.builtins) (fun _ => true)
             Scenario.iso (Some (PDict Scenario.frame)) (WebSocket.init ["A"]) in
  let classify :=
    Classifier.classify_position (H := Scenario.builtins)
      Classifier.default_thresholds in
  classify Scenario.payload = Some Classifier.WHALE
  /\ classify Scenario.payload <> Some Classifier.LARGE
  /\ map classify (WebSocket.emitted c) = [None].
Proof.
  cbv zeta. split; [vm_compute; reflexivity|].
  split; [vm_compute; discriminate | vm_compute; reflexivity].
Qed.

(** C9, amended: for the frame {channel: userFills, user: A, data: {coin:
    BTC, side: buy, price: 50000, size: 25}} with A watched, exactly one
    normalized event is produced, which carries the payload; for the payload
    and the default thresholds the USD value is 1,250,000, the classifier
    assigns the size class whale, and the rules engine fires large_position
    (with whale_position, medium_position, notable_position and
    unusual_volume); each notification created for it is dispatched with one
    result per enabled channel. *)
Theorem scenario_one_whale_alerts :
  let c := WebSocket.handle_message (H := Scenario.builtins) (fun _ => true)
             Scenario.iso (Some (PDict Scenario.frame)) (WebSocket.init ["A"]) in
  let eng := Engine.init [] (Some Classifier.default_thresholds) in
  let result :=
    fst (Engine.process_event (H := Scenario.builtins)
           (H0 := Scenario.formatter) 0 1700000000%float Scenario.payload eng) in
  WebSocket.emitted c
  = [WebSocket.make_event "userFills" (PStr "A") Scenario.iso
       (PDict Scenario.payload)]
  /\ Classifier._extract_usd_value (H := Scenario.builtins) Scenario.payload
     = Ok (Some 1250000%float)
  /\ Classifier.classify_position (H := Scenario.builtins)
       Classifier.default_thresholds Scenario.payload
     = Some Classifier.WHALE
  /\ (exists notifications,
        result = Ok notifications
        /\ map Engine.rule_name notifications
           = ["whale_position"; "large_position"; "medium_position";
              "notable_position"; "unusual_volume"]
        /\ forall n, In n notifications ->
           forall env now discord telegram email webhook,
             map Dispatcher.channel
               (fst (Dispatcher.dispatch_notification (H := Scenario.builtins)
                       env now n
                       (Dispatcher.init_world
                          (Dispatcher.init discord telegram email webhook))))
             = map fst
                 (List.filter snd
                    [("discord", discord); ("telegram", telegram);
                     ("email", email); ("webhook", webhook)])).
Proof.
  cbv zeta. split; [vm_compute; reflexivity|].
  split; [vm_compute; reflexivity|].
  split; [vm_compute; reflexivity|].
  eexists. split; [vm_compute; reflexivity|].
  split; [reflexivity|].
  intros n Hn env now d t e h.
  unfold Dispatcher.dispatch_notification.
  rewrite dispatch_channels_names.
  cbn [In] in Hn.
  destruct Hn as [<-|[<-|[<-|[<-|[<-|[]]]]]];
    destruct d, t, e, h; reflexivity.
Qed.

End Claim9.

(* ================================================================== *)
(** * The order of binary64 values *)
(* ================================================================== *)

Section FloatOrder.

Ltac cmp_cases :=
  repeat match goal with
  | |- context [(?a ?= ?b)%Z] => destruct (Z.compare_spec a b)
  | H : context [(?a ?= ?b)%Z] |- _ => destruct (Z.compare_spec a b)
  | |- context [Pos.compare_cont Eq ?a ?b] =>
      change (Pos.compare_cont Eq a b) with (Pos.compare a b);
      destruct (Pos.compare_spec a b)
  | H : context [Pos.compare_cont Eq ?a ?b] |- _ =>
      change (Pos.compare_cont Eq a b) with (Pos.compare a b) in H;
      destruct (Pos.compare_spec a b)
  end.

Ltac float_cases a b c :=
  destruct a as [?|?| |? ? ?], b as [?|?| |? ? ?], c as [?|?| |? ? ?]; simpl;
  try discriminate; try reflexivity;
  repeat match goal with s : bool |- _ => destruct s end; simpl;
  try discriminate; try reflexivity;
  cmp_cases; simpl; try discriminate; try reflexivity; intros; exfalso; lia.

Lemma SFleb_trans (a b c : spec_float) :
  SFleb a b = true -> SFleb b c = true -> SFleb a c = true.
Proof. unfold SFleb. float_cases a b c. Qed.

Lemma SFltb_leb_trans (a b c : spec_float) :
  SFltb a b = true -> SFleb b c = true -> SFleb a c = true.
Proof. unfold SFleb, SFltb. float_cases a b c. Qed.

Lemma float_leb_trans (x y z : float) :
  PrimFloat.leb x y = true -> PrimFloat.leb y z = true ->
  PrimFloat.leb x z = true.
Proof. rewrite !leb_spec. apply SFleb_trans. Qed.

Lemma float_ltb_leb_trans (x y z : float) :
  PrimFloat.ltb x y = true -> PrimFloat.leb y z = true ->
  PrimFloat.leb x z = true.
Proof. rewrite ltb_spec, !leb_spec. apply SFltb_leb_trans. Qed.

End FloatOrder.

(* ================================================================== *)
(** * The classifier: bands, monotonicity, confidence, history *)
(* ================================================================== *)

Section ClassifierBands.
Import Py Classifier.

(** X1: whatever the thresholds, ordered or not, a larger USD value never
    gets a smaller class: the ladder of [classify_position] tests the
    thresholds from the top, and a value passes every test a smaller value
    passes. *)
Theorem size_of_monotone (th : PositionThresholds) (u v : float) :
  PrimFloat.leb u v = true ->
  (rank (size_of th u) <= rank (size_of th v))%nat.
Proof.
  intros Huv. unfold size_of.
  pose proof (fun t H => float_leb_trans t u v H Huv) as Hup.
  destruct (PrimFloat.leb (whale_threshold th) u) eqn:Hw;
    [rewrite (Hup _ Hw); simpl; lia|].
  destruct (PrimFloat.leb (large_threshold th) u) eqn:Hl;
    [rewrite (Hup _ Hl); destruct (PrimFloat.leb (whale_threshold th) v);
     simpl; lia|].
  destruct (PrimFloat.leb (medium_threshold th) u) eqn:Hm;
    [rewrite (Hup _ Hm); destruct (PrimFloat.leb (whale_threshold th) v),
       (PrimFloat.leb (large_threshold th) v); simpl; lia|].
  destruct (PrimFloat.leb (notable_threshold th) u) eqn:Hn;
    [rewrite (Hup _ Hn); destruct (PrimFloat.leb (whale_threshold th) v),
       (PrimFloat.leb (large_threshold th) v),
       (PrimFloat.leb (medium_threshold th) v); simpl; lia|].
  simpl. lia.
Qed.

(** X1, witness: 50,000 and 1,250,000 USD under the default thresholds. *)
Lemma size_of_monotone_witness :
  (rank (size_of default_thresholds 50000%float)
   <= rank (size_of default_thresholds 1250000%float))%nat.
Proof. apply size_of_monotone. reflexivity. Defined.

(** X2: when the thresholds are ordered (notable < medium < large < whale)
    each class is the band between two neighbouring thresholds: whale from
    the whale threshold up, large from the large threshold to below the whale
    threshold, and so on down to small, below the notable threshold. *)
Theorem size_of_bands (th : PositionThresholds) (u : float) :
  ordered th = true ->
  (size_of th u = WHALE <-> PrimFloat.leb (whale_threshold th) u = true) /\
  (size_of th u = LARGE <->
     PrimFloat.leb (large_threshold th) u = true /\
     PrimFloat.leb (whale_threshold th) u = false) /\
  (size_of th u = MEDIUM <->
     PrimFloat.leb (medium_threshold th) u = true /\
     PrimFloat.leb (large_threshold th) u = false) /\
  (size_of th u = NOTABLE <->
     PrimFloat.leb (notable_threshold th) u = true /\
     PrimFloat.leb (medium_threshold th) u = false) /\
  (size_of th u = SMALL <-> PrimFloat.leb (notable_threshold th) u = false).
Proof.
  unfold ordered. rewrite !andb_true_iff. intros [[Hnm Hml] Hlw].
  pose proof (float_ltb_leb_trans _ _ u Hnm) as Hn.
  pose proof (float_ltb_leb_trans _ _ u Hml) as Hm.
  pose proof (float_ltb_leb_trans _ _ u Hlw) as Hl.
  unfold size_of.
  destruct (PrimFloat.leb (whale_threshold th) u);
    destruct (PrimFloat.leb (large_threshold th) u);
    destruct (PrimFloat.leb (medium_threshold th) u);
    destruct (PrimFloat.leb (notable_threshold th) u);
    try (specialize (Hn eq_refl)); try (specialize (Hm eq_refl));
    try (specialize (Hl eq_refl)); try discriminate;
    repeat split; intros; try discriminate; try reflexivity;
    try match goal with H : _ /\ _ |- _ => destruct H; discriminate end.
Qed.

(** X2, witness: the default thresholds and 50,000 USD, a medium position. *)
Lemma size_of_bands_witness :
  size_of default_thresholds 50000%float = MEDIUM <->
  PrimFloat.leb 10000%float 50000%float = true /\
  PrimFloat.leb 100000%float 50000%float = false.
Proof.
  exact (proj1 (proj2 (proj2 (size_of_bands default_thresholds 50000%float
                                eq_refl)))).
Defined.

End ClassifierBands.

Section ClassifierAnalysis.
Import Py Classifier.

Lemma float_neq_by_leb (a b c : float) :
  PrimFloat.leb c a <> PrimFloat.leb c b -> a <> b.
Proof. intros Hne ->. now apply Hne. Qed.

(** X3: the confidence score lies between 0 and 1, and it is 1 exactly when
    the event gives both a price and a size and its USD value is not below
    100; a missing price or size, or a value below 100, lowers it for good
    (the whale bonus never brings it back to 1). *)
Theorem confidence_bounds `{Builtins} (th : PositionThresholds) (ev : pydict)
  (usd c : float) :
  _calculate_confidence th ev usd = Ok c ->
  PrimFloat.leb 0 c = true /\ PrimFloat.leb c 1 = true /\
  (c = 1%float <->
   (exists p s, _extract_price ev = Ok (Some p) /\
                _extract_size ev = Ok (Some s)) /\
   PrimFloat.ltb usd 100 = false).
Proof.
  unfold _calculate_confidence.
  destruct (_extract_price ev) as [[p|]|e]; simpl; [| |discriminate].
  - destruct (_extract_size ev) as [[s|]|e]; simpl; [| |discriminate];
      destruct (PrimFloat.ltb usd 100), (PrimFloat.leb (whale_threshold th) usd);
      intros [= <-]; (split; [vm_compute; reflexivity|]);
      (split; [vm_compute; reflexivity|]);
      (split; [intros Hc | intros [(p' & s' & Hp & Hs) Hlt]]);
      try discriminate; try (vm_compute; reflexivity);
      try (split; [eauto | reflexivity]);
      try (exfalso; revert Hc; apply (float_neq_by_leb _ _ 1%float);
           vm_compute; discriminate).
  - destruct (PrimFloat.ltb usd 100), (PrimFloat.leb (whale_threshold th) usd);
      intros [= <-]; (split; [vm_compute; reflexivity|]);
      (split; [vm_compute; reflexivity|]);
      (split; [intros Hc | intros [(p' & s' & Hp & Hs) Hlt]]);
      try discriminate;
      try (exfalso; revert Hc; apply (float_neq_by_leb _ _ 1%float);
           vm_compute; discriminate).
Qed.

(** X3, witness: the payload of scenario 1, worth 1,250,000 USD, has the
    confidence 1. *)
Lemma confidence_bounds_witness :
  PrimFloat.leb 0 1 = true /\ PrimFloat.leb 1 1 = true /\
  (1%float = 1%float <->
   (exists p s,
      _extract_price (H := Scenario.builtins) Scenario.payload = Ok (Some p) /\
      _extract_size (H := Scenario.builtins) Scenario.payload = Ok (Some s)) /\
   PrimFloat.ltb 1250000 100 = false).
Proof.
  apply (confidence_bounds (H := Scenario.builtins) default_thresholds).
  vm_compute. reflexivity.
Defined.

(** X4: an analysis agrees with the classification: when [analyze_position]
    returns one, its USD value is the value the classifier extracts, and it
    is not [<= 0], that is above 0 or a NaN; its class is the class
    [classify_position] gives the event, and its confidence lies between 0
    and 1. *)
Theorem analyze_position_consistent `{Builtins} (th : PositionThresholds) (ev : pydict)
  (a : PositionAnalysis) :
  analyze_position th ev = Some a ->
  _extract_usd_value ev = Ok (Some (usd_value a)) /\
  PrimFloat.leb (usd_value a) 0 = false /\
  classify_position th ev = Some (size_class a) /\
  size_class a = size_of th (usd_value a) /\
  PrimFloat.leb 0 (confidence a) = true /\
  PrimFloat.leb (confidence a) 1 = true /\
  (PrimFloat.ltb 0 (usd_value a) = true
   \/ PrimFloat.is_nan (usd_value a) = true).
Proof.
  unfold analyze_position, classify_position.
  destruct (_extract_usd_value ev) as [[u|]|e]; simpl; try discriminate.
  destruct (PrimFloat.leb u 0) eqn:Hu; simpl; [discriminate|].
  destruct (_calculate_confidence th ev u) as [c|e] eqn:Hc; simpl;
    [|discriminate].
  destruct (_analyze_factors ev u) as [f|e]; simpl; [|discriminate].
  intros [= <-]. simpl.
  destruct (confidence_bounds _ _ _ _ Hc) as (H0 & H1 & _).
  pose proof (proj1 (float_not_le_zero u) Hu). auto 10.
Qed.

(** X4, witness: the payload of scenario 1 under the default thresholds. *)
Lemma analyze_position_consistent_witness :
  exists a,
    analyze_position (H := Scenario.builtins) default_thresholds
      Scenario.payload = Some a /\
    size_class a = size_of default_thresholds (usd_value a).
Proof.
  destruct (analyze_position (H := Scenario.builtins) default_thresholds
              Scenario.payload) as [a|] eqn:Ha; [|vm_compute in Ha; discriminate].
  exists a. split; [reflexivity|].
  exact (proj1 (proj2 (proj2 (proj2
    (analyze_position_consistent (H := Scenario.builtins) _ _ _ Ha))))).
Defined.

End ClassifierAnalysis.

Section ClassifierHistory.
Import Py Classifier.

Lemma history_get_set_same (w : string) (l : list PositionSize) (h : history) :
  history_get (PStr w) (history_set (PStr w) l h) = Some l.
Proof.
  induction h as [|[w' l'] h IH]; cbn [history_get history_set].
  - simpl. now rewrite String.eqb_refl.
  - destruct (Py.eqb (PStr w) w') eqn:E; cbn [history_get]; rewrite E;
      [reflexivity|exact IH].
Qed.

Lemma history_get_set_other (w w' : string) (l : list PositionSize)
  (h : history) :
  w' <> w ->
  history_get (PStr w') (history_set (PStr w) l h) = history_get (PStr w') h.
Proof.
  intros Hne. induction h as [|[k l'] h IH]; cbn [history_get history_set].
  - simpl. apply String.eqb_neq in Hne. now rewrite Hne.
  - destruct (Py.eqb (PStr w) k) eqn:E; cbn [history_get].
    + destruct k; simpl in E; try discriminate.
      apply String.eqb_eq in E. subst s. simpl.
      apply String.eqb_neq in Hne. now rewrite Hne.
    + now rewrite IH.
Qed.

Lemma last_n_length {A : Type} (n : nat) (l : list A) :
  (length (last_n n l) <= n)%nat.
Proof. unfold last_n. rewrite length_skipn. lia. Qed.

Lemma last_n_snoc {A : Type} (n : nat) (l : list A) (x : A) :
  (0 < n)%nat -> exists l', last_n n (l ++ [x]) = l' ++ [x].
Proof.
  intros Hn. unfold last_n. rewrite length_app. simpl.
  rewrite skipn_app.
  replace (length l + 1 - n - length l)%nat with 0%nat by lia. simpl.
  eauto.
Qed.

(** X5: [track_classification] keeps, per wallet, the classes seen with the
    newest last and never more than 100 of them, and leaves the history of
    every other wallet as it is. *)
Theorem track_classification_bounded (w : string) (c : PositionSize)
  (h : history) :
  exists h' l,
    track_classification (PStr w) c h = Ok h' /\
    history_get (PStr w) h' = Some (l ++ [c]) /\
    (length (l ++ [c]) <= 100)%nat /\
    (forall w', w' <> w ->
       history_get (PStr w') h' = history_get (PStr w') h).
Proof.
  unfold track_classification. simpl.
  set (old := match history_get (PStr w) h with Some l => l | None => [] end).
  destruct (100 <? length (old ++ [c]))%nat eqn:Hlen.
  - destruct (last_n_snoc 100 old c) as [l' Hl']; [lia|].
    exists (history_set (PStr w) (last_n 100 (old ++ [c])) h), l'.
    split; [reflexivity|]. rewrite history_get_set_same, <- Hl'.
    split; [reflexivity|]. split; [apply last_n_length|].
    intros w' Hne. now apply history_get_set_other.
  - exists (history_set (PStr w) (old ++ [c]) h), old.
    split; [reflexivity|]. rewrite history_get_set_same.
    split; [reflexivity|]. apply Nat.ltb_ge in Hlen. split; [exact Hlen|].
    intros w' Hne. now apply history_get_set_other.
Qed.

End ClassifierHistory.

(* ================================================================== *)
(** * The rules engine: statistics, history, switches *)
(* ================================================================== *)

Section RulesStats.
Import Py Rules.
Context `{Builtins}.

Lemma update_rule_stats_ok (now : float) (r : AlertRule) (b : bool)
  (stats : gmap string RuleStats) :
  is_Some (stats !! name r) ->
  exists s s',
    stats !! name r = Some s /\
    _update_rule_stats now r b stats = Ok (<[name r := s']> stats) /\
    total_events s' = total_events s + 1 /\
    triggered_count s' = triggered_count s + (if b then 1 else 0).
Proof.
  intros [s Hs]. unfold _update_rule_stats. rewrite Hs.
  eexists s, _. split; [reflexivity|]. split; [reflexivity|]. simpl.
  split; [reflexivity|]. destruct b; lia.
Qed.

Lemma named_cons (n : string) (r : AlertRule) (rs : list AlertRule) :
  named n (r :: rs) = (if String.eqb (name r) n then 1 else 0) + named n rs.
Proof.
  unfold named. simpl. destruct (String.eqb (name r) n); simpl length; lia.
Qed.

(** The loop of [evaluate_event] on statistics that cover the rules: it
    returns, and every name's counters go up by the number of enabled rules
    of that name, and by the number of them that fired. *)
Lemma evaluate_rules_counts (now : float) (history : list pydict)
  (ev : pydict) (rs : list AlertRule) :
  forall stats fired0,
  Forall (fun r => is_Some (stats !! name r)) rs ->
  exists fired stats',
    evaluate_rules now history ev rs stats fired0 = (Ok fired, stats') /\
    forall n s, stats !! n = Some s ->
      exists s', stats' !! n = Some s' /\
        total_events s' =
          total_events s + named n (List.filter enabled rs) /\
        triggered_count s' =
          triggered_count s
          + named n (List.filter (fun r => enabled r && hit now history ev r) rs).
Proof.
  induction rs as [|r rs IH]; intros stats fired0 Hcov.
  - exists fired0, stats. split; [reflexivity|]. intros n s Hs.
    exists s. unfold named. simpl. split; [exact Hs|]. lia.
  - apply Forall_cons_iff in Hcov as [Hr Hrs]. simpl.
    destruct (enabled r) eqn:Hen; simpl.
    + fold (hit now history ev r).
      destruct (update_rule_stats_ok now r (hit now history ev r) stats Hr)
        as (s0 & s0' & Hs0 & Hupd & Htot & Htrig).
      rewrite Hupd.
      destruct (IH (<[name r := s0']> stats)
                  (if hit now history ev r then fired0 ++ [r] else fired0))
        as (fired & stats' & Hev & Hcount).
      { eapply Forall_impl; [exact Hrs|]. intros r' [s' Hs'].
        destruct (decide (name r = name r')) as [E|E].
        - rewrite <- E, lookup_insert_eq. eauto.
        - rewrite lookup_insert_ne by exact E. eauto. }
      exists fired, stats'. split; [exact Hev|]. intros n s Hs.
      destruct (decide (name r = n)) as [E|E].
      * subst n. rewrite Hs0 in Hs. injection Hs as <-.
        destruct (Hcount (name r) s0') as (s' & Hs' & Ht & Hc).
        { apply lookup_insert_eq. }
        exists s'. split; [exact Hs'|].
        destruct (hit now history ev r); rewrite !named_cons, String.eqb_refl;
          lia.
      * destruct (Hcount n s) as (s' & Hs' & Ht & Hc).
        { rewrite lookup_insert_ne by exact E. exact Hs. }
        exists s'. split; [exact Hs'|].
        apply String.eqb_neq in E.
        destruct (hit now history ev r); rewrite ?named_cons, ?E; lia.
    + destruct (IH stats fired0 Hrs) as (fired & stats' & Hev & Hcount).
      exists fired, stats'. split; [exact Hev|]. exact Hcount.
Qed.

Lemma evaluate_rules_dom (now : float) (history : list pydict)
  (ev : pydict) (rs : list AlertRule) :
  forall stats fired0 n,
    is_Some (snd (evaluate_rules now history ev rs stats fired0) !! n) <->
    is_Some (stats !! n).
Proof.
  induction rs as [|r rs IH]; intros stats fired0 n; simpl; [tauto|].
  destruct (enabled r); [|apply IH].
  unfold _update_rule_stats.
  destruct (stats !! name r) as [s|] eqn:Hs; simpl; [|tauto].
  rewrite IH. destruct (decide (name r = n)) as [<-|E].
  - rewrite lookup_insert_eq, Hs. split; eauto.
  - now rewrite lookup_insert_ne.
Qed.

Lemma covered_init (rs : list AlertRule) : covered (init rs).
Proof.
  unfold covered, init. simpl.
  set (rs' := match rs with [] => DEFAULT_RULES | _ => rs end).
  assert (Hgen : forall (l : list AlertRule) (m : gmap string RuleStats) r,
             In r l \/ is_Some (m !! name r) ->
             is_Some (fold_left (fun m r => <[name r := fresh_stats]> m) l m
                      !! name r)).
  { induction l as [|x l IH]; intros m r [Hin|Hm]; simpl.
    - destruct Hin.
    - exact Hm.
    - apply IH. destruct Hin as [->|Hin]; [right|left; exact Hin].
      rewrite lookup_insert_eq. eauto.
    - apply IH. right. destruct (decide (name x = name r)) as [E|E].
      + rewrite E, lookup_insert_eq. eauto.
      + now rewrite lookup_insert_ne. }
  apply List.Forall_forall. intros r Hr. apply Hgen. now left.
Qed.

Lemma set_enabled_names (b : bool) (n : string) (rs : list AlertRule) :
  map name (set_enabled b n rs) = map name rs.
Proof.
  induction rs as [|r rs IH]; simpl; [reflexivity|].
  destruct (String.eqb (name r) n); simpl; [reflexivity|now rewrite IH].
Qed.

Lemma covered_names (rs rs' : list AlertRule) (stats : gmap string RuleStats) :
  map name rs' = map name rs ->
  Forall (fun r => is_Some (stats !! name r)) rs ->
  Forall (fun r => is_Some (stats !! name r)) rs'.
Proof.
  intros Hn Hc. rewrite List.Forall_forall in *. intros r Hr.
  apply (in_map name) in Hr. rewrite Hn in Hr.
  apply in_map_iff in Hr as (r0 & E & Hr0). rewrite <- E. auto.
Qed.

Lemma reachable_covered (eng : RulesEngine) : reachable eng -> covered eng.
Proof.
  induction 1 as [rs | r eng _ IH | n eng _ IH | n eng _ IH | n eng _ IH
                 | now ev eng _ IH].
  - apply covered_init.
  - unfold covered, add_rule in *. simpl. apply Forall_app. split.
    + eapply Forall_impl; [exact IH|]. intros r' [s Hs].
      destruct (decide (name r = name r')) as [E|E].
      * rewrite E, lookup_insert_eq. eauto.
      * rewrite lookup_insert_ne by exact E. eauto.
    + constructor; [|constructor]. rewrite lookup_insert_eq. eauto.
  - unfold covered, remove_rule in *. simpl.
    apply List.Forall_forall. intros r Hr. apply filter_In in Hr as [Hr Hn].
    rewrite List.Forall_forall in IH. specialize (IH r Hr).
    apply negb_true_iff, String.eqb_neq in Hn.
    now rewrite lookup_delete_ne by congruence.
  - unfold covered, enable_rule in *. simpl.
    eapply covered_names; [apply set_enabled_names | exact IH].
  - unfold covered, disable_rule in *. simpl.
    eapply covered_names; [apply set_enabled_names | exact IH].
  - unfold covered, evaluate_event in *.
    destruct (evaluate_rules _ _ _ _ _ _) as [fired stats] eqn:Hev. simpl.
    eapply Forall_impl; [exact IH|]. intros r Hr. simpl in Hr.
    pose proof (evaluate_rules_dom now
                  (_add_to_history now ev (event_history eng)) (stamp now ev)
                  (rules eng) (rule_stats eng) [] (name r)) as Hdom.
    rewrite Hev in Hdom. simpl in Hdom. now apply Hdom.
Qed.

End RulesStats.

Section RulesTotal.
Import Py Rules.

(** X6: an engine built by [RulesEngine(rules)] and changed only through
    [add_rule], [remove_rule], [enable_rule], [disable_rule] and
    [evaluate_event] keeps an entry of [rule_stats] for every rule it holds,
    so [evaluate_event] returns a list of rules for every event and never
    raises the KeyError of [_update_rule_stats]. *)
Theorem evaluate_event_never_raises `{Builtins} (now : float) (ev : pydict)
  (eng : RulesEngine) :
  reachable eng ->
  exists fired, fst (fst (evaluate_event now ev eng)) = Ok fired.
Proof.
  intros Hreach. apply reachable_covered in Hreach.
  unfold evaluate_event.
  destruct (evaluate_rules_counts now
              (_add_to_history now ev (event_history eng)) (stamp now ev)
              (rules eng) (rule_stats eng) [] Hreach)
    as (fired & stats' & Hev & _).
  rewrite Hev. simpl. eauto.
Qed.

(** X6, witness: the default engine after a rule was added and another
    removed, on the payload of scenario 1. *)
Lemma evaluate_event_never_raises_witness :
  exists fired,
    fst (fst (evaluate_event (H := Scenario.builtins) 1700000000%float
                Scenario.payload
                (remove_rule "whale_position"
                   (add_rule (position_rule "huge" CRITICAL 5000000%float)
                      (init [])))))
    = Ok fired.
Proof.
  apply (evaluate_event_never_raises (H := Scenario.builtins)).
  apply reach_remove, reach_add, reach_init.
Defined.

(** X7: [evaluate_event] counts every evaluation once: when every rule has
    its statistics, the [total_events] of a name goes up by the number of
    enabled rules of that name and its [triggered_count] by the number of
    them among the rules returned; disabled rules are not counted. *)
Theorem evaluate_event_counts `{Builtins} (now : float) (ev : pydict)
  (eng : RulesEngine) (n : string) (s : RuleStats) :
  covered eng ->
  rule_stats eng !! n = Some s ->
  exists fired eng' ev' s',
    evaluate_event now ev eng = (Ok fired, eng', ev') /\
    rule_stats eng' !! n = Some s' /\
    total_events s' = total_events s + named n (List.filter enabled (rules eng)) /\
    triggered_count s' = triggered_count s + named n fired.
Proof.
  intros Hcov Hs. unfold evaluate_event.
  destruct (evaluate_rules_counts now
              (_add_to_history now ev (event_history eng)) (stamp now ev)
              (rules eng) (rule_stats eng) [] Hcov)
    as (fired & stats' & Hev & Hcount).
  rewrite Hev. destruct (Hcount n s Hs) as (s' & Hs' & Ht & Hc).
  eexists fired, _, _, s'. split; [reflexivity|]. simpl.
  split; [exact Hs'|]. split; [exact Ht|].
  rewrite Hc. apply (evaluate_rules_fired (H := H)) in Hev. simpl in Hev.
  now rewrite Hev.
Qed.

End RulesTotal.

Section RulesCountsWitness.
Import Py Rules.

(** X7, witness: the default engine, the payload of scenario 1 and the
    statistics of large_position. *)
Lemma evaluate_event_counts_witness :
  exists fired eng' ev' s',
    evaluate_event (H := Scenario.builtins) 1700000000%float Scenario.payload
      (init []) = (Ok fired, eng', ev') /\
    rule_stats eng' !! "large_position" = Some s' /\
    total_events s' =
      total_events fresh_stats
      + named "large_position" (List.filter enabled (rules (init []))) /\
    triggered_count s' =
      triggered_count fresh_stats + named "large_position" fired.
Proof.
  apply (evaluate_event_counts (H := Scenario.builtins) 1700000000%float
           Scenario.payload (init []) "large_position" fresh_stats).
  - repeat (constructor; [eexists; vm_compute; reflexivity|]). constructor.
  - vm_compute. reflexivity.
Defined.

End RulesCountsWitness.

Section RulesHistory.
Import Py Rules.
Context `{Builtins}.

Lemma evaluate_event_history (now : float) (ev : pydict) (eng : RulesEngine) :
  event_history (snd (fst (evaluate_event now ev eng)))
  = _add_to_history now ev (event_history eng).
Proof.
  unfold evaluate_event. now destruct (evaluate_rules _ _ _ _ _ _).
Qed.

Lemma evaluate_event_rules (now : float) (ev : pydict) (eng : RulesEngine) :
  rules (snd (fst (evaluate_event now ev eng))) = rules eng.
Proof.
  unfold evaluate_event. now destruct (evaluate_rules _ _ _ _ _ _).
Qed.

Lemma lookup_set_same (k : string) (v : pyval) (d : pydict) :
  lookup k (set k v d) = Some v.
Proof.
  induction d as [|[k' v'] d IH]; simpl.
  - now rewrite String.eqb_refl.
  - destruct (String.eqb k k') eqn:E; simpl; now rewrite E.
Qed.

Lemma add_to_history_last (now : float) (ev : pydict) (h : list pydict) :
  exists older, _add_to_history now ev h = older ++ [stamp now ev].
Proof.
  unfold _add_to_history.
  destruct (max_history_size <? length (h ++ [stamp now ev]))%nat; [|eauto].
  unfold Classifier.last_n, max_history_size.
  rewrite length_app. simpl. rewrite skipn_app.
  replace (length h + 1 - 1000 - length h)%nat with 0%nat by lia.
  simpl. eauto.
Qed.

(** X8: the engine's event history never holds more than 1000 events: after
    [evaluate_event] it is the end of the old history followed by the event,
    which carries a timestamp (its own, or the time of the evaluation); the
    oldest events are what is dropped. *)
Theorem event_history_bounded (now : float) (ev : pydict) (eng : RulesEngine) :
  (length (event_history (snd (fst (evaluate_event now ev eng)))) <= 1000)%nat
  /\ (exists dropped older,
        event_history eng = dropped ++ older /\
        event_history (snd (fst (evaluate_event now ev eng)))
        = older ++ [stamp now ev])
  /\ is_Some (lookup "timestamp" (stamp now ev)).
Proof.
  rewrite evaluate_event_history. unfold _add_to_history.
  split; [|split].
  - destruct (max_history_size <? length (event_history eng ++ [stamp now ev]))%nat
      eqn:E.
    + unfold Classifier.last_n, max_history_size. rewrite length_skipn. lia.
    + apply Nat.ltb_ge in E. exact E.
  - destruct (max_history_size <? length (event_history eng ++ [stamp now ev]))%nat.
    + unfold Classifier.last_n, max_history_size.
      rewrite length_app. simpl. rewrite skipn_app.
      replace (length (event_history eng) + 1 - 1000
               - length (event_history eng))%nat with 0%nat by lia.
      simpl.
      exists (firstn (length (event_history eng) + 1 - 1000) (event_history eng)),
             (skipn (length (event_history eng) + 1 - 1000) (event_history eng)).
      split; [now rewrite firstn_skipn | reflexivity].
    + exists [], (event_history eng). split; reflexivity.
  - unfold stamp. destruct (lookup "timestamp" ev) as [t|] eqn:E.
    + rewrite E. eauto.
    + rewrite lookup_set_same. eauto.
Qed.

End RulesHistory.

Section RulesSwitches.
Import Py Rules.

Lemma filter_other_names (n : string) (rs : list AlertRule) :
  Forall (fun r => name r <> n) rs ->
  List.filter (fun r => negb (String.eqb (name r) n)) rs = rs.
Proof.
  induction 1 as [|r rs Hr _ IH]; simpl; [reflexivity|].
  apply String.eqb_neq in Hr. now rewrite Hr, IH.
Qed.

(** X9: removing a rule that was just added gives back the engine as it
    was, when no rule and no statistics carried that name before. *)
Theorem remove_rule_add_rule (r : AlertRule) (eng : RulesEngine) :
  Forall (fun r' => name r' <> name r) (rules eng) ->
  rule_stats eng !! name r = None ->
  remove_rule (name r) (add_rule r eng) = eng.
Proof.
  intros Hfresh Hstats. unfold remove_rule, add_rule. simpl.
  rewrite List.filter_app, filter_other_names by exact Hfresh. simpl.
  rewrite String.eqb_refl. simpl. rewrite app_nil_r.
  rewrite delete_insert_id by exact Hstats. now destruct eng.
Qed.

(** X9, witness: a rule named huge on the default engine. *)
Lemma remove_rule_add_rule_witness :
  remove_rule "huge"
    (add_rule (position_rule "huge" CRITICAL 5000000%float) (init []))
  = init [].
Proof.
  apply (remove_rule_add_rule (position_rule "huge" CRITICAL 5000000%float)).
  - repeat (constructor; [discriminate|]). constructor.
  - vm_compute. reflexivity.
Defined.

Lemma set_enabled_false_filter (n : string) (rs : list AlertRule) :
  NoDup (map name rs) ->
  forall r, In r (set_enabled false n rs) -> enabled r = true -> name r <> n.
Proof.
  induction rs as [|x rs IH]; simpl; intros Hnd r Hin Hen; [destruct Hin|].
  apply NoDup_cons in Hnd as [Hx Hnd].
  destruct (String.eqb (name x) n) eqn:E.
  - apply String.eqb_eq in E. destruct Hin as [<-|Hin]; [discriminate|].
    intros Hr. apply Hx. rewrite E, <- Hr. apply list_elem_of_In.
    now apply in_map.
  - destruct Hin as [<-|Hin]; [now apply String.eqb_neq|]. now apply IH.
Qed.

(** X10: after [disable_rule], and with rule names that are distinct, no
    rule of that name is returned by [evaluate_event]; the statistics and the
    history are not touched by the switch. *)
Theorem disabled_rule_never_fires `{Builtins} (now : float) (ev ev' : pydict)
  (eng eng' : RulesEngine) (n : string) (fired : list AlertRule) :
  NoDup (map name (rules eng)) ->
  evaluate_event now ev (disable_rule n eng) = (Ok fired, eng', ev') ->
  Forall (fun r => name r <> n) fired
  /\ rule_stats (disable_rule n eng) = rule_stats eng
  /\ event_history (disable_rule n eng) = event_history eng.
Proof.
  intros Hnd Hev. split; [|split; reflexivity].
  unfold evaluate_event in Hev.
  destruct (evaluate_rules _ _ _ _ _ _) as [r stats] eqn:Hrs.
  injection Hev as -> _ _.
  apply evaluate_rules_fired in Hrs. simpl in Hrs. subst fired.
  apply List.Forall_forall. intros r Hr. apply filter_In in Hr as [Hin Hen].
  apply andb_true_iff in Hen as [Hen _].
  eapply set_enabled_false_filter; eauto.
Qed.

(** X10, witness: large_position disabled on the default engine; the payload
    of scenario 1 is worth 1,250,000 USD. *)
Lemma disabled_rule_never_fires_witness :
  Forall (fun r => name r <> "large_position")
    [whale_position; medium_position; notable_position; unusual_volume].
Proof.
  refine (proj1 (disabled_rule_never_fires (H := Scenario.builtins)
                   1700000000%float Scenario.payload _ (init []) _
                   "large_position" _ _ _)).
  - apply (bool_decide_unpack _). vm_compute. exact I.
  - vm_compute. reflexivity.
Defined.

End RulesSwitches.

Section RulesWindows.
Import Py Rules.

Lemma filter_res_raises {A : Type} (keep : A -> res bool) (l : list A)
  (x : A) (e : exn) :
  In x l -> keep x = Raise e -> exists e', filter_res keep l = Raise e'.
Proof.
  induction l as [|y l IH]; intros Hin Hx; [destruct Hin|]. simpl.
  destruct Hin as [->|Hin].
  - rewrite Hx. simpl. eauto.
  - destruct (keep y) as [b|e0]; simpl; [|eauto].
    destruct (IH Hin Hx) as [e' ->]. simpl. eauto.
Qed.

Lemma stamp_stamped (now : float) (ev : pydict) (t : pyval) :
  lookup "timestamp" ev = Some t -> stamp now ev = ev.
Proof. intros Ht. unfold stamp. now rewrite Ht. Qed.

Lemma add_to_history_In `{Builtins} (now : float) (ev : pydict)
  (h : list pydict) :
  In (stamp now ev) (_add_to_history now ev h).
Proof.
  destruct (add_to_history_last now ev h) as [older ->].
  apply in_or_app. right. now left.
Qed.

(** X11: an event whose timestamp is a string, as the ISO-8601 timestamp of
    the events the WebSocket router builds, never triggers a volume or a
    frequency rule: the event is in the history the rule filters, the
    comparison of its timestamp with the cutoff raises TypeError, and
    [evaluate_event] counts the rule as not triggered. *)
Theorem window_rules_need_numeric_timestamps `{Builtins} (now : float)
  (ev ev' : pydict) (eng eng' : RulesEngine) (fired : list AlertRule)
  (ts wallet : string) :
  lookup "timestamp" ev = Some (PStr ts) ->
  lookup "wallet" ev = Some (PStr wallet) ->
  evaluate_event now ev eng = (Ok fired, eng', ev') ->
  Forall (fun r => condition r <> VOLUME_THRESHOLD /\ condition r <> FREQUENCY)
         fired.
Proof.
  intros Hts Hw Hev. unfold evaluate_event in Hev.
  destruct (evaluate_rules _ _ _ _ _ _) as [r stats] eqn:Hrs.
  injection Hev as -> _ _.
  apply evaluate_rules_fired in Hrs. simpl in Hrs. subst fired.
  apply List.Forall_forall. intros r Hr. apply filter_In in Hr as [_ Hhit].
  apply andb_true_iff in Hhit as [_ Hhit].
  pose proof (add_to_history_In now ev (event_history eng)) as Hin.
  rewrite (stamp_stamped now ev _ Hts) in Hin, Hhit.
  set (history := _add_to_history now ev (event_history eng)) in *.
  unfold hit, _evaluate_rule in Hhit.
  split; intros Hc; rewrite Hc in Hhit.
  - unfold _evaluate_volume_threshold in Hhit.
    destruct (threshold r) as [th|]; [|discriminate].
    destruct (time_window r) as [w|]; [|discriminate].
    destruct (filter_res_raises
                (fun e => ge_float (get_default "timestamp" (PInt 0) e)
                            (now - float_of_Z w)%float)
                history ev TypeError Hin) as [e' He'].
    { unfold get_default. now rewrite Hts. }
    rewrite He' in Hhit. discriminate.
  - unfold _evaluate_frequency in Hhit.
    destruct (threshold r) as [th|]; [|discriminate].
    destruct (time_window r) as [w|]; [|discriminate].
    destruct (truthy (get "wallet" ev)); [|discriminate].
    destruct (filter_res_raises
                (fun e =>
                   if Py.eqb (get "wallet" e) (get "wallet" ev)
                   then ge_float (get_default "timestamp" (PInt 0) e)
                          (now - float_of_Z w)%float
                   else Ok false)
                history ev TypeError Hin) as [e' He'].
    { unfold get, get_default. rewrite Hw, Hts. simpl.
      now rewrite String.eqb_refl. }
    rewrite He' in Hhit. discriminate.
Qed.

(** X11, witness: the event the router builds for the frame of scenario 1,
    with a volume rule of threshold 0 and a frequency rule of threshold 1
    beside large_position: neither of the two fires. *)
Lemma window_rules_need_numeric_timestamps_witness :
  Forall (fun r => condition r <> VOLUME_THRESHOLD /\ condition r <> FREQUENCY)
         (@nil AlertRule).
Proof.
  refine (window_rules_need_numeric_timestamps (H := Scenario.builtins)
            1700000000%float
            (WebSocket.make_event "userFills" (PStr "A") Scenario.iso
               (PDict Scenario.payload))
            _
            (init [large_position;
                   {| name := "any_volume"; condition := VOLUME_THRESHOLD;
                      severity := HIGH; enabled := true;
                      threshold := Some 0%float; time_window := Some 300;
                      custom_condition := None |};
                   {| name := "any_activity"; condition := FREQUENCY;
                      severity := LOW; enabled := true;
                      threshold := Some 1%float; time_window := Some 60;
                      custom_condition := None |}])
            _ [] Scenario.iso "A" _ _ _).
  - reflexivity.
  - reflexivity.
  - vm_compute. reflexivity.
Defined.

End RulesWindows.

(* ================================================================== *)
(** * The alert engine: counters, exceptions, the table of recent events *)
(* ================================================================== *)

Section EngineFacts.
Import Py Engine.
Context `{Builtins} `{Formatter}.

Lemma stamp_wallet (now_ts : float) (ev : pydict) :
  get_default "wallet" (PStr "unknown") (Rules.stamp now_ts ev)
  = get_default "wallet" (PStr "unknown") ev.
Proof. unfold get_default. now rewrite stamp_lookup by discriminate. Qed.

Lemma evaluate_event_stamps (now_ts : float) (ev : pydict)
  (eng : Rules.RulesEngine) :
  snd (Rules.evaluate_event now_ts ev eng) = Rules.stamp now_ts ev.
Proof.
  unfold Rules.evaluate_event. now destruct (Rules.evaluate_rules _ _ _ _ _ _).
Qed.

Lemma omap_length_le {A B : Type} (f : A -> option B) (l : list A) :
  (length (omap f l) <= length l)%nat.
Proof.
  induction l as [|x l IH]; [simpl; lia|].
  change (omap f (x :: l))
    with (match f x with Some y => y :: omap f l | None => omap f l end).
  destruct (f x); simpl; lia.
Qed.

Lemma record_stamp (now_ts : float) (ev : pydict) :
  record_event_processed (Rules.stamp now_ts ev) = record_event_processed ev.
Proof. unfold record_event_processed. now rewrite stamp_wallet. Qed.

Lemma record_cases (ev : pydict) :
  (exists w, get_default "wallet" (PStr "unknown") ev = PStr w
             /\ record_event_processed ev = Ok tt)
  \/ ((forall w, get_default "wallet" (PStr "unknown") ev <> PStr w)
      /\ record_event_processed ev = Raise TypeError).
Proof.
  unfold record_event_processed.
  destruct (get_default "wallet" (PStr "unknown") ev);
    try (right; split; [discriminate|reflexivity]).
  left. eauto.
Qed.

(** The counters of the engine after [process_event]. *)
Lemma process_event_stats (now : Q) (now_ts : float) (ev : pydict)
  (eng : AlertEngine) :
  events_processed (stats (snd (process_event now now_ts ev eng)))
  = events_processed (stats eng) + 1
  /\ (forall ns,
        fst (process_event now now_ts ev eng) = Ok ns ->
        notifications_sent (stats (snd (process_event now now_ts ev eng)))
        = notifications_sent (stats eng) + Z.of_nat (length ns)
        /\ Z.of_nat (length ns)
           <= alerts_triggered (stats (snd (process_event now now_ts ev eng)))
              - alerts_triggered (stats eng)
        /\ errors (stats (snd (process_event now now_ts ev eng)))
           <= errors (stats eng) + 1)
  /\ (forall e,
        fst (process_event now now_ts ev eng) = Raise e ->
        errors (stats (snd (process_event now now_ts ev eng)))
        = errors (stats eng) + 1
        /\ forall w, get_default "wallet" (PStr "unknown") ev <> PStr w).
Proof.
  unfold process_event.
  destruct (_is_duplicate_event now ev (dedup_window_seconds eng)
              (recent_events eng)) as [dup recent].
  destruct dup; simpl.
  { split; [reflexivity|]. split; [|discriminate].
    intros ns [= <-]. simpl. lia. }
  match goal with |- context [match ?t with Ok _ => _ | Raise _ => _ end] =>
    destruct t as [pc'|e] end; simpl.
  2: { split; [reflexivity|].
       destruct (record_cases ev) as [(w & Hw & ->)|(Hw & ->)]; simpl;
         (split; [intros ns [= <-]; simpl; lia | intros e' [= <-]; auto]). }
  pose proof (evaluate_event_stamps now_ts ev (rules_engine eng)) as Hst.
  destruct (Rules.evaluate_event now_ts ev (rules_engine eng))
    as [[fired rules'] ev']. simpl in Hst. subst ev'.
  destruct fired as [[|rule triggered]|e]; cbv beta iota.
  - simpl. split; [reflexivity|]. split; [|discriminate].
    intros ns [= <-]. simpl. lia.
  - match goal with |- context [omap ?f ?l] =>
      pose proof (omap_length_le f l) as Hle; set (ns0 := omap f l) in *
    end.
    simpl length in Hle. clearbody ns0. unfold on_error.
    rewrite !record_stamp.
    destruct (record_cases ev) as [(w & Hw & ->)|(Hw & ->)]; simpl;
      (split; [reflexivity|]);
      (split; [intros ns [= <-]; simpl; lia | intros e' [= <-]; auto]).
  - unfold on_error. rewrite !record_stamp.
    destruct (record_cases ev) as [(w & Hw & ->)|(Hw & ->)]; simpl;
      (split; [reflexivity|]);
      (split; [intros ns [= <-]; simpl; lia | intros e' [= <-]; auto]).
Qed.

End EngineFacts.

Section EngineCounters.
Import Py Engine.

(** X12: [process_event] counts every event once in [events_processed],
    whatever becomes of it (duplicate, no rule triggered, error); the
    notifications it returns are the ones it adds to [notifications_sent],
    and they are never more than the alerts it adds to [alerts_triggered]. *)
Theorem process_event_counters `{Builtins} `{Formatter} (now : Q)
  (now_ts : float) (ev : pydict) (eng : AlertEngine) :
  events_processed (stats (snd (process_event now now_ts ev eng)))
  = events_processed (stats eng) + 1
  /\ (forall ns,
        fst (process_event now now_ts ev eng) = Ok ns ->
        notifications_sent (stats (snd (process_event now now_ts ev eng)))
        = notifications_sent (stats eng) + Z.of_nat (length ns)
        /\ Z.of_nat (length ns)
           <= alerts_triggered (stats (snd (process_event now now_ts ev eng)))
              - alerts_triggered (stats eng)).
Proof.
  destruct (process_event_stats now now_ts ev eng) as (Hev & Hok & _).
  split; [exact Hev|]. intros ns Hns.
  destruct (Hok ns Hns) as (Hs & Ha & _). auto.
Qed.

(** X13: [process_event] returns a list of notifications for every event
    whose wallet is a string or is missing; an exception escapes it only for
    a wallet that is not a string (the metrics call in the [except] clause
    slices the wallet and raises in its turn), and the error is counted. *)
Theorem process_event_raises_only_on_wallet `{Builtins} `{Formatter} (now : Q)
  (now_ts : float) (ev : pydict) (eng : AlertEngine) (e : exn) :
  fst (process_event now now_ts ev eng) = Raise e ->
  (forall w, get_default "wallet" (PStr "unknown") ev <> PStr w)
  /\ errors (stats (snd (process_event now now_ts ev eng)))
     = errors (stats eng) + 1.
Proof.
  intros He. destruct (process_event_stats now now_ts ev eng) as (_ & _ & Hr).
  destruct (Hr e He). auto.
Qed.

(** X13, witness: an event with the wallet 7 and a value that triggers the
    default rules; the TypeError of the metrics call escapes. *)
Lemma process_event_raises_only_on_wallet_witness :
  (forall w,
     get_default "wallet" (PStr "unknown")
       [("wallet", PInt 7); ("usd_value", PInt 5000)] <> PStr w)
  /\ errors (stats (snd (process_event (H := Scenario.builtins)
                           (H0 := Scenario.formatter) 0 1700000000%float
                           [("wallet", PInt 7); ("usd_value", PInt 5000)]
                           (init [] None))))
     = errors (stats (init [] None)) + 1.
Proof.
  apply (process_event_raises_only_on_wallet (H := Scenario.builtins)
           (H0 := Scenario.formatter) 0 1700000000%float
           [("wallet", PInt 7); ("usd_value", PInt 5000)] (init [] None)
           TypeError).
  vm_compute. reflexivity.
Defined.

End EngineCounters.

Section EngineDedupTable.
Import Py Engine.

(** X14: the table of recent events after [process_event] at [now], for a
    positive window [w]. A duplicate leaves the table as it is: the sighting
    is not refreshed, so the window runs from the last event that was let
    through. Any other event is recorded at [now], and the table then holds
    no entry older than [now - 2w] and nothing new but that record. *)
Theorem recent_events_pruned `{Builtins} `{Formatter} (now : Q)
  (now_ts : float) (ev : pydict) (eng : AlertEngine) :
  (0 < dedup_window_seconds eng)%Q ->
  (forall last,
     recent_events eng !! _create_event_fingerprint ev = Some last ->
     (now - last < dedup_window_seconds eng)%Q ->
     recent_events (snd (process_event now now_ts ev eng)) = recent_events eng)
  /\ ((forall last,
         recent_events eng !! _create_event_fingerprint ev = Some last ->
         (dedup_window_seconds eng <= now - last)%Q) ->
      recent_events (snd (process_event now now_ts ev eng))
        !! _create_event_fingerprint ev = Some now
      /\ forall fp t,
           recent_events (snd (process_event now now_ts ev eng)) !! fp = Some t ->
           (now - dedup_window_seconds eng * 2 < t)%Q
           /\ ((fp = _create_event_fingerprint ev /\ t = now)
               \/ recent_events eng !! fp = Some t)).
Proof.
  intros Hw.
  destruct (process_event_dedup now now_ts ev eng) as (Hrec & _ & _ & _).
  cbv zeta in Hrec. rewrite Hrec. clear Hrec. unfold _is_duplicate_event.
  split.
  - intros last Hlast Hclose. rewrite Hlast.
    assert (Hd : Qltb (now - last) (dedup_window_seconds eng) = true)
      by (apply Qltb_lt; lra).
    now rewrite Hd.
  - intros Hfar.
    assert (Hseen : match recent_events eng !! _create_event_fingerprint ev with
                    | Some last_seen =>
                        Qltb (now - last_seen) (dedup_window_seconds eng)
                    | None => false
                    end = false).
    { destruct (recent_events eng !! _create_event_fingerprint ev) as [last|];
        [|reflexivity].
      apply Qltb_ge. now apply Hfar. }
    rewrite Hseen. simpl. split.
    + apply map_lookup_filter_Some. split; [apply lookup_insert_eq|].
      simpl. apply Qltb_lt. lra.
    + intros fp t Hfp. apply map_lookup_filter_Some in Hfp as [Hfp Hnew].
      simpl in Hnew. apply Qltb_lt in Hnew. split; [exact Hnew|].
      destruct (decide (_create_event_fingerprint ev = fp)) as [<-|Hne].
      * rewrite lookup_insert_eq in Hfp. injection Hfp as <-. now left.
      * rewrite lookup_insert_ne in Hfp by exact Hne. now right.
Qed.

(** X14, witness: the default engine; the payload of scenario 1 at 0 s, then
    again at 20 s: the second is a duplicate and the table keeps the sighting
    at 0 s. *)
Lemma recent_events_pruned_witness :
  recent_events
    (snd (process_event (H := Scenario.builtins) (H0 := Scenario.formatter)
            20 1700000020%float Scenario.payload
            (snd (process_event (H := Scenario.builtins)
                    (H0 := Scenario.formatter) 0 1700000000%float
                    Scenario.payload (init [] None)))))
  = recent_events
      (snd (process_event (H := Scenario.builtins) (H0 := Scenario.formatter)
              0 1700000000%float Scenario.payload (init [] None))).
Proof.
  refine (proj1 (recent_events_pruned (H := Scenario.builtins)
                   (H0 := Scenario.formatter) 20 1700000020%float
                   Scenario.payload _ _) 0%Q _ _).
  - reflexivity.
  - vm_compute. reflexivity.
  - reflexivity.
Defined.

(** X15: an event that is not a duplicate (its fingerprint is not in the
    table, or was recorded a full window ago or more) and whose wallet is
    hashable is handed to the rules engine. *)
Theorem fresh_event_reaches_rules `{Builtins} `{Formatter} (now : Q)
  (now_ts : float) (ev : pydict) (eng : AlertEngine) :
  (forall last,
     recent_events eng !! _create_event_fingerprint ev = Some last ->
     (dedup_window_seconds eng <= now - last)%Q) ->
  hashable (get_default "wallet" (PStr "unknown") ev) = true ->
  evaluated (snd (process_event now now_ts ev eng)) = evaluated eng ++ [ev].
Proof.
  intros Hfar Hhash. unfold process_event, _is_duplicate_event.
  assert (Hseen : match recent_events eng !! _create_event_fingerprint ev with
                  | Some last_seen =>
                      Qltb (now - last_seen) (dedup_window_seconds eng)
                  | None => false
                  end = false).
  { destruct (recent_events eng !! _create_event_fingerprint ev) as [last|];
      [|reflexivity].
    apply Qltb_ge. now apply Hfar. }
  rewrite Hseen. cbv beta iota zeta.
  unfold Classifier.track_classification. rewrite Hhash.
  match goal with |- context [match ?t with Ok _ => _ | Raise _ => _ end] =>
    assert (Hok : exists pc', t = Ok pc')
  end.
  { destruct (position_classifier eng) as [pc|]; [|eauto].
    destruct (Classifier.analyze_position (thresholds pc) ev); simpl; eauto. }
  destruct Hok as [pc' ->].
  destruct (Rules.evaluate_event now_ts ev (rules_engine eng))
    as [[fired rules'] ev'].
  destruct fired as [[|rule triggered]|e]; cbv beta iota; try reflexivity.
  destruct (record_event_processed ev'); reflexivity.
Qed.

(** X15, witness: the payload of scenario 1 at 0 s and again at 30 s, a full
    window later. *)
Lemma fresh_event_reaches_rules_witness :
  evaluated
    (snd (process_event (H := Scenario.builtins) (H0 := Scenario.formatter)
            30 1700000030%float Scenario.payload
            (snd (process_event (H := Scenario.builtins)
                    (H0 := Scenario.formatter) 0 1700000000%float
                    Scenario.payload (init [] None)))))
  = evaluated
      (snd (process_event (H := Scenario.builtins) (H0 := Scenario.formatter)
              0 1700000000%float Scenario.payload (init [] None)))
    ++ [Scenario.payload].
Proof.
  apply (fresh_event_reaches_rules (H := Scenario.builtins)
           (H0 := Scenario.formatter)).
  - intros last Hlast. vm_compute in Hlast. injection Hlast as <-.
    vm_compute. discriminate.
  - reflexivity.
Defined.

End EngineDedupTable.

(* ================================================================== *)
(** * The WebSocket client: counters, delays, subscriptions *)
(* ================================================================== *)

Section RouterCounters.
Import Py WebSocket.
Context `{Builtins}.

Lemma handler_failures_app handler_ok (l1 l2 : list pydict) :
  handler_failures handler_ok (l1 ++ l2)
  = handler_failures handler_ok l1 + handler_failures handler_ok l2.
Proof.
  unfold handler_failures. rewrite List.filter_app, length_app. lia.
Qed.

Lemma parse_step_refl handler_ok c : parse_step handler_ok c c [].
Proof.
  unfold parse_step, handler_failures. simpl. rewrite app_nil_r.
  repeat split; lia.
Qed.

Lemma parse_step_trans handler_ok c1 c2 c3 n1 n2 :
  parse_step handler_ok c1 c2 n1 -> parse_step handler_ok c2 c3 n2 ->
  parse_step handler_ok c1 c3 (n1 ++ n2).
Proof.
  intros (He1 & Hs1 & Hf1 & Ht1 & Hw1) (He2 & Hs2 & Hf2 & Ht2 & Hw2).
  unfold parse_step. rewrite handler_failures_app, length_app.
  rewrite He2, He1, app_assoc. repeat split; try lia; congruence.
Qed.

Lemma process_single_step handler_ok now_iso event_data channel wallet c :
  parse_step handler_ok c
    (_process_single_event handler_ok now_iso event_data channel wallet c)
    (single_events now_iso channel wallet event_data).
Proof.
  unfold _process_single_event, single_events.
  destruct event_data; try apply parse_step_refl.
  unfold parse_step, handler_failures. simpl.
  destruct (handler_ok _); simpl; repeat split; lia.
Qed.

Lemma process_list_step handler_ok now_iso channel wallet (l : list pyval) :
  forall c,
  parse_step handler_ok c
    (fold_left
       (fun acc single =>
          _process_single_event handler_ok now_iso single channel wallet acc)
       l c)
    (flat_map (single_events now_iso channel wallet) l).
Proof.
  induction l as [|x l IH]; intros c; simpl; [apply parse_step_refl|].
  eapply parse_step_trans; [apply process_single_step | apply IH].
Qed.

Lemma handle_wallet_event_step handler_ok now_iso raw_event channel c :
  parse_step handler_ok c
    (_handle_wallet_event handler_ok now_iso raw_event channel c)
    (if truthy (resolve_wallet raw_event)
        && watched (resolve_wallet raw_event) (watched_wallets c)
     then frame_events now_iso channel (resolve_wallet raw_event)
            (get "data" raw_event)
     else []).
Proof.
  unfold _handle_wallet_event.
  destruct (truthy (resolve_wallet raw_event)); simpl;
    [|apply parse_step_refl].
  destruct (watched (resolve_wallet raw_event) (watched_wallets c)); simpl;
    [|apply parse_step_refl].
  set (c1 := with_stats _ c).
  assert (Hc1 : parse_step handler_ok c c1 []).
  { subst c1. unfold parse_step, handler_failures, count_wallet_event. simpl.
    rewrite app_nil_r.
    destruct (resolve_wallet raw_event); simpl; try (repeat split; lia).
    destruct (wallet_events (stats c) !! s); simpl; repeat split; lia. }
  unfold frame_events. destruct (get "data" raw_event) eqn:Hd;
    try exact Hc1.
  - apply (parse_step_trans _ _ _ _ [] _ Hc1). apply process_list_step.
  - apply (parse_step_trans _ _ _ _ [] _ Hc1). apply process_single_step.
Qed.

Lemma handle_message_step handler_ok now_iso parsed c :
  emitted (handle_message handler_ok now_iso parsed c)
  = emitted c ++ message_events now_iso (watched_wallets c) parsed
  /\ successful_parses (stats (handle_message handler_ok now_iso parsed c))
     = successful_parses (stats c)
       + Z.of_nat (length (message_events now_iso (watched_wallets c) parsed))
  /\ failed_parses (stats (handle_message handler_ok now_iso parsed c))
     = failed_parses (stats c)
       + handler_failures handler_ok
           (message_events now_iso (watched_wallets c) parsed)
  /\ total_messages (stats (handle_message handler_ok now_iso parsed c))
     = total_messages (stats c) + 1
  /\ watched_wallets (handle_message handler_ok now_iso parsed c)
     = watched_wallets c.
Proof.
  unfold handle_message, message_events.
  set (c1 := with_stats _ c).
  assert (Hnone : emitted c1 = emitted c ++ []
                  /\ successful_parses (stats c1)
                     = successful_parses (stats c) + Z.of_nat (length (@nil pydict))
                  /\ failed_parses (stats c1)
                     = failed_parses (stats c) + handler_failures handler_ok []
                  /\ total_messages (stats c1) = total_messages (stats c) + 1
                  /\ watched_wallets c1 = watched_wallets c).
  { subst c1. unfold handler_failures. simpl. rewrite app_nil_r.
    repeat split; lia. }
  destruct parsed as [[| | | | | |raw]|]; try exact Hnone.
  destruct (get_default "channel" (PStr "unknown") raw); try exact Hnone.
  destruct (in_strings s event_channels); simpl; [|exact Hnone].
  destruct (handle_wallet_event_step handler_ok now_iso raw s c1)
    as (He & Hs & Hf & Ht & Hw).
  destruct Hnone as (He0 & Hs0 & Hf0 & Ht0 & Hw0).
  rewrite Hw0 in He, Hs, Hf. rewrite He, Hs, Hf, Ht, Hw.
  rewrite app_nil_r in He0. unfold handler_failures in Hf0. simpl in Hs0, Hf0.
  repeat split; try lia; congruence.
Qed.

End RouterCounters.

Section RouterCountersClaim.
Import Py WebSocket.

(** X16: over any sequence of frames, [total_messages] counts the frames,
    [successful_parses] counts the events handed to the handler, and
    [failed_parses] counts those of them for which the handler raised; an
    event whose handler raised is counted in both, so [failed_parses] grows
    no faster than [successful_parses]. *)
Theorem router_counters `{Builtins} (handler_ok : pydict -> bool)
  (now_iso : string) (frames : list (option pyval)) (c : WebSocketClient) :
  exists new : list pydict,
    emitted (handle_frames handler_ok now_iso frames c) = emitted c ++ new
    /\ total_messages (stats (handle_frames handler_ok now_iso frames c))
       = total_messages (stats c) + Z.of_nat (length frames)
    /\ successful_parses (stats (handle_frames handler_ok now_iso frames c))
       = successful_parses (stats c) + Z.of_nat (length new)
    /\ failed_parses (stats (handle_frames handler_ok now_iso frames c))
       = failed_parses (stats c) + handler_failures handler_ok new
    /\ handler_failures handler_ok new <= Z.of_nat (length new).
Proof.
  unfold handle_frames. revert c.
  induction frames as [|m frames IH]; intros c.
  - exists []. simpl. unfold handler_failures. simpl. rewrite app_nil_r.
    repeat split; lia.
  - destruct (handle_message_step handler_ok now_iso m c)
      as (He & Hs & Hf & Ht & Hw).
    destruct (IH (handle_message handler_ok now_iso m c))
      as (new & He' & Ht' & Hs' & Hf' & Hle).
    exists (message_events now_iso (watched_wallets c) m ++ new).
    cbn [fold_left]. rewrite He', Ht', Hs', Hf', He, Ht, Hs, Hf.
    rewrite handler_failures_app, length_app, app_assoc.
    cbn [length].
    assert (Hle' : handler_failures handler_ok
                     (message_events now_iso (watched_wallets c) m)
                   <= Z.of_nat (length (message_events now_iso
                                          (watched_wallets c) m))).
    { unfold handler_failures. pose proof (List.filter_length_le
        (fun e => negb (handler_ok e))
        (message_events now_iso (watched_wallets c) m)). lia. }
    repeat split; try lia; reflexivity.
Qed.

End RouterCountersClaim.

Section WalletEvents.
Import Py WebSocket.
Context `{Builtins}.

Lemma process_single_wallet_events handler_ok now_iso event_data channel wallet c :
  wallet_events
    (stats (_process_single_event handler_ok now_iso event_data channel wallet c))
  = wallet_events (stats c).
Proof. unfold _process_single_event. now destruct event_data. Qed.

Lemma process_list_wallet_events handler_ok now_iso channel wallet
  (l : list pyval) :
  forall c,
  wallet_events
    (stats (fold_left
              (fun acc single =>
                 _process_single_event handler_ok now_iso single channel wallet acc)
              l c))
  = wallet_events (stats c).
Proof.
  induction l as [|x l IH]; intros c; simpl; [reflexivity|].
  now rewrite IH, process_single_wallet_events.
Qed.

Lemma handle_message_wallet_events handler_ok now_iso parsed c (w : string)
  (n : Z) :
  wallet_events (stats c) !! w = Some n ->
  wallet_events (stats (handle_message handler_ok now_iso parsed c)) !! w
  = Some (n + if accepted w (watched_wallets c) parsed then 1 else 0).
Proof.
  intros Hn. unfold handle_message, accepted.
  set (c1 := with_stats _ c).
  assert (Hc1 : wallet_events (stats c1) = wallet_events (stats c))
    by reflexivity.
  assert (Hw1 : watched_wallets c1 = watched_wallets c) by reflexivity.
  assert (Hs1 : stats c1 = stats c1) by reflexivity.
  destruct parsed as [[| | | | | |raw]|];
    try (rewrite Z.add_0_r, Hc1; exact Hn).
  destruct (get_default "channel" (PStr "unknown") raw) as [|b|i|x|ch|l|d];
    try (rewrite Z.add_0_r, Hc1; exact Hn).
  destruct (in_strings ch event_channels); cbn [andb];
    [|rewrite Z.add_0_r, Hc1; exact Hn].
  unfold _handle_wallet_event. rewrite Hw1.
  destruct (resolve_wallet raw) as [|b|i|x|w'|l|d] eqn:Hr;
    cbn [watched negb truthy]; rewrite ?orb_true_r; cbv beta iota;
    try (rewrite Z.add_0_r, Hc1; exact Hn).
  destruct (String.eqb_spec w' w) as [->|Hne]; cbn [andb].
  - destruct (String.eqb w "") eqn:He; cbn [andb negb orb];
      [rewrite Z.add_0_r, Hc1; exact Hn|].
    destruct (in_strings w (watched_wallets c)) eqn:Hw; cbn [andb negb orb];
      [|rewrite Z.add_0_r, Hc1; exact Hn].
    assert (Hcount : forall c2 : WebSocketClient,
              wallet_events (stats c2)
              = wallet_events (count_wallet_event (PStr w) (stats c1)) ->
              wallet_events (stats c2) !! w = Some (n + 1)).
    { intros c2 ->. unfold count_wallet_event. rewrite Hc1, Hn. simpl.
      apply lookup_insert_eq. }
    destruct (get "data" raw); apply Hcount;
      rewrite ?process_list_wallet_events, ?process_single_wallet_events;
      reflexivity.
  - rewrite Z.add_0_r.
    destruct (negb (String.eqb w' "")); cbn [andb negb orb];
      [|rewrite Hc1; exact Hn].
    destruct (in_strings w' (watched_wallets c)); cbn [andb negb orb];
      [|rewrite Hc1; exact Hn].
    assert (Hkeep : forall c2 : WebSocketClient,
              wallet_events (stats c2)
              = wallet_events (count_wallet_event (PStr w') (stats c1)) ->
              wallet_events (stats c2) !! w = Some n).
    { intros c2 ->. unfold count_wallet_event. rewrite Hc1.
      destruct (wallet_events (stats c) !! w'); simpl;
        [|rewrite ?Hc1; exact Hn].
      now rewrite lookup_insert_ne. }
    destruct (get "data" raw); apply Hkeep;
      rewrite ?process_list_wallet_events, ?process_single_wallet_events;
      reflexivity.
Qed.

End WalletEvents.

Section WalletEventsClaim.
Import Py WebSocket.

(** X17: the per-wallet counter [wallet_events] counts frames, not records:
    over any sequence of frames, the counter of a wallet goes up by the
    number of frames the router accepts for that wallet (an event channel,
    the wallet resolved for the frame, in the watched list), whether a frame
    carries one record, a list of many, or none. *)
Theorem wallet_events_count_frames `{Builtins} (handler_ok : pydict -> bool)
  (now_iso : string) (frames : list (option pyval)) (c : WebSocketClient)
  (w : string) (n : Z) :
  wallet_events (stats c) !! w = Some n ->
  wallet_events (stats (handle_frames handler_ok now_iso frames c)) !! w
  = Some (n + Z.of_nat (length (List.filter (accepted w (watched_wallets c))
                                           frames))).
Proof.
  unfold handle_frames. revert c n.
  induction frames as [|m frames IH]; intros c n Hn.
  - simpl. now rewrite Z.add_0_r.
  - cbn [fold_left List.filter].
    pose proof (handle_message_wallet_events handler_ok now_iso m c w n Hn)
      as Hm.
    destruct (handle_message_step handler_ok now_iso m c) as (_ & _ & _ & _ & Hw).
    rewrite (IH _ _ Hm), Hw.
    destruct (accepted w (watched_wallets c) m); cbn [length]; f_equal; lia.
Qed.

(** X17, witness: the frame of scenario 1, then a frame for the same wallet
    carrying a list of three fills: the counter of wallet A goes from 0 to
    2. *)
Lemma wallet_events_count_frames_witness :
  wallet_events
    (stats (handle_frames (H := Scenario.builtins) (fun _ => true)
              Scenario.iso
              [Some (PDict Scenario.frame);
               Some (PDict [("channel", PStr "userFills"); ("user", PStr "A");
                            ("data", PList [PDict Scenario.payload;
                                            PDict Scenario.payload;
                                            PDict Scenario.payload])])]
              (init ["A"]))) !! "A"
  = Some (0 + 2).
Proof.
  refine (eq_trans
            (wallet_events_count_frames (H := Scenario.builtins)
               (fun _ => true) Scenario.iso _ (init ["A"]) "A" 0 _) _).
  - vm_compute. reflexivity.
  - vm_compute. reflexivity.
Defined.

End WalletEventsClaim.

Section ReconnectDelay.
Import Py WebSocket.

Lemma connection_monitor_bound (checks : list bool) :
  forall f, 0 <= f <= 1 -> 0 <= connection_monitor checks f <= 2.
Proof.
  induction checks as [|[|] checks IH]; intros f Hf; simpl.
  - lia.
  - apply IH. lia.
  - destruct (Z.leb_spec 2 (f + 1)); [lia|]. apply IH. lia.
Qed.

(** X18: the delay slept before the next connection attempt is always
    between 2 and 30 seconds, and after an attempt that connected (whether
    the subscription then failed, the stream ended or it broke) the failure
    count is at most 3 and the delay, when there is one, is 2 seconds: the
    longer delays only follow failed connects in a row. *)
Theorem reconnect_delay_bounds `{Builtins} (handler_ok : pydict -> bool)
  (now_iso : string) (a : attempt) (c : WebSocketClient) :
  (forall d, snd (run_iteration handler_ok now_iso a c) = Some d ->
             2 <= d <= 30)
  /\ (a = ConnectFailed
      \/ (0 <= consecutive_failures
                 (stats (fst (run_iteration handler_ok now_iso a c))) <= 3
          /\ forall d, snd (run_iteration handler_ok now_iso a c) = Some d ->
                       d = 2)).
Proof.
  pose proof (run_iteration_spec handler_ok now_iso a c) as Hspec.
  destruct (run_iteration handler_ok now_iso a c) as [c' d].
  destruct Hspec as (Hf & Hs & Hd). simpl.
  assert (Hdelay : forall f, 2 <= reconnect_delay f <= 30).
  { intros f. unfold reconnect_delay.
    destruct (Z.leb_spec f 3); [lia|]. destruct (Z.leb_spec f 10); lia. }
  split.
  - intros x Hx. rewrite Hd in Hx.
    destruct (is_subscribe_failed a || is_shutting_down c); [discriminate|].
    injection Hx as <-. apply Hdelay.
  - destruct a as [|checks|frames checks|frames checks]; [now left|right..];
      simpl in Hf;
      pose proof (connection_monitor_bound checks 0 ltac:(lia)) as Hm;
      (split; [lia|]); intros x Hx; rewrite Hd in Hx;
      destruct (_ || _); try discriminate; injection Hx as <-;
      unfold reconnect_delay;
      destruct (Z.leb_spec (consecutive_failures (stats c')) 3); lia.
Qed.

End ReconnectDelay.

Section SubscriptionFacts.
Import Py WebSocket.

Lemma subscribe_known (sock : socket) (wallet ct : string) (s : Subscriptions) :
  sock <> Closed ->
  sub_key ct wallet ∈ subscribed_wallets s ->
  subscribe_to_wallet sock wallet ct s = (true, s).
Proof.
  intros Hopen Hin. unfold subscribe_to_wallet.
  destruct sock; [contradiction| |];
    now destruct (decide (sub_key ct wallet ∈ subscribed_wallets s)).
Qed.

Lemma subscribe_each_known (socks : nat -> socket)
  (pairs : list (string * string)) (s : Subscriptions) :
  (forall k, socks k <> Closed) ->
  Forall (fun p => sub_key (snd p) (fst p) ∈ subscribed_wallets s) pairs ->
  forall k, subscribe_each socks k pairs s = (Z.of_nat (length pairs), s).
Proof.
  intros Hopen. induction 1 as [|[w ct] pairs Hp _ IH]; intros k.
  - reflexivity.
  - cbn [subscribe_each]. rewrite subscribe_known by (auto; exact Hp).
    rewrite IH. f_equal. cbn [length]. lia.
Qed.

(** X19: on a socket that stays open, [subscribe_to_all_wallets] sends no
    subscription message for a pair (wallet, channel type) whose key is
    already in [subscribed_wallets]: when all the keys are there (as after a
    reconnect, the set being never cleared) it hands nothing to the new
    socket, changes nothing, and answers True unless no wallet is watched. *)
Theorem resubscription_sends_nothing (socks : nat -> socket)
  (watched : list string) (s : Subscriptions) :
  (forall k, socks k <> Closed) ->
  (forall w ct, In w watched -> In ct channel_types ->
                sub_key ct w ∈ subscribed_wallets s) ->
  subscribe_to_all_wallets true socks watched s
  = (match watched with [] => false | _ => true end, s).
Proof.
  intros Hopen Hall. unfold subscribe_to_all_wallets.
  rewrite subscribe_each_known; [|exact Hopen|].
  - f_equal. destruct watched; [reflexivity|]. simpl. reflexivity.
  - apply List.Forall_forall. intros [w ct] Hin.
    apply in_flat_map in Hin as (w' & Hw' & Hin).
    apply in_map_iff in Hin as (ct' & [= <- <-] & Hct). simpl. auto.
Qed.

(** X19, witness: wallet A subscribed on a first socket, then
    [subscribe_to_all_wallets] again on a second one. *)
Lemma resubscription_sends_nothing_witness :
  subscribe_to_all_wallets true (fun _ => SendOk) ["A"]
    (snd (subscribe_to_all_wallets true (fun _ => SendOk) ["A"]
            no_subscriptions))
  = (true,
     snd (subscribe_to_all_wallets true (fun _ => SendOk) ["A"]
            no_subscriptions)).
Proof.
  apply (resubscription_sends_nothing (fun _ => SendOk) ["A"]).
  - discriminate.
  - intros w ct [<-|[]] [<-|[<-|[<-|[]]]];
      apply (bool_decide_unpack _); vm_compute; exact I.
Defined.

Lemma subscribe_consistent (sock : socket) (wallet ct : string)
  (s : Subscriptions) :
  consistent s -> consistent (snd (subscribe_to_wallet sock wallet ct s)).
Proof.
  intros (Hcount & Hsets & Hcalls). unfold subscribe_to_wallet.
  destruct sock; simpl; [repeat split; assumption| |].
  - destruct (decide (sub_key ct wallet ∈ subscribed_wallets s)); simpl;
      [repeat split; assumption|].
    repeat split; simpl; try assumption. rewrite length_app. simpl. lia.
  - destruct (decide (sub_key ct wallet ∈ subscribed_wallets s)) as [Hin|Hin];
      simpl; [repeat split; assumption|].
    unfold consistent. simpl.
    rewrite size_union by set_solver. rewrite size_singleton.
    split; [lia|]. split.
    + intros ct' w'. destruct (decide (ct = ct')) as [<-|Hne].
      * rewrite lookup_insert_eq. simpl. intros Hw'.
        apply elem_of_union in Hw' as [Hw'|Hw'].
        -- apply elem_of_union. left. now apply Hsets.
        -- apply elem_of_singleton in Hw'. subst w'. set_solver.
      * rewrite lookup_insert_ne by exact Hne. intros Hw'.
        apply elem_of_union. left. now apply Hsets.
    + rewrite length_app. simpl. lia.
Qed.

Lemma subscribe_each_consistent (socks : nat -> socket)
  (pairs : list (string * string)) :
  forall k s, consistent s -> consistent (snd (subscribe_each socks k pairs s)).
Proof.
  induction pairs as [|[w ct] pairs IH]; intros k s Hs; [exact Hs|].
  cbn [subscribe_each].
  pose proof (subscribe_consistent (socks k) w ct s Hs) as H1.
  destruct (subscribe_to_wallet (socks k) w ct s) as [ok s1]. simpl in H1.
  pose proof (IH (S k) s1 H1) as H2.
  destruct (subscribe_each socks (S k) pairs s1) as [n s2]. exact H2.
Qed.

(** X20: [subscription_count] counts the distinct subscription keys: from a
    state where the counter is the size of [subscribed_wallets] (as when
    nothing is subscribed), [subscribe_to_all_wallets] leads to such a state,
    whatever the socket does, with every wallet of [wallet_subscriptions]
    under a key of the set, and no key without a call of [send]. *)
Theorem subscription_count_is_size (is_open : bool) (socks : nat -> socket)
  (watched : list string) (s : Subscriptions) :
  consistent s ->
  consistent (snd (subscribe_to_all_wallets is_open socks watched s)).
Proof.
  intros Hs. unfold subscribe_to_all_wallets.
  destruct is_open; [|exact Hs].
  pose proof (subscribe_each_consistent socks
                (flat_map (fun wallet => map (fun ct => (wallet, ct))
                                             channel_types) watched)
                0 s Hs) as H1.
  destruct (subscribe_each socks 0 _ s) as [n s']. exact H1.
Qed.

(** X20, witness: two wallets on a socket whose second send raises. *)
Lemma subscription_count_is_size_witness :
  consistent
    (snd (subscribe_to_all_wallets true
            (fun k => match k with 1%nat => SendRaises | _ => SendOk end)
            ["A"; "B"] no_subscriptions)).
Proof.
  apply subscription_count_is_size.
  split; [vm_compute; reflexivity|]. split.
  - intros ct w Hw. simpl in Hw. set_solver.
  - vm_compute. constructor.
Defined.

End SubscriptionFacts.

(* ================================================================== *)
(** * The rate limiter: the window strategies, the queue *)
(* ================================================================== *)

Section WindowStrategies.
Import Py RateLimiter.
Context {E : Type} `{Builtins}.
Implicit Types rl : RateLimiter E.

Lemma admission_requests_nil (cfg : RateLimitConfig) (now : Q)
  (s : ChannelStats) :
  requests s = [] -> requests (snd (admission cfg now s)) = [].
Proof.
  intros Hreq. unfold admission. rewrite Hreq.
  destruct (strategy cfg); simpl.
  - destruct (max_requests cfg <=? Z.of_nat 0); reflexivity.
  - destruct (max_requests cfg <=? Z.of_nat 0); reflexivity.
  - destruct (refilled cfg now _) as [tk|e]; [|exact Hreq].
    destruct (at_least_one tk); [reflexivity|].
    destruct (PrimFloat.eqb _ _); reflexivity.
  - exact Hreq.
Qed.

Lemma can_send_request_recorded now ch wallet rl :
  nothing_recorded rl ->
  nothing_recorded (snd (can_send_request now ch wallet rl))
  /\ config (snd (can_send_request now ch wallet rl)) = config rl.
Proof.
  intros Hinv. unfold can_send_request.
  destruct (_get_key ch wallet) as [key|e]; [|auto].
  set (s := match channel_stats rl !! key with
            | Some s => s
            | None => _
            end).
  assert (Hs : requests s = []).
  { subst s. destruct (channel_stats rl !! key) as [s|] eqn:Hk; [|reflexivity].
    eapply Hinv; eauto. }
  pose proof (admission_requests_nil (config rl) now s Hs) as Hs'.
  destruct (admission (config rl) now s) as [r s']. simpl in *.
  split; [|reflexivity]. intros k s1. simpl.
  destruct (decide (key = k)) as [<-|Hne].
  - rewrite lookup_insert_eq. now intros [= <-].
  - rewrite lookup_insert_ne by exact Hne. apply Hinv.
Qed.

Lemma add_pending_event_stats now ch wallet (ev : E) prio rl :
  channel_stats (snd (add_pending_event now ch wallet ev prio rl))
  = channel_stats rl
  /\ config (snd (add_pending_event now ch wallet ev prio rl)) = config rl.
Proof.
  unfold add_pending_event. destruct (_get_key ch wallet); auto.
Qed.

Lemma clear_pending_events_stats ch wallet rl :
  channel_stats (snd (clear_pending_events ch wallet rl)) = channel_stats rl
  /\ config (snd (clear_pending_events ch wallet rl)) = config rl.
Proof.
  unfold clear_pending_events. destruct (_get_key ch wallet); [|auto].
  destruct (pending_get _ _); auto.
Qed.

Lemma flush_scan_recorded now (items : list (string * list (PendingEvent E))) :
  forall rl,
  nothing_recorded rl ->
  nothing_recorded (snd (flush_scan now items rl))
  /\ config (snd (flush_scan now items rl)) = config rl.
Proof.
  induction items as [|[key evs] items IH]; intros rl Hinv; simpl; [auto|].
  destruct evs as [|ev evs]; [now apply IH|].
  destruct (split_colon key) as [[ch wl]|]; [|auto].
  destruct (can_send_request_recorded now ch (PStr wl) rl Hinv) as [Hinv1 Hc1].
  destruct (can_send_request now ch (PStr wl) rl) as [[[can wt]|e] rl1];
    simpl in *; [|auto].
  destruct (IH rl1 Hinv1) as [Hinv2 Hc2].
  destruct (flush_scan now items rl1) as [r rl2]. simpl in *.
  split; [assumption | congruence].
Qed.

Lemma flush_clear_recorded (keys : list string) :
  forall rl,
  nothing_recorded rl ->
  nothing_recorded (snd (flush_clear keys rl))
  /\ config (snd (flush_clear keys rl)) = config rl.
Proof.
  induction keys as [|key keys IH]; intros rl Hinv; simpl; [auto|].
  destruct (split_colon key) as [[ch wl]|]; [|auto].
  destruct (clear_pending_events_stats ch (PStr wl) rl) as [Hst Hc].
  destruct (clear_pending_events ch (PStr wl) rl) as [[n|e] rl1];
    simpl in *; [|split; [unfold nothing_recorded; now rewrite Hst | exact Hc]].
  destruct (IH rl1) as [Hinv2 Hc2];
    [unfold nothing_recorded; now rewrite Hst|].
  split; [assumption | congruence].
Qed.

Lemma reachable_recorded (cfg : RateLimitConfig) rl :
  reachable cfg rl -> nothing_recorded rl /\ config rl = cfg.
Proof.
  induction 1 as [| now ch wallet rl _ [IH Hc] | now ch wallet ev prio rl _ [IH Hc]
                 | ch wallet rl _ [IH Hc] | now rl _ [IH Hc] | now rl _ [IH Hc]].
  - split; [|reflexivity]. intros key s Hk. simpl in Hk.
    now rewrite lookup_empty in Hk.
  - destruct (can_send_request_recorded now ch wallet rl IH).
    split; [assumption | congruence].
  - destruct (add_pending_event_stats now ch wallet ev prio rl) as [Hst Hc'].
    split; [unfold nothing_recorded; now rewrite Hst | congruence].
  - destruct (clear_pending_events_stats ch wallet rl) as [Hst Hc'].
    split; [unfold nothing_recorded; now rewrite Hst | congruence].
  - unfold flush_iteration.
    destruct (flush_scan_recorded now (pending_events rl) rl IH) as [H1 Hc1].
    destruct (flush_scan now (pending_events rl) rl) as [[keys|e] rl1];
      simpl in *; [|split; [assumption | congruence]].
    destruct (flush_clear_recorded keys rl1 H1) as [H2 Hc2].
    split; [assumption | congruence].
  - unfold refill_iteration. destruct (strategy (config rl)); try (split; assumption).
    split; [|exact Hc]. intros key s Hk. simpl in Hk.
    rewrite lookup_fmap in Hk.
    destruct (channel_stats rl !! key) as [s0|] eqn:Hk0; [|discriminate].
    simpl in Hk. injection Hk as <-.
    destruct (refilled (config rl) now s0); simpl; eapply IH; eauto.
Qed.

Lemma requests_at_reachable (cfg : RateLimitConfig) (times : list Q)
  (ch : string) (wallet : pyval) :
  forall rl, reachable cfg rl ->
             reachable cfg (snd (requests_at times ch wallet rl)).
Proof.
  induction times as [|t times IH]; intros rl Hr; [exact Hr|].
  cbn [requests_at].
  pose proof (reach_can_send cfg t ch wallet rl Hr) as H1.
  destruct (can_send_request t ch wallet rl) as [r rl1]. simpl in H1.
  specialize (IH rl1 H1).
  now destruct (requests_at times ch wallet rl1).
Qed.

End WindowStrategies.

Section WindowStrategiesClaim.
Import Py RateLimiter.

(** X22: a limiter with a window strategy never turns a request down.
    Nothing records the time of a request, so on every limiter reached from
    [RateLimiter(config)] through its methods and background loops the window
    is empty: with [max_requests] above 0 [can_send_request] answers
    (True, 0), and with [max_requests] at 0 or below it raises (IndexError
    for the fixed window, ValueError for the sliding one) instead of
    answering False. *)
Theorem window_limiter_never_denies {E : Type} `{Builtins}
  (cfg : RateLimitConfig) (rl : RateLimiter E) (now : Q) (ch : string)
  (wallet : pyval) (key : string) :
  reachable cfg rl ->
  strategy cfg = SLIDING_WINDOW \/ strategy cfg = FIXED_WINDOW ->
  _get_key ch wallet = Ok key ->
  fst (can_send_request now ch wallet rl)
  = if 0 <? max_requests cfg then Ok (true, 0%Q)
    else Raise (match strategy cfg with
                | FIXED_WINDOW => IndexError
                | _ => ValueError
                end).
Proof.
  intros Hreach Hs Hkey. apply reachable_recorded in Hreach as [Hinv Hc].
  unfold can_send_request. rewrite Hkey.
  set (s := match channel_stats rl !! key with
            | Some s => s
            | None => _
            end).
  assert (Hreq : requests s = []).
  { subst s. destruct (channel_stats rl !! key) as [s|] eqn:Hk; [|reflexivity].
    eapply Hinv; eauto. }
  rewrite Hc. unfold admission. rewrite Hreq.
  destruct Hs as [-> | ->]; simpl; change (Z.of_nat 0) with 0;
    destruct (Z.leb_spec (max_requests cfg) 0), (Z.ltb_spec 0 (max_requests cfg));
    try lia; reflexivity.
Qed.

(** X22, witness: the Discord limiter after ten requests of one wallet in
    ten seconds; the eleventh is let through. *)
Lemma window_limiter_never_denies_witness :
  fst (can_send_request (H := Scenario.builtins) 10 "discord"
         (PStr "0x1234567890abcdef")
         (snd (requests_at (H := Scenario.builtins)
                 [0; 1; 2; 3; 4; 5; 6; 7; 8; 9]%Q "discord"
                 (PStr "0x1234567890abcdef")
                 (init (E := Engine.Notification) discord_config))))
  = Ok (true, 0%Q).
Proof.
  apply (window_limiter_never_denies (H := Scenario.builtins) discord_config
           _ 10 "discord" (PStr "0x1234567890abcdef") "discord:0x123456").
  - apply requests_at_reachable, reach_init.
  - left. reflexivity.
  - reflexivity.
Defined.

End WindowStrategiesClaim.

Section TokenBucketRounding.
Import Py RateLimiter Scenario.

(** X21: the token bucket counts in binary64, and its rounding shows on both
    sides of the exact count. After five requests let through at reading 0,
    requests at the readings 1, 2, ..., 10 are all denied: the ten refills of
    0.1 add up to 0.9999999999999999, below one token, 10 seconds after the
    bucket was emptied. Requests at 3, at 6 and at 9.999999999999998 see the
    last one let through: the refills add up to 1.0 before 10 seconds have
    passed. *)
Theorem token_bucket_rounds_in_binary64 :
  answers [0; 0; 0; 0; 0; 1; 2; 3; 4; 5; 6; 7; 8; 9; 10]%Q
  = map Ok [true; true; true; true; true; false; false; false; false; false;
            false; false; false; false; false]
  /\ float_of_Q (5629499534213119 # 562949953421312)
     = 9.999999999999998%float
  /\ Qlt (5629499534213119 # 562949953421312) 10
  /\ answers [0; 0; 0; 0; 0; 3; 6; 5629499534213119 # 562949953421312]%Q
     = map Ok [true; true; true; true; true; false; false; true].
Proof.
  split; [vm_compute; reflexivity|]. split; [vm_compute; reflexivity|].
  split; [reflexivity|]. vm_compute. reflexivity.
Qed.

End TokenBucketRounding.

Section PendingQueue.
Import Py RateLimiter.

Section Sorting.
Context {A : Type} (prio : A -> Z).

Lemma sorted_desc_head (x : A) (l : list A) :
  sorted_desc prio (x :: l) -> Forall (fun y => prio y <= prio x) l.
Proof.
  revert x. induction l as [|y l IH]; intros x Hs; [constructor|].
  destruct Hs as [Hxy Hs]. constructor; [exact Hxy|].
  eapply Forall_impl; [apply IH; exact Hs|]. simpl. intros z Hz. lia.
Qed.

Lemma insert_desc_sorted (x : A) (l : list A) :
  sorted_desc prio l -> sorted_desc prio (insert_desc prio x l).
Proof.
  induction l as [|y l IH]; intros Hs; [simpl; auto|].
  cbn [insert_desc]. destruct (Z.ltb_spec (prio x) (prio y)).
  - destruct Hs as [Hy Hs]. specialize (IH Hs).
    split; [|exact IH].
    destruct l as [|z l]; cbn [insert_desc] in *; [lia|].
    destruct (prio x <? prio z); [exact Hy | lia].
  - split; [lia | exact Hs].
Qed.

Lemma sort_desc_sorted (l : list A) : sorted_desc prio (sort_desc prio l).
Proof.
  induction l as [|x l IH]; [exact I|]. now apply insert_desc_sorted.
Qed.

Lemma insert_desc_length (x : A) (l : list A) :
  length (insert_desc prio x l) = S (length l).
Proof.
  induction l as [|y l IH]; [reflexivity|]. cbn [insert_desc].
  destruct (prio x <? prio y); simpl; [now rewrite IH | reflexivity].
Qed.

Lemma sort_desc_length (l : list A) : length (sort_desc prio l) = length l.
Proof.
  induction l as [|x l IH]; [reflexivity|].
  cbn [sort_desc fold_right]. fold (sort_desc prio l).
  now rewrite insert_desc_length, IH.
Qed.

Lemma filter_all (f : A -> bool) (l : list A) :
  Forall (fun y => f y = true) l -> List.filter f l = l.
Proof.
  induction 1 as [|y l Hy _ IH]; [reflexivity|]. simpl. now rewrite Hy, IH.
Qed.

Lemma filter_none (f : A -> bool) (l : list A) :
  Forall (fun y => f y = false) l -> List.filter f l = [].
Proof.
  induction 1 as [|y l Hy _ IH]; [reflexivity|]. simpl. now rewrite Hy, IH.
Qed.

(** Sorting a sorted list with one more element at its end: the element goes
    behind the elements of the same or a higher priority, before the
    others. *)
Lemma sort_desc_snoc (x : A) (l : list A) :
  sorted_desc prio l ->
  sort_desc prio (l ++ [x])
  = List.filter (fun y => prio x <=? prio y) l
    ++ [x] ++ List.filter (fun y => prio y <? prio x) l.
Proof.
  induction l as [|y l IH]; intros Hs; [reflexivity|].
  pose proof (sorted_desc_head y l Hs) as Hle.
  destruct Hs as [_ Hs]. specialize (IH Hs).
  change (sort_desc prio ((y :: l) ++ [x]))
    with (insert_desc prio y (sort_desc prio (l ++ [x]))).
  rewrite IH. cbn [List.filter].
  destruct (Z.leb_spec (prio x) (prio y)) as [Hxy|Hxy].
  - destruct (Z.ltb_spec (prio y) (prio x)); [lia|].
    destruct (List.filter (fun y0 => prio x <=? prio y0) l) as [|z f] eqn:Hf.
    + cbn [app insert_desc].
      destruct (Z.ltb_spec (prio y) (prio x)); [lia | reflexivity].
    + cbn [app insert_desc].
      assert (Hz : prio z <= prio y).
      { assert (Hin : In z (List.filter (fun y0 => prio x <=? prio y0) l))
          by (rewrite Hf; now left).
        apply filter_In in Hin as [Hin _].
        rewrite List.Forall_forall in Hle. now apply Hle. }
      destruct (Z.ltb_spec (prio y) (prio z)); [lia | reflexivity].
  - destruct (Z.ltb_spec (prio y) (prio x)); [|lia].
    rewrite filter_none, filter_all.
    + cbn [app insert_desc].
      destruct (Z.ltb_spec (prio y) (prio x)); [|lia].
      f_equal. destruct l as [|z l]; [reflexivity|]. cbn [insert_desc].
      apply Forall_cons_iff in Hle as [Hz _].
      destruct (Z.ltb_spec (prio y) (prio z)); [lia | reflexivity].
    + eapply Forall_impl; [exact Hle|]. simpl. intros z Hz.
      apply Z.ltb_lt. lia.
    + eapply Forall_impl; [exact Hle|]. simpl. intros z Hz.
      apply Z.leb_gt. lia.
Qed.

End Sorting.

Context {E : Type} `{Builtins}.
Implicit Types rl : RateLimiter E.

Lemma pending_get_set_other (key k : string) (evs : list (PendingEvent E))
  (p : list (string * list (PendingEvent E))) :
  k <> key -> pending_get k (pending_set key evs p) = pending_get k p.
Proof.
  intros Hne. induction p as [|[k0 evs0] p IH]; simpl.
  - apply String.eqb_neq in Hne. now rewrite Hne.
  - destruct (String.eqb_spec key k0) as [->|Hk0]; simpl.
    + apply String.eqb_neq in Hne. now rewrite Hne.
    + destruct (String.eqb k k0); [reflexivity | exact IH].
Qed.

Lemma pending_set_NoDup (key : string) (evs : list (PendingEvent E))
  (p : list (string * list (PendingEvent E))) :
  NoDup (map fst p) -> NoDup (map fst (pending_set key evs p)).
Proof.
  intros Hnd. rewrite pending_set_keys.
  destruct (pending_get key p) eqn:Hk; [exact Hnd|].
  apply NoDup_app. split; [exact Hnd|]. split.
  - intros k Hk1 Hk2. apply list_elem_of_In in Hk1, Hk2.
    destruct Hk2 as [<-|[]]. apply pending_get_In in Hk. contradiction.
  - apply NoDup_singleton.
Qed.

End PendingQueue.

Section PendingQueueClaims.
Import Py RateLimiter.

(** X23: the pending events of a key are kept by decreasing priority, and
    first come first among equals: when they are so ordered,
    [add_pending_event] puts the new event behind the events whose priority
    is the same or higher and before the events whose priority is lower, and
    the queue is ordered again afterwards. *)
Theorem pending_priority_order {E : Type} `{Builtins} (now : Q)
  (ch wl : string) (ev : E) (prio : Z) (rl : RateLimiter E)
  (old : list (PendingEvent E)) :
  pending_get (ch ++ ":" ++ substring 0 8 wl)%string (pending_events rl)
  = Some old ->
  sorted_desc priority old ->
  get_pending_events ch (PStr wl)
    (snd (add_pending_event now ch (PStr wl) ev prio rl))
  = Ok (map event (List.filter (fun pe => prio <=? priority pe) old)
        ++ [ev]
        ++ map event (List.filter (fun pe => priority pe <? prio) old))
  /\ exists new,
       pending_get (ch ++ ":" ++ substring 0 8 wl)%string
         (pending_events (snd (add_pending_event now ch (PStr wl) ev prio rl)))
       = Some new
       /\ sorted_desc priority new.
Proof.
  intros Hold Hsorted.
  unfold get_pending_events, add_pending_event. simpl. rewrite Hold.
  rewrite pending_get_set_same. split.
  - rewrite (sort_desc_snoc priority _ old Hsorted). simpl.
    now rewrite !map_app.
  - eexists. split; [reflexivity|]. apply sort_desc_sorted.
Qed.

(** X23, witness: three notifications deferred on one key with the
    priorities 1, 5, 1, then a fourth with priority 5: it goes second. *)
Lemma pending_priority_order_witness :
  get_pending_events (H := Scenario.builtins) "discord" (PStr "0xabcdef0123")
    (snd (add_pending_event (H := Scenario.builtins) 3 "discord"
            (PStr "0xabcdef0123") 40%nat 5
            (snd (add_pending_event (H := Scenario.builtins) 2 "discord"
                    (PStr "0xabcdef0123") 30%nat 1
                    (snd (add_pending_event (H := Scenario.builtins) 1
                            "discord" (PStr "0xabcdef0123") 20%nat 5
                            (snd (add_pending_event (H := Scenario.builtins)
                                    0 "discord" (PStr "0xabcdef0123") 10%nat 1
                                    (init discord_config)))))))))
  = Ok [20%nat; 40%nat; 10%nat; 30%nat].
Proof.
  refine (eq_trans
            (proj1 (pending_priority_order (H := Scenario.builtins) 3
                      "discord" "0xabcdef0123" 40%nat 5 _ _ _ _)) _).
  - vm_compute. reflexivity.
  - simpl. lia.
  - vm_compute. reflexivity.
Defined.

(** X24: with the keys of [pending_events] distinct, [add_pending_event]
    adds one to the pending count of its key and leaves the pending events
    of every other key; [clear_pending_events] then returns that count and
    leaves the key with no pending event. *)
Theorem pending_add_then_clear {E : Type} `{Builtins} (now : Q)
  (ch wl : string) (ev : E) (prio : Z) (rl : RateLimiter E) :
  NoDup (map fst (pending_events rl)) ->
  exists n,
    get_pending_count ch (PStr wl) rl = Ok n
    /\ get_pending_count ch (PStr wl)
         (snd (add_pending_event now ch (PStr wl) ev prio rl)) = Ok (n + 1)
    /\ (forall ch' wl',
          (ch' ++ ":" ++ substring 0 8 wl')%string
          <> (ch ++ ":" ++ substring 0 8 wl)%string ->
          get_pending_events ch' (PStr wl')
            (snd (add_pending_event now ch (PStr wl) ev prio rl))
          = get_pending_events ch' (PStr wl') rl)
    /\ fst (clear_pending_events ch (PStr wl)
              (snd (add_pending_event now ch (PStr wl) ev prio rl)))
       = Ok (n + 1)
    /\ get_pending_events ch (PStr wl)
         (snd (clear_pending_events ch (PStr wl)
                 (snd (add_pending_event now ch (PStr wl) ev prio rl))))
       = Ok [].
Proof.
  intros Hnd.
  unfold get_pending_count, get_pending_events, add_pending_event,
    clear_pending_events. simpl.
  set (key := (ch ++ ":" ++ substring 0 8 wl)%string).
  set (old := match pending_get key (pending_events rl) with
              | Some evs => evs
              | None => []
              end).
  exists (Z.of_nat (length old)). split.
  { subst old. now destruct (pending_get key (pending_events rl)). }
  rewrite !pending_get_set_same. simpl.
  rewrite sort_desc_length, length_app. simpl.
  split; [f_equal; lia|]. split.
  { intros ch' wl' Hne. now rewrite pending_get_set_other. }
  split; [f_equal; lia|].
  rewrite pending_get_del_same; [reflexivity|].
  now apply pending_set_NoDup.
Qed.

(** X24, witness: a notification deferred on the fresh Discord limiter. *)
Lemma pending_add_then_clear_witness :
  exists n,
    get_pending_count (H := Scenario.builtins) "discord" (PStr "0xabcdef0123")
      (init (E := nat) discord_config) = Ok n
    /\ fst (clear_pending_events (H := Scenario.builtins) "discord"
              (PStr "0xabcdef0123")
              (snd (add_pending_event (H := Scenario.builtins) 0 "discord"
                      (PStr "0xabcdef0123") 10%nat 0 (init discord_config))))
       = Ok (n + 1).
Proof.
  destruct (pending_add_then_clear (H := Scenario.builtins) 0 "discord"
              "0xabcdef0123" 10%nat 0 (init discord_config))
    as (n & Hn & _ & _ & Hc & _).
  - constructor.
  - exists n. split; assumption.
Defined.

End PendingQueueClaims.

(* ================================================================== *)
(** * The dispatcher: accounting, channels, retries *)
(* ================================================================== *)

Section DispatchAccounting.
Import Py Dispatcher.
Context `{Builtins}.

Lemma dispatched_refl (w : World) : dispatched w w 0 0 [].
Proof.
  unfold dispatched. rewrite app_nil_r. simpl. repeat split; lia.
Qed.

Lemma dispatched_trans (w1 w2 w3 : World) (k1 k2 ok1 ok2 : Z)
  (n1 n2 : list (string * pyval)) :
  dispatched w1 w2 k1 ok1 n1 -> dispatched w2 w3 k2 ok2 n2 ->
  dispatched w1 w3 (k1 + k2) (ok1 + ok2) (n1 ++ n2).
Proof.
  intros (Hs1 & Ha1 & Hn1 & Hq1 & Hr1 & Hc1 & Hl1)
         (Hs2 & Ha2 & Hn2 & Hq2 & Hr2 & Hc2 & Hl2).
  unfold dispatched. rewrite Hs2, Hs1, app_assoc, length_app.
  repeat split; try lia; congruence.
Qed.

Lemma send_now_dispatched env now ch wallet c n (w0 w : World) :
  sent w = sent w0 -> dispatcher w = dispatcher w0 ->
  dispatched w0 (snd (send_now env now ch wallet c n w)) 1
    (if success (fst (send_now env now ch wallet c n w)) then 1 else 0)
    (if known_channel ch then [(ch, c)] else []).
Proof.
  intros Hs Hd. unfold send_now, _send_notification_to_channel.
  destruct (known_channel ch); [destruct (env (length (sent w)))|];
    unfold dispatched, accounted; simpl; rewrite ?Hs, ?Hd, ?app_nil_r;
    rewrite ?length_app; simpl; repeat split; lia.
Qed.

Lemma send_failed_dispatched now ch wallet c n e (w0 w : World) :
  sent w = sent w0 -> dispatcher w = dispatcher w0 ->
  dispatched w0 (snd (send_failed now ch wallet c n e w)) 1 0 [].
Proof.
  intros Hs Hd. unfold send_failed, dispatched, accounted. simpl.
  rewrite Hs, Hd, app_nil_r, length_app. simpl. repeat split; lia.
Qed.

Lemma send_to_channel_dispatched env now ch wallet c n w :
  exists new,
    dispatched w (snd (_send_to_channel env now ch wallet c n w)) 1
      (if success (fst (_send_to_channel env now ch wallet c n w))
       then 1 else 0)
      new
    /\ (new = [] \/ (new = [(ch, c)] /\ known_channel ch = true)).
Proof.
  assert (Hnow : forall w1, sent w1 = sent w -> dispatcher w1 = dispatcher w ->
            exists new,
              dispatched w (snd (send_now env now ch wallet c n w1)) 1
                (if success (fst (send_now env now ch wallet c n w1))
                 then 1 else 0) new
              /\ (new = [] \/ (new = [(ch, c)] /\ known_channel ch = true))).
  { intros w1 Hs Hd. eexists. split; [now apply send_now_dispatched|].
    destruct (known_channel ch); auto. }
  unfold _send_to_channel.
  destruct (limiter_get ch (rate_limiters w)) as [rl|]; [|now apply Hnow].
  destruct (RateLimiter.can_send_request now ch wallet rl)
    as [[[[|] wt]|e] rl'].
  - apply Hnow; reflexivity.
  - destruct (RateLimiter.add_pending_event now ch wallet n 0 rl')
      as [[[]|e] rl''].
    + exists []. split; [|now left].
      unfold dispatched, accounted. simpl. rewrite app_nil_r.
      repeat split; lia.
    + exists []. split; [|now left].
      apply (send_failed_dispatched now ch wallet c n e w
               (with_limiter ch rl'' w)); reflexivity.
  - exists []. split; [|now left].
    apply (send_failed_dispatched now ch wallet c n e w
             (with_limiter ch rl' w)); reflexivity.
Qed.

Lemma dispatch_channels_dispatched env now n (chs : list (string * bool)) :
  forall w,
  exists new,
    dispatched w (snd (dispatch_channels env now n chs w))
      (Z.of_nat (length (fst (dispatch_channels env now n chs w))))
      (successes (fst (dispatch_channels env now n chs w)))
      new
    /\ Forall (fun call =>
                 In (fst call, true) chs
                 /\ lookup (fst call) (Engine.formatted n) = Some (snd call)
                 /\ known_channel (fst call) = true)
              new.
Proof.
  induction chs as [|[ch en] chs IH]; intros w.
  - exists []. split; [apply dispatched_refl | constructor].
  - cbn [dispatch_channels].
    assert (Hskip : exists new,
              dispatched w (snd (dispatch_channels env now n chs w))
                (Z.of_nat (length (fst (dispatch_channels env now n chs w))))
                (successes (fst (dispatch_channels env now n chs w))) new
              /\ Forall (fun call =>
                           In (fst call, true) ((ch, en) :: chs)
                           /\ lookup (fst call) (Engine.formatted n)
                              = Some (snd call)
                           /\ known_channel (fst call) = true) new).
    { destruct (IH w) as (new & Hd & Hall). exists new. split; [exact Hd|].
      eapply Forall_impl; [exact Hall|]. simpl. intros x (? & ? & ?).
      repeat split; auto. }
    destruct en; [|exact Hskip].
    destruct (lookup ch (Engine.formatted n)) as [c|] eqn:Hc; [|exact Hskip].
    destruct (send_to_channel_dispatched env now ch
                (Engine.wallet (Engine.context n)) c n w) as (n1 & Hd1 & Hn1).
    destruct (_send_to_channel env now ch (Engine.wallet (Engine.context n))
                c n w) as [r w1]. cbn [fst snd] in Hd1.
    destruct (IH w1) as (n2 & Hd2 & Hall).
    destruct (dispatch_channels env now n chs w1) as [rs w2].
    cbn [fst snd] in *. exists (n1 ++ n2). split.
    + pose proof (dispatched_trans _ _ _ _ _ _ _ _ _ Hd1 Hd2) as Hd.
      replace (Z.of_nat (length (r :: rs)))
        with (1 + Z.of_nat (length rs)) by (cbn [length]; lia).
      replace (successes (r :: rs))
        with ((if success r then 1 else 0) + successes rs).
      * exact Hd.
      * unfold successes. cbn [List.filter].
        destruct (success r); cbn [length]; lia.
    + apply Forall_app. split.
      * destruct Hn1 as [-> | [-> Hk]]; [constructor|].
        constructor; [|constructor]. simpl. auto.
      * eapply Forall_impl; [exact Hall|]. simpl. intros x (? & ? & ?).
        repeat split; auto.
Qed.

End DispatchAccounting.

Section DispatchClaims.
Import Py Dispatcher.

(** X25: [dispatch_notification] accounts for every attempt once: each
    result it returns adds one to exactly one of [notifications_sent],
    [notifications_failed] and [rate_limited]; the successes among the
    results are what is added to [notifications_sent]; every failure counted
    puts one item in the retry queue; and the send primitives are called at
    most once per result. *)
Theorem dispatch_accounting `{Builtins} (env : nat -> bool) (now : Q)
  (n : Engine.Notification) (w : World) :
  accounted (dispatcher (snd (dispatch_notification env now n w)))
  = accounted (dispatcher w)
    + Z.of_nat (length (fst (dispatch_notification env now n w)))
  /\ notifications_sent
       (stats (dispatcher (snd (dispatch_notification env now n w))))
     = notifications_sent (stats (dispatcher w))
       + successes (fst (dispatch_notification env now n w))
  /\ Z.of_nat (length (retry_queue
                         (dispatcher (snd (dispatch_notification env now n w)))))
     = Z.of_nat (length (retry_queue (dispatcher w)))
       + (notifications_failed
            (stats (dispatcher (snd (dispatch_notification env now n w))))
          - notifications_failed (stats (dispatcher w)))
  /\ (length (sent (snd (dispatch_notification env now n w)))
      <= length (sent w)
         + length (fst (dispatch_notification env now n w)))%nat.
Proof.
  unfold dispatch_notification.
  destruct (dispatch_channels_dispatched env now n
              (channel_availability (dispatcher w)) w)
    as (new & (Hs & Ha & Hn & Hq & _ & _ & Hl) & _).
  rewrite Hs, length_app. repeat split; try assumption. lia.
Qed.

(** X26: [dispatch_notification] calls a send primitive only for a channel
    that is enabled in [channel_availability], and with the content the
    notification holds for that channel; a disabled channel, or one without
    formatted content, is never sent to. *)
Theorem dispatch_only_enabled_channels `{Builtins} (env : nat -> bool)
  (now : Q) (n : Engine.Notification) (w : World) :
  exists new,
    sent (snd (dispatch_notification env now n w)) = sent w ++ new
    /\ Forall (fun call =>
                 In (fst call, true) (channel_availability (dispatcher w))
                 /\ lookup (fst call) (Engine.formatted n) = Some (snd call))
              new.
Proof.
  unfold dispatch_notification.
  destruct (dispatch_channels_dispatched env now n
              (channel_availability (dispatcher w)) w)
    as (new & (Hs & _) & Hall).
  exists new. split; [exact Hs|].
  eapply Forall_impl; [exact Hall|]. simpl. intros x (? & ? & _). auto.
Qed.

End DispatchClaims.

Section RetryAccounting.
Import Py Dispatcher.

Lemma retried_refl (w : World) : retried w w 0 [].
Proof. unfold retried. rewrite app_nil_r. repeat split; lia. Qed.

Lemma retried_trans (w1 w2 w3 : World) (k1 k2 : Z)
  (n1 n2 : list (string * pyval)) :
  retried w1 w2 k1 n1 -> retried w2 w3 k2 n2 ->
  retried w1 w3 (k1 + k2) (n1 ++ n2).
Proof.
  intros (Hs1 & Hl1 & Hr1 & Hrl1 & Hk1 & Hm1) (Hs2 & Hl2 & Hr2 & Hrl2 & Hk2 & Hm2).
  unfold retried. rewrite Hs2, Hs1, app_assoc.
  repeat split; try lia; congruence.
Qed.

Lemma retry_one_retried env now (w : World) (item : RetryItem) :
  retried w (retry_one env now w item) 1
    (if known_channel (item_channel item)
     then [(item_channel item, content item)] else []).
Proof.
  unfold retry_one, _send_notification_to_channel.
  destruct (known_channel (item_channel item)).
  - cbn [with_dispatcher sent dispatcher rate_limiters].
    destruct (env (length (sent w))).
    + unfold retried. simpl. repeat split; lia.
    + destruct (retry_count item + 1 <? max_retries (count_retry (dispatcher w)));
        unfold retried; simpl; rewrite ?length_app; simpl; repeat split; lia.
  - destruct (retry_count item + 1 <? max_retries (count_retry (dispatcher w)));
      unfold retried; simpl; rewrite ?length_app, ?app_nil_r; simpl;
      repeat split; lia.
Qed.

Lemma retry_fold_retried env now (items : list RetryItem) :
  forall w,
  retried w (fold_left (retry_one env now) items w)
    (Z.of_nat (length items)) (retry_calls items).
Proof.
  induction items as [|item items IH]; intros w; [apply retried_refl|].
  cbn [fold_left].
  pose proof (retried_trans _ _ _ _ _ _ _
                (retry_one_retried env now w item)
                (IH (retry_one env now w item))) as Hr.
  replace (Z.of_nat (length (item :: items)))
    with (1 + Z.of_nat (length items)) by (cbn [length]; lia).
  replace (retry_calls (item :: items))
    with ((if known_channel (item_channel item)
           then [(item_channel item, content item)] else [])
          ++ retry_calls items); [exact Hr|].
  unfold retry_calls. cbn [List.filter].
  destruct (known_channel (item_channel item)); reflexivity.
Qed.

(** X27: the retry worker sends without asking the rate limiters. An
    iteration of [_process_retries] leaves every rate limiter as it is and
    [rate_limited] unchanged; it retries the items that are ready, one call
    of a send primitive for each (on a known channel), adds their number to
    [retries_attempted], and each of them ends up counted as sent, counted
    as failed, or back in the queue behind the items that were not ready. *)
Theorem retries_bypass_rate_limits (env : nat -> bool) (now : Q) (w : World) :
  rate_limiters (process_retries env now w) = rate_limiters w
  /\ rate_limited (stats (dispatcher (process_retries env now w)))
     = rate_limited (stats (dispatcher w))
  /\ sent (process_retries env now w)
     = sent w
       ++ retry_calls
            (List.filter (ready (max_retries (dispatcher w)) now)
                         (retry_queue (dispatcher w)))
  /\ retries_attempted (stats (dispatcher (process_retries env now w)))
     = retries_attempted (stats (dispatcher w))
       + Z.of_nat (length (List.filter (ready (max_retries (dispatcher w)) now)
                                       (retry_queue (dispatcher w))))
  /\ Z.of_nat (length (List.filter (ready (max_retries (dispatcher w)) now)
                                   (retry_queue (dispatcher w))))
     = (notifications_sent (stats (dispatcher (process_retries env now w)))
        - notifications_sent (stats (dispatcher w)))
       + (notifications_failed (stats (dispatcher (process_retries env now w)))
          - notifications_failed (stats (dispatcher w)))
       + (Z.of_nat (length (retry_queue (dispatcher (process_retries env now w))))
          - Z.of_nat (length (List.filter
                                (fun i => negb (ready (max_retries (dispatcher w))
                                                      now i))
                                (retry_queue (dispatcher w))))).
Proof.
  unfold process_retries.
  destruct (retry_fold_retried env now
              (List.filter (ready (max_retries (dispatcher w)) now)
                           (retry_queue (dispatcher w)))
              (with_dispatcher
                 (with_queue
                    (List.filter
                       (fun i => negb (ready (max_retries (dispatcher w)) now i))
                       (retry_queue (dispatcher w)))
                    (dispatcher w)) w))
    as (Hs & Hl & Hr & Hrl & Hk & _).
  simpl in Hs, Hl, Hr, Hrl, Hk. repeat split; assumption.
Qed.

End RetryAccounting.

Section WalletWithoutKey.
Import Py Dispatcher.

Lemma limiter_set_same ch rl ls :
  limiter_get ch ls = Some rl -> limiter_set ch rl ls = ls.
Proof.
  induction ls as [|[k rl0] ls IH]; simpl; [reflexivity|].
  destruct (String.eqb_spec ch k) as [->|Hne].
  - now intros [= ->].
  - intros Hg. now rewrite IH.
Qed.

(** X28: on a channel with a rate limiter, a notification whose wallet
    gives no rate-limit key (it is neither a string nor a list, so slicing it
    raises) is not sent by [_send_to_channel]: the exception is caught, the
    attempt is counted as failed and the notification is queued for a first
    retry [retry_delay_base] seconds later, with no call of a send primitive
    and the rate limiters unchanged. *)
Theorem wallet_without_key_is_queued `{Builtins} (env : nat -> bool) (now : Q)
  (ch : string) (wallet c : pyval) (n : Engine.Notification) (w : World)
  (rl : RateLimiter.RateLimiter Engine.Notification) (e : exn) :
  limiter_get ch (rate_limiters w) = Some rl ->
  RateLimiter._get_key ch wallet = Raise e ->
  fst (_send_to_channel env now ch wallet c n w)
  = {| channel := ch; success := false; error := Some (Exception e) |}
  /\ sent (snd (_send_to_channel env now ch wallet c n w)) = sent w
  /\ rate_limiters (snd (_send_to_channel env now ch wallet c n w))
     = rate_limiters w
  /\ notifications_failed
       (stats (dispatcher (snd (_send_to_channel env now ch wallet c n w))))
     = notifications_failed (stats (dispatcher w)) + 1
  /\ retry_queue (dispatcher (snd (_send_to_channel env now ch wallet c n w)))
     = retry_queue (dispatcher w)
       ++ [{| item_channel := ch; item_wallet := wallet; content := c;
              notification := n; retry_count := 0;
              next_retry :=
                (now + inject_Z (retry_delay_base (dispatcher w)))%Q;
              created_at := now |}].
Proof.
  intros Hrl Hkey. unfold _send_to_channel. rewrite Hrl.
  unfold RateLimiter.can_send_request. rewrite Hkey.
  unfold send_failed, with_limiter. simpl.
  rewrite (limiter_set_same _ _ _ Hrl). repeat split; reflexivity.
Qed.

(** X28, witness: a notification whose context has the wallet 7, on the
    Discord channel. *)
Lemma wallet_without_key_is_queued_witness :
  sent (snd (_send_to_channel (H := Scenario.builtins) (fun _ => true) 0
               "discord" (PInt 7) (PStr "d") (Scenario.notification "x")
               (init_world (init true true true true))))
  = sent (init_world (init true true true true)).
Proof.
  refine (proj1 (proj2 (wallet_without_key_is_queued (H := Scenario.builtins)
                          (fun _ => true) 0 "discord" (PInt 7) (PStr "d")
                          (Scenario.notification "x")
                          (init_world (init true true true true))
                          (RateLimiter.init RateLimiter.discord_config)
                          TypeError _ _))).
  - reflexivity.
  - reflexivity.
Defined.

End WalletWithoutKey.

Section PendingStays.
Import Py Dispatcher.
Context `{Builtins}.

Lemma limiter_get_set_other ch ch' rl ls :
  ch <> ch' -> limiter_get ch (limiter_set ch' rl ls) = limiter_get ch ls.
Proof.
  intros Hne. induction ls as [|[k rl0] ls IH]; simpl; [reflexivity|].
  destruct (String.eqb_spec ch' k) as [->|Hk]; simpl.
  - apply String.eqb_neq in Hne. now rewrite Hne.
  - destruct (String.eqb ch k); [reflexivity | exact IH].
Qed.

Lemma keeps_pending_refl w : keeps_pending w w.
Proof. intros ch key n Hp. exact Hp. Qed.

Lemma keeps_pending_trans w1 w2 w3 :
  keeps_pending w1 w2 -> keeps_pending w2 w3 -> keeps_pending w1 w3.
Proof. intros H12 H23 ch key n Hp. apply H23, H12, Hp. Qed.

(** Only the rate limiters count. *)
Lemma keeps_pending_limiters w w' :
  rate_limiters w' = rate_limiters w -> keeps_pending w w'.
Proof.
  intros Heq ch key n (rl & evs & Hl & Hg & Hin).
  exists rl, evs. now rewrite Heq.
Qed.

(** A limiter replaced by one whose pending events hold the old ones. *)
Lemma with_limiter_keeps ch' rl rl' w :
  limiter_get ch' (rate_limiters w) = Some rl ->
  (forall key evs,
     RateLimiter.pending_get key (RateLimiter.pending_events rl) = Some evs ->
     exists evs',
       RateLimiter.pending_get key (RateLimiter.pending_events rl') = Some evs'
       /\ forall n, In n (map RateLimiter.event evs) ->
                    In n (map RateLimiter.event evs')) ->
  keeps_pending w (with_limiter ch' rl' w).
Proof.
  intros Hrl Hgrow ch key n (rl0 & evs & Hl & Hg & Hin).
  unfold is_pending. cbn [with_limiter rate_limiters].
  destruct (String.eqb_spec ch ch') as [->|Hne].
  - rewrite Hrl in Hl. injection Hl as <-.
    destruct (Hgrow key evs Hg) as (evs' & Hg' & Hall).
    exists rl', evs'. rewrite limiter_get_set, Hrl. auto.
  - exists rl0, evs. rewrite limiter_get_set_other by exact Hne. auto.
Qed.

Lemma can_send_request_pending {E : Type} now ch wallet
  (rl : RateLimiter.RateLimiter E) :
  RateLimiter.pending_events (snd (RateLimiter.can_send_request now ch wallet rl))
  = RateLimiter.pending_events rl.
Proof.
  unfold RateLimiter.can_send_request.
  destruct (RateLimiter._get_key ch wallet); [|reflexivity].
  now destruct (RateLimiter.admission _ _ _).
Qed.

(** [add_pending_event] takes nothing out of the pending events. *)
Lemma add_pending_event_grows {E : Type} now ch wallet (ev : E) prio
  (rl : RateLimiter.RateLimiter E) key evs :
  RateLimiter.pending_get key (RateLimiter.pending_events rl) = Some evs ->
  exists evs',
    RateLimiter.pending_get key
      (RateLimiter.pending_events
         (snd (RateLimiter.add_pending_event now ch wallet ev prio rl)))
    = Some evs'
    /\ forall x, In x (map RateLimiter.event evs) ->
                 In x (map RateLimiter.event evs').
Proof.
  intros Hg. unfold RateLimiter.add_pending_event.
  destruct (RateLimiter._get_key ch wallet) as [k|e]; [|eauto].
  cbn [snd RateLimiter.with_pending RateLimiter.pending_events].
  destruct (String.eqb_spec key k) as [->|Hne].
  - rewrite Hg, pending_get_set_same. eexists. split; [reflexivity|].
    intros x Hx. apply in_map_iff in Hx as (pe & <- & Hin).
    apply in_map, sort_desc_In, in_app_iff. now left.
  - rewrite pending_get_set_other by exact Hne. eauto.
Qed.

Lemma send_notification_limiters env ch c w :
  rate_limiters (snd (_send_notification_to_channel env ch c w))
  = rate_limiters w.
Proof.
  unfold _send_notification_to_channel. now destruct (known_channel ch).
Qed.

Lemma send_now_keeps env now ch wallet c n w :
  keeps_pending w (snd (send_now env now ch wallet c n w)).
Proof.
  apply keeps_pending_limiters. unfold send_now.
  pose proof (send_notification_limiters env ch c w) as Hl.
  destruct (_send_notification_to_channel env ch c w) as [[|] w1];
    exact Hl.
Qed.

Lemma send_to_channel_keeps env now ch wallet c n w :
  keeps_pending w (snd (_send_to_channel env now ch wallet c n w)).
Proof.
  unfold _send_to_channel.
  destruct (limiter_get ch (rate_limiters w)) as [rl|] eqn:Hrl;
    [|apply send_now_keeps].
  pose proof (can_send_request_pending now ch wallet rl) as Hp.
  destruct (RateLimiter.can_send_request now ch wallet rl)
    as [[[[|] wt]|e] rl']; simpl in Hp.
  - eapply keeps_pending_trans; [|apply send_now_keeps].
    apply (with_limiter_keeps ch rl rl' w Hrl). rewrite Hp. eauto.
  - pose proof (fun key evs =>
                  add_pending_event_grows now ch wallet n 0 rl' key evs) as Hg.
    rewrite Hp in Hg.
    destruct (RateLimiter.add_pending_event now ch wallet n 0 rl')
      as [[[]|e] rl'']; simpl in Hg.
    + eapply keeps_pending_trans; [apply (with_limiter_keeps ch rl rl'' w Hrl Hg)|].
      now apply keeps_pending_limiters.
    + eapply keeps_pending_trans; [apply (with_limiter_keeps ch rl rl'' w Hrl Hg)|].
      now apply keeps_pending_limiters.
  - eapply keeps_pending_trans;
      [apply (with_limiter_keeps ch rl rl' w Hrl); rewrite Hp; eauto|].
    now apply keeps_pending_limiters.
Qed.

Lemma dispatch_channels_keeps env now n (chs : list (string * bool)) :
  forall w, keeps_pending w (snd (dispatch_channels env now n chs w)).
Proof.
  induction chs as [|[ch en] chs IH]; intros w; simpl;
    [apply keeps_pending_refl|].
  destruct en; [|apply IH].
  destruct (lookup ch (Engine.formatted n)) as [c|]; [|apply IH].
  pose proof (send_to_channel_keeps env now ch
                (Engine.wallet (Engine.context n)) c n w) as H1.
  destruct (_send_to_channel env now ch (Engine.wallet (Engine.context n)) c n w)
    as [r w1].
  specialize (IH w1). destruct (dispatch_channels env now n chs w1) as [rs w2].
  simpl in *. eapply keeps_pending_trans; eassumption.
Qed.

(** No step of the running dispatcher takes a pending event out. *)
Lemma run_keeps (steps : list step) :
  forall w, keeps_pending w (run steps w).
Proof.
  unfold run. induction steps as [|s steps IH]; intros w;
    [apply keeps_pending_refl|].
  cbn [fold_left]. eapply keeps_pending_trans; [|apply IH].
  destruct s as [env now n | env now]; cbn [run_step].
  - apply dispatch_channels_keeps.
  - apply keeps_pending_limiters. unfold process_retries.
    destruct (retry_fold_retried env now
                (List.filter (ready (max_retries (dispatcher w)) now)
                             (retry_queue (dispatcher w)))
                (with_dispatcher
                   (with_queue
                      (List.filter
                         (fun i => negb (ready (max_retries (dispatcher w)) now i))
                         (retry_queue (dispatcher w)))
                      (dispatcher w)) w)) as (_ & Hl & _).
    exact Hl.
Qed.

End PendingStays.

Section Claim2.
Import Py Dispatcher.

(** C2, the code at the failing input: six e-mail notifications for one
    wallet dispatched one second apart, on the default limiters (for e-mail a
    bucket of five tokens, refilled at 0.1 token per second). Five are sent;
    the sixth is turned down, with a wait of 10 seconds: it joins the pending
    events of its key and not the retry queue. There it stays whatever the
    dispatcher does afterwards (notifications dispatched, iterations of the
    retry worker, at any clock readings): the flush loop that would remove it
    is never started. Run by hand 10 seconds later, an iteration of the flush
    loop would remove it and call no send primitive. *)
Theorem deferred_notification_stays_pending :
  let n := Scenario.notification "0xabc" in
  let '(results, w) :=
    dispatch_at (H := Scenario.builtins) (fun _ => true)
      [0; 1; 2; 3; 4; 5]%Q n (init_world (init false false true false)) in
  map (map error) results
  = [[None]; [None]; [None]; [None]; [None]; [Some (RateLimited 10)]]
  /\ length (sent w) = 5%nat
  /\ retry_queue (dispatcher w) = []
  /\ (forall steps : list step,
        is_pending "email" "email:0xabc" n
          (run (H := Scenario.builtins) steps w))
  /\ (let w' := flush_tick (H := Scenario.builtins) 15 "email" w in
      sent w' = sent w
      /\ dispatcher w' = dispatcher w
      /\ ~ is_pending "email" "email:0xabc" n w').
Proof.
  cbv zeta.
  destruct (dispatch_at (H := Scenario.builtins) (fun _ => true)
              [0; 1; 2; 3; 4; 5]%Q (Scenario.notification "0xabc")
              (init_world (init false false true false)))
    as [results w] eqn:Hrun.
  vm_compute in Hrun. injection Hrun as <- <-.
  split; [vm_compute; reflexivity|]. split; [reflexivity|].
  split; [reflexivity|]. split.
  - intros steps. apply (run_keeps (H := Scenario.builtins)).
    eexists. eexists. split; [vm_compute; reflexivity|].
    split; [vm_compute; reflexivity|]. simpl. left. reflexivity.
  - split; [vm_compute; reflexivity|]. split; [vm_compute; reflexivity|].
    intros (rl & evs & Hl & Hg & Hin). vm_compute in Hl. injection Hl as <-.
    vm_compute in Hg. discriminate.
Qed.

End Claim2.

(* ================================================================== *)
(** * The configuration: the list of watched wallets *)
(* ================================================================== *)

Section ConfigFacts.
Import Py Config.

Lemma rstrip_idem (s : string) : rstrip (rstrip s) = rstrip s.
Proof.
  induction s as [|c s IH]; [reflexivity|]. cbn [rstrip]. cbv zeta.
  destruct (is_space_char (String c (rstrip s))) eqn:Hsp; [reflexivity|].
  cbn [rstrip]. cbv zeta. rewrite IH, Hsp. reflexivity.
Qed.

(** [rstrip] cuts the string at its end, [lstrip] at its start. *)
Lemma rstrip_prefix (s : string) : exists u, s = (rstrip s ++ u)%string.
Proof.
  induction s as [|c s [u Hu]]; [now exists EmptyString|].
  cbn [rstrip]. cbv zeta.
  destruct (is_space_char (String c (rstrip s))).
  - now exists (String c s).
  - exists u. exact (f_equal (String c) Hu).
Qed.

Lemma lstrip_cases (n : nat) :
  forall s, (String.length s <= n)%nat ->
  (exists p, s = (p ++ lstrip s)%string)
  /\ starts_with_space (lstrip s) = false.
Proof.
  induction n as [|n IH]; intros s Hlen.
  - destruct s; [|simpl in Hlen; lia]. split; [now exists EmptyString | reflexivity].
  - destruct s as [|c s1]; [split; [now exists EmptyString | reflexivity]|].
    simpl in Hlen. cbn [lstrip].
    destruct (is_space c) eqn:Hc.
    { destruct (IH s1 ltac:(lia)) as [[p Hp] Hs]. split; [|exact Hs].
      exists (String c p). exact (f_equal (String c) Hp). }
    destruct s1 as [|d s2];
      [split; [now exists EmptyString | simpl; now rewrite Hc]|].
    simpl in Hlen.
    destruct (is_space2 c d) eqn:Hd.
    { destruct (IH s2 ltac:(lia)) as [[p Hp] Hs]. split; [|exact Hs].
      exists (String c (String d p)).
      exact (f_equal (fun x => String c (String d x)) Hp). }
    destruct s2 as [|e s3];
      [split; [now exists EmptyString | simpl; now rewrite Hc, Hd]|].
    simpl in Hlen.
    destruct (is_space3 c d e) eqn:He.
    { destruct (IH s3 ltac:(lia)) as [[p Hp] Hs]. split; [|exact Hs].
      exists (String c (String d (String e p))).
      exact (f_equal (fun x => String c (String d (String e x))) Hp). }
    split; [now exists EmptyString | simpl; now rewrite Hc, Hd, He].
Qed.

Lemma lstrip_fixed (s : string) :
  starts_with_space s = false -> lstrip s = s.
Proof.
  destruct s as [|c [|d [|e s3]]]; simpl; try reflexivity.
  - intros Hc. rewrite orb_false_r in Hc. now rewrite Hc.
  - intros Hs. apply orb_false_iff in Hs as [Hc Hd].
    rewrite orb_false_r in Hd. now rewrite Hc, Hd.
  - intros Hs. apply orb_false_iff in Hs as [Hc Hs].
    apply orb_false_iff in Hs as [Hd He]. now rewrite Hc, Hd, He.
Qed.

Lemma starts_with_space_prefix (p u : string) :
  starts_with_space (p ++ u) = false -> starts_with_space p = false.
Proof.
  destruct p as [|c [|d [|e p3]]]; simpl; try reflexivity.
  - intros Hs. apply orb_false_iff in Hs as [Hc _]. now rewrite Hc.
  - intros Hs. apply orb_false_iff in Hs as [Hc Hs]. rewrite Hc. simpl.
    destruct u; [exact Hs|]. apply orb_false_iff in Hs as [Hd _].
    now rewrite Hd.
  - auto.
Qed.

Lemma strip_idem (s : string) : strip (strip s) = strip s.
Proof.
  unfold strip.
  destruct (lstrip_cases (String.length s) s (le_n _)) as [_ Hs].
  destruct (rstrip_prefix (lstrip s)) as [u Hu].
  rewrite Hu in Hs. apply starts_with_space_prefix in Hs.
  rewrite (lstrip_fixed _ Hs). apply rstrip_idem.
Qed.

Lemma comma_free_app (p u : string) :
  comma_free (p ++ u) = comma_free p && comma_free u.
Proof.
  induction p as [|c p IH]; [reflexivity|]. simpl.
  now rewrite IH, andb_assoc.
Qed.

Lemma comma_free_lstrip (s : string) :
  comma_free s = true -> comma_free (lstrip s) = true.
Proof.
  destruct (lstrip_cases (String.length s) s (le_n _)) as [[p Hp] _].
  rewrite Hp at 1. rewrite comma_free_app. intros Hs.
  now apply andb_true_iff in Hs as [_ Hs].
Qed.

Lemma comma_free_rstrip (s : string) :
  comma_free s = true -> comma_free (rstrip s) = true.
Proof.
  destruct (rstrip_prefix s) as [u Hu].
  rewrite Hu at 1. rewrite comma_free_app. intros Hs.
  now apply andb_true_iff in Hs as [Hs _].
Qed.

Lemma split_comma_free (s : string) :
  Forall (fun piece => comma_free piece = true) (split_comma s).
Proof.
  induction s as [|c s IH]; [repeat constructor|]. simpl.
  destruct (Ascii.eqb c ",") eqn:Hc; [constructor; [reflexivity | exact IH]|].
  destruct (split_comma s) as [|piece rest];
    [repeat constructor; simpl; now rewrite Hc|].
  apply Forall_cons_iff in IH as [Hp Hr]. constructor; [|exact Hr].
  simpl. now rewrite Hc.
Qed.

Lemma split_comma_piece (w rest : string) :
  comma_free w = true ->
  split_comma (w ++ String "," rest) = w :: split_comma rest.
Proof.
  induction w as [|c w IH]; intros Hw; [reflexivity|]. simpl in *.
  apply andb_true_iff in Hw as [Hc Hw]. apply negb_true_iff in Hc.
  now rewrite Hc, IH.
Qed.

Lemma split_comma_last (w : string) :
  comma_free w = true -> split_comma w = [w].
Proof.
  induction w as [|c w IH]; intros Hw; [reflexivity|]. simpl in *.
  apply andb_true_iff in Hw as [Hc Hw]. apply negb_true_iff in Hc.
  now rewrite Hc, IH.
Qed.

Lemma split_comma_join (ws : list string) :
  ws <> [] -> Forall (fun w => comma_free w = true) ws ->
  split_comma (join "," ws) = ws.
Proof.
  induction ws as [|w ws IH]; intros Hne Hall; [contradiction|].
  apply Forall_cons_iff in Hall as [Hw Hws].
  destruct ws as [|w' ws]; [now apply split_comma_last|].
  change (join "," (w :: w' :: ws))
    with (w ++ String "," (join "," (w' :: ws)))%string.
  rewrite split_comma_piece by exact Hw. f_equal. now apply IH.
Qed.

End ConfigFacts.

Section ConfigClaims.
Import Py Config.

(** X29: [parse_wallets] on a string gives clean wallets only (none empty,
    none with a comma or with white space at its ends), and it is the
    inverse of joining with commas: the comma-joined text of a list of clean
    wallets is parsed back into that list, the empty text into the empty
    list. *)
Theorem parse_wallets_clean_and_inverse (s : string) (ws : list string) :
  (exists parsed,
     parse_wallets (PStr s) = PList (map PStr parsed) /\ Forall clean parsed)
  /\ (Forall clean ws -> parse_wallets (PStr (join "," ws)) = PList (map PStr ws)).
Proof.
  split.
  - exists (map strip (List.filter (fun w => negb (String.eqb (strip w) ""))
                                   (split_comma s))).
    split; [unfold parse_wallets; now rewrite map_map|].
    apply List.Forall_forall. intros w Hw.
    apply in_map_iff in Hw as (piece & <- & Hin).
    apply filter_In in Hin as [Hin Hne].
    apply negb_true_iff, String.eqb_neq in Hne.
    split; [exact Hne|]. split; [|apply strip_idem].
    pose proof (split_comma_free s) as Hfree.
    rewrite List.Forall_forall in Hfree.
    unfold strip. apply comma_free_rstrip, comma_free_lstrip. auto.
  - intros Hclean. unfold parse_wallets. f_equal.
    destruct ws as [|w ws]; [reflexivity|].
    rewrite split_comma_join; [|discriminate|].
    + induction Hclean as [|x l (Hne & _ & Hstrip) _ IH]; [reflexivity|].
      cbn [List.filter]. rewrite Hstrip.
      apply String.eqb_neq in Hne. rewrite Hne. cbn [negb map].
      rewrite Hstrip. f_equal. exact IH.
    + eapply Forall_impl; [exact Hclean|]. now intros x (_ & Hx & _).
Qed.

End ConfigClaims.

(* ================================================================== *)
(** * The formatter and the notifications of the engine *)
(* ================================================================== *)

Section FormatterFacts.
Import Py Engine NotificationFormatter.

Lemma returns_Ok {A : Type} (a : A) : returns (Ok a).
Proof. now exists a. Qed.

Lemma returns_Raise {A : Type} (e : exn) : ~ returns (@Raise A e).
Proof. intros [a Ha]. discriminate. Qed.

Lemma returns_bind {A B : Type} (m : res A) (f : A -> res B) :
  returns (bind m f) <-> exists a, m = Ok a /\ returns (f a).
Proof.
  destruct m as [a|e]; simpl.
  - split; [intros Hr; now exists a | intros (a' & [= <-] & Hr); exact Hr].
  - split; [intros Hr; now apply returns_Raise in Hr
           | intros (a' & Hd & _); discriminate].
Qed.

Lemma slice8_returns `{Builtins} (w : pyval) :
  returns (slice8 w) <-> sliceable w = true.
Proof.
  destruct w; simpl; split; intros Hr;
    try discriminate; try (now apply returns_Raise in Hr);
    try reflexivity; apply returns_Ok.
Qed.

Lemma slice8_sliceable `{Builtins} (w : pyval) :
  sliceable w = true -> exists s, slice8 w = Ok s.
Proof. intros Hw. now apply slice8_returns. Qed.

Lemma slice8_Ok `{Builtins} (w : pyval) (s : string) :
  slice8 w = Ok s -> sliceable w = true.
Proof. intros Hw. apply slice8_returns. now exists s. Qed.

Lemma str_lower_returns `{Text} (v : pyval) :
  returns (str_lower v) <-> exists s, v = PStr s.
Proof.
  destruct v; simpl; split; intros Hr;
    try (now apply returns_Raise in Hr);
    try (destruct Hr as [s' Hs]; discriminate);
    try (now eexists); apply returns_Ok.
Qed.

Lemma str_upper_returns `{Text} (v : pyval) :
  returns (str_upper v) <-> exists s, v = PStr s.
Proof.
  destruct v; simpl; split; intros Hr;
    try (now apply returns_Raise in Hr);
    try (destruct Hr as [s' Hs]; discriminate);
    try (now eexists); apply returns_Ok.
Qed.

Lemma text_or_falsy_spec (v : pyval) :
  text_or_falsy v = true <-> (truthy v = true -> exists s, v = PStr s).
Proof.
  unfold text_or_falsy. destruct (truthy v) eqn:Ht; simpl.
  - split.
    + intros Hs _. destruct v; try discriminate. now eexists.
    + intros Hs. destruct (Hs eq_refl) as [s ->]. reflexivity.
  - split; [discriminate | reflexivity].
Qed.

(** The part of a formatter that depends on the side. *)
Lemma side_part_returns `{Text} {A : Type} (side : pyval)
  (k : string -> string -> list A) :
  returns (if truthy side
           then bind (side_emoji side) (fun e =>
                bind (str_upper side) (fun up => Ok (k e up)))
           else Ok []) <-> text_or_falsy side = true.
Proof.
  rewrite text_or_falsy_spec. destruct (truthy side) eqn:Ht.
  - split.
    + intros Hr _. apply returns_bind in Hr as (e & He & _).
      unfold side_emoji in He.
      assert (Hl : returns (str_lower side)).
      { destruct (str_lower side); [apply returns_Ok | discriminate]. }
      now apply str_lower_returns in Hl.
    + intros Hs. destruct (Hs eq_refl) as [s ->]. simpl. apply returns_Ok.
  - split; [discriminate | intros _; apply returns_Ok].
Qed.

Lemma description_returns `{Builtins} `{Text} (ctx : NotificationContext)
  (ev : pydict) :
  sliceable (wallet ctx) = true -> returns (_get_description ctx ev).
Proof.
  intros Hw. apply slice8_sliceable in Hw as [w Hw]. unfold _get_description.
  destruct (position_size ctx), (usd_truthy (usd_value ctx));
    try apply returns_Ok; rewrite Hw; apply returns_Ok.
Qed.

Lemma fields_returns `{Builtins} `{Text} (ctx : NotificationContext)
  (ev : pydict) :
  returns (_get_discord_fields ctx ev)
  <-> sliceable (wallet ctx) = true /\ text_or_falsy (side ctx) = true.
Proof.
  unfold _get_discord_fields. cbv zeta. rewrite returns_bind. split.
  - intros (f3 & Hf3 & Hr). apply returns_bind in Hr as (w & Hw & _). split.
    + exact (slice8_Ok _ _ Hw).
    + eapply side_part_returns. exists f3. exact Hf3.
  - intros [Hw Hs].
    apply (side_part_returns (side ctx)
             (fun e up => [field (e ++ " Side") (PStr up)])) in Hs as [f3 Hf3].
    exists f3. split; [exact Hf3|].
    apply slice8_sliceable in Hw as [w Hw]. rewrite Hw. apply returns_Ok.
Qed.

Lemma discord_returns `{Builtins} `{Text} (ctx : NotificationContext)
  (ev : pydict) :
  returns (format_discord_notification ctx ev)
  <-> sliceable (wallet ctx) = true /\ text_or_falsy (side ctx) = true
      /\ text_or_falsy (coin ctx) = true.
Proof.
  unfold format_discord_notification. rewrite returns_bind. split.
  - intros (d & Hd & Hr). apply returns_bind in Hr as (fs & Hfs & Hr).
    assert (Hf : returns (_get_discord_fields ctx ev)) by now exists fs.
    apply fields_returns in Hf as [Hw Hs]. split; [exact Hw|].
    split; [exact Hs|].
    apply returns_bind in Hr as (w & _ & Hr). cbv zeta in Hr.
    apply returns_bind in Hr as (e & He & _).
    apply text_or_falsy_spec. intros Ht. rewrite Ht in He.
    assert (Hl : returns (str_lower (coin ctx))).
    { destruct (str_lower (coin ctx)); [apply returns_Ok | discriminate]. }
    now apply str_lower_returns in Hl.
  - intros (Hw & Hs & Hc).
    destruct (description_returns ctx ev Hw) as [d Hd].
    exists d. split; [exact Hd|].
    destruct (proj2 (fields_returns ctx ev) (conj Hw Hs)) as [fs Hfs].
    rewrite Hfs. cbn [bind].
    apply slice8_sliceable in Hw as [w Hw]. rewrite Hw. cbn [bind]. cbv zeta.
    destruct (truthy (coin ctx)) eqn:Ht.
    + destruct (proj1 (text_or_falsy_spec _) Hc Ht) as [s Hs'].
      rewrite Hs'. simpl. apply returns_Ok.
    + simpl. apply returns_Ok.
Qed.

Lemma telegram_returns `{Builtins} `{Text} (ctx : NotificationContext)
  (ev : pydict) :
  returns (format_telegram_notification ctx ev)
  <-> sliceable (wallet ctx) = true /\ text_or_falsy (side ctx) = true.
Proof.
  unfold format_telegram_notification. rewrite returns_bind. split.
  - intros (d & Hd & Hr). cbv zeta in Hr.
    apply returns_bind in Hr as (l3 & Hl3 & Hr).
    apply returns_bind in Hr as (w & Hw & _). split.
    + exact (slice8_Ok _ _ Hw).
    + eapply side_part_returns. exists l3. exact Hl3.
  - intros [Hw Hs].
    destruct (description_returns ctx ev Hw) as [d Hd].
    exists d. split; [exact Hd|]. cbv zeta.
    apply (side_part_returns (side ctx)
             (fun e up => [e ++ " *Side:* " ++ up]%string)) in Hs as [l3 Hl3].
    rewrite Hl3. cbn [bind].
    apply slice8_sliceable in Hw as [w Hw]. rewrite Hw. apply returns_Ok.
Qed.

Lemma email_returns `{Builtins} `{Text} (ctx : NotificationContext)
  (ev : pydict) :
  returns (format_email_notification ctx ev)
  <-> sliceable (wallet ctx) = true /\ usd_value ctx <> None.
Proof.
  unfold format_email_notification. cbv zeta. rewrite returns_bind. split.
  - intros (d & Hd & Hr). apply returns_bind in Hr as (m & Hm & Hr).
    apply returns_bind in Hr as (w & Hw & _). split.
    + exact (slice8_Ok _ _ Hw).
    + intros Hn. rewrite Hn in Hm. discriminate.
  - intros [Hw Hu].
    destruct (description_returns ctx ev Hw) as [d Hd].
    exists d. split; [exact Hd|].
    destruct (usd_value ctx) as [u|]; [|congruence]. cbn [money bind].
    apply slice8_sliceable in Hw as [w Hw]. rewrite Hw. apply returns_Ok.
Qed.

Lemma webhook_returns `{Builtins} `{Text} (ctx : NotificationContext)
  (ev : pydict) :
  sliceable (wallet ctx) = true -> returns (format_webhook_notification ctx ev).
Proof.
  intros Hw. destruct (description_returns ctx ev Hw) as [d Hd].
  unfold format_webhook_notification. rewrite Hd. apply returns_Ok.
Qed.

(** X30: with the formatter of the repository, [_create_notification] builds a
    notification for a fired rule exactly when there is a position analysis,
    the wallet of the event is a string or a list, and its coin and its side
    are each falsy or a string. Without a position analysis it returns None
    whatever the event: the e-mail body formats the missing USD value with
    [:,.2f], which raises. *)
Theorem notification_created_iff `{Builtins} `{Text} (now : Q) (ev : pydict)
  (rule : Rules.AlertRule) (analysis : option Classifier.PositionAnalysis) :
  is_Some (_create_notification (H0 := formatter) now ev rule analysis)
  <-> analysis <> None
      /\ sliceable (get_default "wallet" (PStr "unknown") ev) = true
      /\ text_or_falsy (get "coin" ev) = true
      /\ text_or_falsy (get "side" ev) = true.
Proof.
  unfold _create_notification. cbv zeta.
  set (ctx := {| wallet := get_default "wallet" (PStr "unknown") ev;
                 event_type := get_default "type" (PStr "unknown") ev;
                 position_size := option_map Classifier.size_class analysis;
                 usd_value := option_map Classifier.usd_value analysis;
                 coin := get "coin" ev; side := get "side" ev;
                 timestamp := now; additional_data := ev |}).
  pose proof (discord_returns ctx ev) as Hd.
  pose proof (telegram_returns ctx ev) as Ht.
  pose proof (email_returns ctx ev) as He.
  pose proof (webhook_returns ctx ev) as Hw.
  assert (Hu : usd_value ctx <> None <-> analysis <> None).
  { subst ctx. simpl. destruct analysis; simpl; split; congruence. }
  change (wallet ctx) with (get_default "wallet" (PStr "unknown") ev) in *.
  change (coin ctx) with (get "coin" ev) in *.
  change (side ctx) with (get "side" ev) in *.
  unfold channel_names, format_channel, formatter. cbn [String.eqb Ascii.eqb Bool.eqb].
  cbv beta iota.
  destruct (format_discord_notification ctx ev) as [d|e1].
  2:{ split; [intros [n Hn]; discriminate|].
      intros (Ha & Hs & Hc & Hsd). exfalso.
      eapply returns_Raise, (proj2 Hd). auto. }
  destruct (format_telegram_notification ctx ev) as [t|e2].
  2:{ split; [intros [n Hn]; discriminate|].
      intros (Ha & Hs & Hc & Hsd). exfalso.
      eapply returns_Raise, (proj2 Ht). auto. }
  destruct (format_email_notification ctx ev) as [m|e3].
  2:{ split; [intros [n Hn]; discriminate|].
      intros (Ha & Hs & Hc & Hsd). exfalso.
      eapply returns_Raise, (proj2 He). split; [exact Hs | now apply Hu]. }
  destruct (proj1 Hd (returns_Ok d)) as (Hs & Hsd & Hc).
  destruct (proj1 He (returns_Ok m)) as (_ & Hne).
  destruct (format_webhook_notification ctx ev) as [w|e4].
  2:{ exfalso. eapply returns_Raise, Hw, Hs. }
  simpl. split; [intros _ | intros _; now eexists].
  split; [now apply Hu | auto].
Qed.

End FormatterFacts.
